(** * FunctionExtractor: a shallow embedding of
      [src/services/code_extraction_service.py]

    The extractor locates C/C++ function definitions by lexical scanning.
    Python [str] values are modelled as lists of 8-bit code points
    ([list ascii], the Latin-1 range); the character classes used by
    [str.strip], [\s] and [\w] follow CPython's tables on that range.
    Python [int] is [Z]; list indices produced by [range(len(..))] are [nat].
    Exceptions are modelled by an explicit [result] type. *)

From Stdlib Require Import List Ascii String ZArith Bool Arith Lia.
Import ListNotations.

Local Open Scope char_scope.
Local Open Scope bool_scope.
Local Open Scope list_scope.

(* ================================================================== *)
(** ** Python string primitives *)

Definition str := list ascii.

Definition s2l (s : string) : str := list_ascii_of_string s.

Definition newline : ascii := "010".
Definition dquote : ascii := "034".
Definition squote : ascii := "'".
Definition backslash : ascii := "\".
Definition slash : ascii := "/".
Definition star : ascii := "*".
Definition lbrace : ascii := "{".
Definition rbrace : ascii := "}".
Definition lparen : ascii := "(".
Definition rparen : ascii := ")".
Definition semicolon : ascii := ";".
Definition hash : ascii := "#".
Definition space : ascii := " ".
Definition underscore : ascii := "_".
Definition dot : ascii := ".".

Definition code (c : ascii) : nat := nat_of_ascii c.

Definition in_range (lo hi : nat) (c : ascii) : bool :=
  (lo <=? code c)%nat && (code c <=? hi)%nat.

(** [str.isspace] / regex [\s] on code points below 256:
    TAB..CR, FS..US, SPACE, NEL (0x85) and NBSP (0xA0). *)
Definition isspace (c : ascii) : bool :=
  in_range 9 13 c || in_range 28 32 c
  || (code c =? 133)%nat || (code c =? 160)%nat.

(** Regex [\w] on code points below 256: alphanumerics and underscore. *)
Definition isword (c : ascii) : bool :=
  in_range 48 57 c || in_range 65 90 c || (code c =? 95)%nat
  || in_range 97 122 c || (code c =? 170)%nat || in_range 178 179 c
  || (code c =? 181)%nat || in_range 185 186 c || in_range 188 190 c
  || in_range 192 214 c || in_range 216 246 c || in_range 248 255 c.

(** [str.lower] on one code point below 256. *)
Definition lower_char (c : ascii) : ascii :=
  if in_range 65 90 c || in_range 192 214 c || in_range 216 222 c
  then ascii_of_nat (code c + 32) else c.

Definition lower (s : str) : str := map lower_char s.

Fixpoint str_eqb (a b : str) : bool :=
  match a, b with
  | [], [] => true
  | x :: a', y :: b' => Ascii.eqb x y && str_eqb a' b'
  | _, _ => false
  end.

Fixpoint lstrip (s : str) : str :=
  match s with
  | [] => []
  | c :: s' => if isspace c then lstrip s' else s
  end.

Definition rstrip (s : str) : str := rev (lstrip (rev s)).

Definition strip (s : str) : str := rstrip (lstrip s).

(** [s.startswith(p)] *)
Fixpoint startswith (s p : str) {struct p} : bool :=
  match p, s with
  | [], _ => true
  | x :: p', y :: s' => Ascii.eqb x y && startswith s' p'
  | _ :: _, [] => false
  end.

(** [s.endswith(p)] *)
Definition endswith (s p : str) : bool := startswith (rev s) (rev p).

(** [sub in s] on strings *)
Fixpoint contains (s sub : str) : bool :=
  startswith s sub ||
  match s with
  | [] => false
  | _ :: s' => contains s' sub
  end.

(** [c in s] for a one-character [c] *)
Definition has_char (c : ascii) (s : str) : bool :=
  existsb (Ascii.eqb c) s.

(** [s.split(sep)] for a one-character separator: never the empty list. *)
Fixpoint split (sep : ascii) (s : str) : list str :=
  match s with
  | [] => [[]]
  | c :: s' =>
      if Ascii.eqb c sep then [] :: split sep s'
      else match split sep s' with
           | [] => [[c]]
           | l :: ls => (c :: l) :: ls
           end
  end.

(** ['\n'.join(ls)] *)
Fixpoint join_nl (ls : list str) : str :=
  match ls with
  | [] => []
  | [l] => l
  | l :: ls' => l ++ newline :: join_nl ls'
  end.

(** [file.readlines()]: the lines keep their terminating newline. *)
Fixpoint readlines_aux (cur : str) (s : str) : list str :=
  match s with
  | [] => match cur with [] => [] | _ => [rev cur] end
  | c :: s' =>
      if Ascii.eqb c newline then rev (c :: cur) :: readlines_aux [] s'
      else readlines_aux (c :: cur) s'
  end.

Definition readlines (s : str) : list str := readlines_aux [] s.

(** Number of newline characters of a text. *)
Definition count_newlines (s : str) : nat :=
  List.length (filter (Ascii.eqb newline) s).

(* ================================================================== *)
(** ** Brace counting and comment stripping *)

Definition opt_eqb (c : ascii) (o : option ascii) : bool :=
  match o with
  | Some d => Ascii.eqb c d
  | None => false
  end.

Definition is_quote (c : ascii) : bool :=
  Ascii.eqb c dquote || Ascii.eqb c squote.

(** The two tests at the end of the loop body of [_count_braces_in_text]. *)
Definition bump (char : ascii) (count : Z) : Z :=
  if Ascii.eqb char lbrace then (count + 1)%Z
  else if Ascii.eqb char rbrace then (count - 1)%Z
  else count.

(** The [while i < len(text)] loop of [_count_braces_in_text]; [text] is the
    suffix [text[i:]] and the other arguments are the loop's variables. *)
Fixpoint count_braces_loop (text : str) (in_string in_char : bool)
    (string_char : option ascii) (count : Z) {struct text} : Z :=
  match text with
  | [] => count
  | char :: rest =>
      if (in_string || in_char) && Ascii.eqb char backslash then
        (* i += 2; continue *)
        match rest with
        | [] => count
        | _ :: rest' =>
            count_braces_loop rest' in_string in_char string_char count
        end
      else if is_quote char && negb in_char && negb in_string then
        count_braces_loop rest true in_char (Some char) count
      else if opt_eqb char string_char && in_string then
        count_braces_loop rest false in_char None count
      else if Ascii.eqb char squote && negb in_string && negb in_char then
        count_braces_loop rest in_string true string_char count
      else if Ascii.eqb char squote && in_char then
        count_braces_loop rest in_string false string_char count
      else if negb in_string && negb in_char then
        match Ascii.eqb char slash, rest with
        | true, next_char :: rest' =>
            if Ascii.eqb next_char slash then count (* break *)
            else if Ascii.eqb next_char star then
              (* i += 2; continue *)
              count_braces_loop rest' in_string in_char string_char count
            else
              count_braces_loop rest in_string in_char string_char
                (bump char count)
        | _, _ =>
            count_braces_loop rest in_string in_char string_char
              (bump char count)
        end
      else
        count_braces_loop rest in_string in_char string_char count
  end.

Definition _count_braces_in_text (text : str) : Z :=
  count_braces_loop text false false None 0%Z.

Definition _count_braces_in_lines (lines : list str) : Z :=
  fold_right Z.add 0%Z (map _count_braces_in_text lines).

(** The inner loop of the [//] branch of [_remove_comments]:
    [while i < len(content) and content[i] != '\n': i += 1].  When it
    stops on a newline, that newline is appended and the outer loop
    [resume]s AT the newline, which [i] still designates. *)
Fixpoint skip_line_comment (resume : str -> str) (l : str) : str :=
  match l with
  | [] => []
  | c :: l' =>
      if Ascii.eqb c newline then newline :: resume l
      else skip_line_comment resume l'
  end.

(** The inner loop of the [/*] branch: [while i + 1 < len(content)], the
    newlines of the comment being appended.  The outer loop [resume]s
    after the closing [*/], or at the last character when the comment is
    not closed. *)
Fixpoint skip_block_comment (resume : str -> str) (l : str) : str :=
  match l with
  | [] => resume l
  | c :: l' =>
      match l' with
      | [] => resume l
      | d :: l'' =>
          if Ascii.eqb c star && Ascii.eqb d slash then resume l''
          else if Ascii.eqb c newline
          then newline :: skip_block_comment resume l'
          else skip_block_comment resume l'
      end
  end.

(** The [while i < len(content)] loop of [_remove_comments]; the result is
    the sequence of characters appended to [result] from position [i] on. *)
Fixpoint remove_comments_loop (content : str) (in_string in_char : bool)
    (string_char : option ascii) {struct content} : str :=
  match content with
  | [] => []
  | char :: rest =>
      if (in_string || in_char) && Ascii.eqb char backslash then
        match rest with
        | [] => [char]
        | c1 :: rest' =>
            char :: c1 ::
              remove_comments_loop rest' in_string in_char string_char
        end
      else if is_quote char && negb in_char && negb in_string then
        char :: remove_comments_loop rest true in_char (Some char)
      else if opt_eqb char string_char && in_string then
        char :: remove_comments_loop rest false in_char None
      else if Ascii.eqb char squote && negb in_string && negb in_char then
        char :: remove_comments_loop rest in_string true string_char
      else if Ascii.eqb char squote && in_char then
        char :: remove_comments_loop rest in_string false string_char
      else if negb in_string && negb in_char then
        match Ascii.eqb char slash, rest with
        | true, next_char :: rest' =>
            if Ascii.eqb next_char slash then
              (* the two slashes are not newlines: the inner loop is
                 entered after them *)
              skip_line_comment
                (fun l =>
                   remove_comments_loop l in_string in_char string_char)
                rest'
            else if Ascii.eqb next_char star then
              (* i += 2, then the inner loop *)
              skip_block_comment
                (fun l =>
                   remove_comments_loop l in_string in_char string_char)
                rest'
            else
              char :: remove_comments_loop rest in_string in_char string_char
        | _, _ =>
            char :: remove_comments_loop rest in_string in_char string_char
        end
      else
        char :: remove_comments_loop rest in_string in_char string_char
  end.

Definition _remove_comments (content : str) : str :=
  remove_comments_loop content false false None.


(* ================================================================== *)
(** ** Function Boundary Detector *)

Definition isword_opt (o : option ascii) : bool :=
  match o with
  | Some c => isword c
  | None => false
  end.

(** [\b] between the character before the position and the one at it. *)
Definition word_boundary (prev next : option ascii) : bool :=
  xorb (isword_opt prev) (isword_opt next).

(** [\s*\(] at the head of [s]: the parenthesis is not a space, so the
    greedy run of spaces never has to give a character back. *)
Fixpoint spaces_then_lparen (s : str) : bool :=
  match s with
  | [] => false
  | c :: s' => if isspace c then spaces_then_lparen s' else Ascii.eqb c lparen
  end.

(** [s] with the prefix [p] removed, when [s] starts with [p]. *)
Fixpoint drop_prefix (p s : str) {struct p} : option str :=
  match p, s with
  | [], _ => Some s
  | x :: p', y :: s' => if Ascii.eqb x y then drop_prefix p' s' else None
  | _ :: _, [] => None
  end.

(** The pattern [\b<name>\s*\(] ([name] escaped, hence literal) matched
    at the head of [s], [prev] being the character before it. *)
Definition match_here (name : str) (prev : option ascii) (s : str) : bool :=
  word_boundary prev (hd_error s) &&
  match drop_prefix name s with
  | Some rest => spaces_then_lparen rest
  | None => false
  end.

Fixpoint search_from (name : str) (prev : option ascii) (s : str) : bool :=
  match_here name prev s ||
  match s with
  | [] => false
  | c :: s' => search_from name (Some c) s'
  end.

(** [re.search(rf'\b{re.escape(function_name)}\s*\(', line)] is not None *)
Definition re_search_call (function_name : str) (line : str) : bool :=
  search_from function_name None line.

Definition _is_inside_string_or_macro (line function_name : str) : bool :=
  if contains line (dquote :: function_name)
     || contains line (squote :: function_name)
  then true
  else if startswith (strip line) [hash] then true
  else false.

Definition _is_function_declaration (lines : list str) (start_idx : nat)
    (function_name : str) : bool :=
  let current_line :=
    if (start_idx <? List.length lines)%nat
    then strip (nth start_idx lines []) else [] in
  if str_eqb current_line [] || endswith current_line [semicolon] then false
  else if re_search_call function_name current_line
          && negb (_is_inside_string_or_macro current_line function_name)
  then true
  else if (start_idx + 1 <? List.length lines)%nat
          && negb (has_char lparen current_line)
  then
    let next_line := strip (nth (start_idx + 1) lines []) in
    let combined := current_line ++ space :: next_line in
    if re_search_call function_name combined
       && negb (_is_inside_string_or_macro combined function_name)
       && negb (endswith current_line [semicolon])
    then true
    else false
  else false.

(* ================================================================== *)
(** ** Brace Matcher *)

(** First loop of [_extract_complete_function]: accumulate lines from index
    [i] up to and including the first one that contains an opening brace.
    Returns the accumulated lines, the remaining lines ([lines[i:]] after
    the loop) and [brace_found]. *)
Fixpoint find_brace (rest : list str) : list str * list str * bool :=
  match rest with
  | [] => ([], [], false)
  | line :: rest' =>
      if has_char lbrace line then ([line], rest', true)
      else
        let '(acc, rem, found) := find_brace rest' in
        (line :: acc, rem, found)
  end.

(** Second loop: [while i < len(lines) and brace_count > 0]; returns the
    lines appended to [function_lines]. *)
Fixpoint match_braces (rest : list str) (brace_count : Z) : list str :=
  match rest with
  | [] => []
  | line :: rest' =>
      if (0 <? brace_count)%Z then
        let brace_count' := (brace_count + _count_braces_in_text line)%Z in
        if (brace_count' =? 0)%Z then [line]
        else line :: match_braces rest' brace_count'
      else []
  end.

Definition _extract_complete_function (lines : list str) (start_idx : nat)
    (function_name : str) : str :=
  let '(function_lines, rest, brace_found) :=
    find_brace (skipn start_idx lines) in
  if negb brace_found then join_nl function_lines
  else
    let brace_count := _count_braces_in_lines function_lines in
    join_nl (function_lines ++ match_braces rest brace_count).

(* ================================================================== *)
(** ** Parsing one file's content *)

(** The indices [i] in [range(len(lines))], from [i] on, at which
    [_is_function_declaration] holds. *)
Fixpoint declaration_indices (lines : list str) (function_name : str)
    (i n : nat) : list nat :=
  match n with
  | O => []
  | S n' =>
      if _is_function_declaration lines i function_name
      then i :: declaration_indices lines function_name (S i) n'
      else declaration_indices lines function_name (S i) n'
  end.

(** [min(matches, key)] on a non-empty list: the first element whose key
    is the least. *)
Fixpoint min_by (key : nat -> Z) (best : nat) (l : list nat) : nat :=
  match l with
  | [] => best
  | x :: l' =>
      if (key x <? key best)%Z then min_by key x l' else min_by key best l'
  end.

Definition line_distance (line_number : Z) (x : nat) : Z :=
  Z.abs (Z.of_nat x + 1 - line_number).

Definition _parse_function (content function_name : str)
    (line_number : option Z) (remove_comments : bool) : option str :=
  let content := if remove_comments then _remove_comments content
                 else content in
  let lines := split newline content in
  let matches :=
    declaration_indices lines function_name 0 (List.length lines) in
  match matches with
  | [] => None
  | first :: others =>
      match line_number with
      | Some ln =>
          let best_match := min_by (line_distance ln) first others in
          Some (_extract_complete_function lines best_match function_name)
      | None =>
          Some (_extract_complete_function lines first function_name)
      end
  end.

(* ================================================================== *)
(** ** A backtracking matcher for the Signature Lister's pattern *)

(** The fragment of Python's [re] syntax that the pattern of
    [_list_functions_in_file] uses.  [Bol] is [^] under [re.MULTILINE],
    [Star] is the greedy star, [Ahead] is [(?=...)]. *)
Inductive regex : Type :=
| Eps
| Class (p : ascii -> bool)
| Bol
| Cat (r1 r2 : regex)
| Alt (r1 r2 : regex)
| Star (r : regex)
| Group (n : nat) (r : regex)
| Ahead (r : regex).

Definition Chr (c : ascii) : regex := Class (Ascii.eqb c).
Definition Plus (r : regex) : regex := Cat r (Star r).
Definition Lit (s : string) : regex :=
  fold_right (fun c r => Cat (Chr c) r) Eps (s2l s).

(** A position of the matcher: the character before it, the text from it
    on, and the groups captured so far (latest first). *)
Record mstate : Type := MState {
  prev : option ascii;
  rest : str;
  caps : list (nat * str)
}.

Definition captured (st st' : mstate) : str :=
  firstn (List.length (rest st) - List.length (rest st')) (rest st).

Definition set_cap (n : nat) (s : str) (st : mstate) : mstate :=
  MState (prev st) (rest st) ((n, s) :: caps st).

Fixpoint get_cap (n : nat) (cs : list (nat * str)) : str :=
  match cs with
  | [] => []
  | (k, s) :: cs' => if (k =? n)%nat then s else get_cap n cs'
  end.

Definition at_line_start (st : mstate) : bool :=
  match prev st with
  | None => true
  | Some c => Ascii.eqb c newline
  end.

(** The greedy star over one iteration [step]: as many iterations as
    possible first, none last.  An iteration that consumes nothing is not
    repeated, so the iteration count is bounded by the length of the
    remaining text, which is the [fuel] the matcher passes. *)
Fixpoint iterate (step : mstate -> list mstate) (fuel : nat) (st : mstate)
    {struct fuel} : list mstate :=
  match fuel with
  | O => [st]
  | S fuel' =>
      flat_map
        (fun st' =>
           if (List.length (rest st') <? List.length (rest st))%nat
           then iterate step fuel' st' else [])
        (step st)
      ++ [st]
  end.

(** All the ways [r] matches at [st], in the order in which the
    backtracking engine tries them: its match is the head of the list. *)
Fixpoint run (r : regex) (st : mstate) {struct r} : list mstate :=
  match r with
  | Eps => [st]
  | Class p =>
      match rest st with
      | c :: s' => if p c then [MState (Some c) s' (caps st)] else []
      | [] => []
      end
  | Bol => if at_line_start st then [st] else []
  | Cat r1 r2 => flat_map (run r2) (run r1 st)
  | Alt r1 r2 => run r1 st ++ run r2 st
  | Star r1 => iterate (run r1) (List.length (rest st)) st
  | Group n r1 => map (fun st' => set_cap n (captured st st') st') (run r1 st)
  | Ahead r1 =>
      match run r1 st with
      | [] => []
      | _ :: _ => [st]
      end
  end.

(** One match object: the offsets of its span and its groups. *)
Record rmatch : Type := RMatch {
  m_start : nat;
  m_end : nat;
  m_caps : list (nat * str)
}.

(** [re.finditer]: leftmost matches, each search resuming where the
    previous match ended.  [skip] counts the characters of the last match
    still to be passed over; [pos] is the offset of [s] in the text. *)
Fixpoint scan (r : regex) (pos : nat) (before : option ascii) (s : str)
    (skip : nat) {struct s} : list rmatch :=
  match skip with
  | S k =>
      match s with
      | [] => []
      | c :: s' => scan r (S pos) (Some c) s' k
      end
  | O =>
      match run r (MState before s []) with
      | st' :: _ =>
          let n := (List.length s - List.length (rest st'))%nat in
          RMatch pos (pos + n) (caps st') ::
            match s with
            | [] => []
            | c :: s' => scan r (S pos) (Some c) s' (pred n)
            end
      | [] =>
          match s with
          | [] => []
          | c :: s' => scan r (S pos) (Some c) s' 0
          end
      end
  end.

Definition finditer (r : regex) (content : str) : list rmatch :=
  scan r 0 None content 0.

Definition sp : regex := Class isspace.
Definition wd : regex := Class isword.
Definition not_brace_semi (c : ascii) : bool :=
  negb (Ascii.eqb c lbrace || Ascii.eqb c semicolon).

(** The verbose pattern of [_list_functions_in_file], piece by piece. *)
Definition pat_line_start : regex := Alt Bol (Chr newline).
Definition pat_storage : regex :=
  Star (Alt (Cat (Lit "static") (Plus sp))
       (Alt (Cat (Lit "extern") (Plus sp))
            (Cat (Lit "inline") (Plus sp)))).
Definition pat_return_type : regex :=
  Group 1 (Cat (Plus wd)
               (Alt (Cat (Star sp) (Cat (Plus (Chr star)) (Star sp)))
                    (Plus sp))).
Definition pat_name : regex := Group 2 (Plus wd).
Definition pat_params : regex := Group 3 (Star (Class not_brace_semi)).
Definition pat_close : regex :=
  Cat (Chr rparen) (Cat (Star sp) (Ahead (Chr lbrace))).

Definition signature_pattern : regex :=
  Cat pat_line_start
 (Cat (Star sp)
 (Cat pat_storage
 (Cat pat_return_type
 (Cat pat_name
 (Cat (Star sp)
 (Cat (Chr lparen)
 (Cat pat_params
      pat_close))))))).

(** The body of the [for match in matches] loop. *)
Definition signature_entry (m : rmatch) : str * str :=
  let function_name := strip (get_cap 2 (m_caps m)) in
  let params := strip (get_cap 3 (m_caps m)) in
  let signature :=
    if negb (str_eqb params [])
    then function_name ++ lparen :: params ++ [rparen]
    else function_name ++ [lparen; rparen] in
  (function_name, signature).

(** [_list_functions_in_file] once the file has been read. *)
Definition list_functions_in_content (content : str) (remove_comments : bool)
    : list (str * str) :=
  let content := if remove_comments then _remove_comments content
                 else content in
  map signature_entry (finditer signature_pattern content).

(* ================================================================== *)
(** ** The source tree and the Search Orchestrator *)

Inductive exn : Type :=
| FileNotFoundError
| UnicodeDecodeError
| PermissionError
| OSError.

Inductive result (A : Type) : Type :=
| Ok (a : A)
| Raise (e : exn).

Arguments Ok {A} a.
Arguments Raise {A} e.

Definition bind {A B : Type} (r : result A) (k : A -> result B) : result B :=
  match r with
  | Ok a => k a
  | Raise e => Raise e
  end.

Notation "x <- r ;; k" := (bind r (fun x => k))
  (at level 61, r at next level, right associativity).

(** [except (UnicodeDecodeError, PermissionError)] *)
Definition caught (e : exn) : bool :=
  match e with
  | UnicodeDecodeError | PermissionError => true
  | _ => false
  end.

(** The tree under [src_dir].  A file carries what
    [open(path, 'r', encoding='utf-8', errors='ignore').read()] gives: its
    text, or the exception raised.  The children of a directory are in the
    order in which the directory is listed.  Symbolic links are not
    modelled, and the tree does not change during a call. *)
#[local] Set Warnings "-register-all".

Inductive entry : Type :=
| File (name : str) (data : result str)
| Dir (name : str) (children : list entry).

Definition path := list str.

(** [os.walk(src_dir)], top-down: every directory with its entries. *)
Fixpoint walk_entry (parent : path) (e : entry) : list (path * list entry) :=
  match e with
  | File _ _ => []
  | Dir name children =>
      (parent ++ [name], children)
        :: flat_map (walk_entry (parent ++ [name])) children
  end.

Definition os_walk (tree : list entry) : list (path * list entry) :=
  ([], tree) :: flat_map (walk_entry []) tree.

(** The files listed in one directory. *)
Fixpoint files_of (dirpath : path) (children : list entry)
    : list (path * str * result str) :=
  match children with
  | [] => []
  | File name data :: children' =>
      (dirpath ++ [name], name, data) :: files_of dirpath children'
  | Dir _ _ :: children' => files_of dirpath children'
  end.

(** [Path.suffix] of a file name. *)
Fixpoint rfind_dot (s : str) (i : nat) (found : option nat) : option nat :=
  match s with
  | [] => found
  | c :: s' =>
      rfind_dot s' (S i) (if Ascii.eqb c dot then Some i else found)
  end.

Definition suffix (name : str) : str :=
  match rfind_dot name 0 None with
  | Some i =>
      if (0 <? i)%nat && (i <? List.length name - 1)%nat
      then skipn i name else []
  | None => []
  end.

Definition c_extensions : list str :=
  map s2l [".c"; ".cpp"; ".cc"; ".cxx"; ".h"; ".hpp"; ".hxx"]%string.

Definition is_source_name (name : str) : bool :=
  existsb (str_eqb (lower (suffix name))) c_extensions.

(** [_get_all_source_files]: [rglob] visits the directories in the order
    of [os.walk] and lists each one's entries. *)
Definition _get_all_source_files (tree : list entry)
    : list (path * result str) :=
  flat_map
    (fun '(dirpath, children) =>
       flat_map
         (fun '(p, name, data) =>
            if is_source_name name then [(p, data)] else [])
         (files_of dirpath children))
    (os_walk tree).

Definition _extract_from_file (data : result str) (function_name : str)
    (line_number : option Z) (remove_comments : bool) : result (option str) :=
  content <- data ;;
  Ok (_parse_function content function_name line_number remove_comments).

(** [range(a, b)] as indices, for [0 <= a]. *)
Definition zrange (a b : Z) : list nat :=
  map (fun k => (Z.to_nat a + k)%nat) (seq 0 (Z.to_nat (b - a))).

Definition _verify_line_number (data : result str) (function_name : str)
    (line_number : Z) : result bool :=
  content <- data ;;
  let lines := split newline content in
  let search_range :=
    zrange (Z.max 0 (line_number - 3))
           (Z.min (Z.of_nat (List.length lines)) (line_number + 3)) in
  Ok (existsb (fun i => _is_function_declaration lines i function_name)
              search_range).

(** The first loop of [_extract_from_directory].  A match keeps the data of
    its file, which [_verify_line_number] reads again. *)
Fixpoint collect_matches (files : list (path * result str))
    (function_name : str) (line_number : option Z) (remove_comments : bool)
    : result (list (path * result str * str)) :=
  match files with
  | [] => Ok []
  | (filepath, data) :: files' =>
      match _extract_from_file data function_name line_number
              remove_comments with
      | Ok r =>
          matches <- collect_matches files' function_name line_number
                       remove_comments ;;
          match r with
          | Some ((_ :: _) as code) => Ok ((filepath, data, code) :: matches)
          | _ => Ok matches
          end
      | Raise e =>
          if caught e
          then collect_matches files' function_name line_number
                 remove_comments
          else Raise e
      end
  end.

(** [for filepath, function_code in matches: if self._verify_line_number..] *)
Fixpoint first_verified (matches : list (path * result str * str))
    (function_name : str) (line_number : Z) : result (option str) :=
  match matches with
  | [] => Ok None
  | (_, data, function_code) :: matches' =>
      ok <- _verify_line_number data function_name line_number ;;
      if ok then Ok (Some function_code)
      else first_verified matches' function_name line_number
  end.

(** [if line_number:] is false for [None] and for [0]. *)
Definition truthy_line (line_number : option Z) : option Z :=
  match line_number with
  | Some ln => if (ln =? 0)%Z then None else Some ln
  | None => None
  end.

Definition disambiguate (matches : list (path * result str * str))
    (function_name : str) (line_number : option Z) : result (option str) :=
  match matches with
  | [] => Ok None
  | [(_, _, code)] => Ok (Some code)
  | (_, _, code) :: _ =>
      match truthy_line line_number with
      | Some ln =>
          r <- first_verified matches function_name ln ;;
          match r with
          | Some function_code => Ok (Some function_code)
          | None => Ok (Some code)
          end
      | None => Ok (Some code)
      end
  end.

Definition extract_from_files (files : list (path * result str))
    (function_name : str) (line_number : option Z) (remove_comments : bool)
    : result (option str) :=
  matches <- collect_matches files function_name line_number
               remove_comments ;;
  disambiguate matches function_name line_number.

Definition _extract_from_directory (tree : list entry) (function_name : str)
    (line_number : option Z) (remove_comments : bool) : result (option str) :=
  extract_from_files (_get_all_source_files tree) function_name line_number
    remove_comments.

(** The [for root, dirs, files in os.walk(..)] loop of [extract_function]:
    the first directory that lists a file called [file_name]. *)
Fixpoint find_in_dir (file_name : str) (children : list entry)
    : option (result str) :=
  match children with
  | [] => None
  | File name data :: children' =>
      if str_eqb name file_name then Some data
      else find_in_dir file_name children'
  | Dir _ _ :: children' => find_in_dir file_name children'
  end.

Fixpoint find_by_name (file_name : str) (dirs : list (path * list entry))
    : option (path * result str) :=
  match dirs with
  | [] => None
  | (dirpath, children) :: dirs' =>
      match find_in_dir file_name children with
      | Some data => Some (dirpath ++ [file_name], data)
      | None => find_by_name file_name dirs'
      end
  end.

(** [if file_name:] is false for [None] and for the empty string. *)
Definition truthy_name (file_name : option str) : option str :=
  match file_name with
  | Some ((_ :: _) as n) => Some n
  | _ => None
  end.

Definition extract_function (tree : list entry) (function_name : str)
    (file_name : option str) (line_number : option Z)
    (remove_comments : bool) : result (option str) :=
  match truthy_name file_name with
  | Some name =>
      match find_by_name name (os_walk tree) with
      | None => Raise FileNotFoundError
      | Some (_, data) =>
          _extract_from_file data function_name line_number remove_comments
      end
  | None =>
      _extract_from_directory tree function_name line_number remove_comments
  end.

Definition _list_functions_in_file (data : result str)
    (remove_comments : bool) : result (list (str * str)) :=
  content <- data ;;
  Ok (list_functions_in_content content remove_comments).

(** What [self.src_dir / file_name] designates: [file_name] is a relative
    path whose components are looked up from the root ([.] and empty
    components are dropped; [..] and absolute paths are not modelled). *)
Inductive lookup : Type :=
| Missing
| IsFile (data : result str)
| IsDir.

Fixpoint find_entry (name : str) (children : list entry) : option entry :=
  match children with
  | [] => None
  | e :: children' =>
      let n := match e with File n _ => n | Dir n _ => n end in
      if str_eqb n name then Some e else find_entry name children'
  end.

Fixpoint resolve (components : list str) (children : list entry) : lookup :=
  match components with
  | [] => IsDir
  | c :: cs =>
      match find_entry c children with
      | None => Missing
      | Some (File _ data) =>
          match cs with
          | [] => IsFile data
          | _ :: _ => Missing
          end
      | Some (Dir _ children') => resolve cs children'
      end
  end.

Definition components (file_name : str) : list str :=
  filter (fun c => negb (str_eqb c [] || str_eqb c [dot]))
         (split slash file_name).

Definition tag (filepath : path) (fs : list (str * str))
    : list (str * str * path) :=
  map (fun '(name, signature) => (name, signature, filepath)) fs.

(** The tree-wide loop of [list_all_functions]. *)
Fixpoint list_over (files : list (path * result str))
    (remove_comments : bool) : result (list (str * str * path)) :=
  match files with
  | [] => Ok []
  | (filepath, data) :: files' =>
      match _list_functions_in_file data remove_comments with
      | Ok file_functions =>
          functions <- list_over files' remove_comments ;;
          Ok (tag filepath file_functions ++ functions)
      | Raise e =>
          if caught e then list_over files' remove_comments else Raise e
      end
  end.

Definition list_all_functions (tree : list entry) (file_name : option str)
    (remove_comments : bool) : result (list (str * str * path)) :=
  match truthy_name file_name with
  | Some name =>
      match resolve (components name) tree with
      | Missing => Ok []
      | IsFile data =>
          file_functions <- _list_functions_in_file data remove_comments ;;
          Ok (tag (components name) file_functions)
      | IsDir => Raise OSError
      end
  | None => list_over (_get_all_source_files tree) remove_comments
  end.

(** The loop of [find_function_locations] over one file's lines. *)
Definition locations_in (filepath : path) (content : str)
    (function_name : str) : list (path * nat) :=
  let lines := readlines content in
  map (fun i => (filepath, (i + 1)%nat))
      (declaration_indices lines function_name 0 (List.length lines)).

Fixpoint locations_over (files : list (path * result str))
    (function_name : str) : result (list (path * nat)) :=
  match files with
  | [] => Ok []
  | (filepath, data) :: files' =>
      match data with
      | Ok content =>
          locations <- locations_over files' function_name ;;
          Ok (locations_in filepath content function_name ++ locations)
      | Raise e =>
          if caught e then locations_over files' function_name else Raise e
      end
  end.

Definition find_function_locations (tree : list entry) (function_name : str)
    : result (list (path * nat)) :=
  locations_over (_get_all_source_files tree) function_name.

(* ================================================================== *)
(** ** Sample inputs *)

Definition quoted (s : string) : str := dquote :: s2l s ++ [dquote].

(** [if (log("see foo(x)")) {] *)
Definition line_name_in_string : str :=
  s2l "if (log(" ++ quoted "see foo(x)" ++ s2l ")) {".

(** Two lines, the first one closed by a line comment. *)
Definition text_line_comment : str :=
  s2l "x = 1; // note" ++ newline :: s2l "y = 2;".

(** Two definitions of [f], on lines 1 and 4. *)
Definition text_two_candidates : str :=
  join_nl (map s2l ["int f(int x) {"; "  return x;"; "}";
                    "int f(long x) {"; "  return 0;"; "}"]%string).

(** A definition closed one brace too many, followed by another line. *)
Definition lines_overclosed : list str :=
  map s2l ["void f() {"; "}}"; "int x;"]%string.

(** A signature on two lines: name on the first, parameters on the next. *)
Definition lines_two_line_signature : list str :=
  map s2l ["static int foo"; "(int c)"; "{"; "  return c;"; "}"]%string.

(** A two-line signature whose second line holds the character ['f']. *)
Definition lines_two_line_char : list str :=
  map s2l ["int f"; "(int c) { return c == 'f'; }"]%string.

(** A two-line signature whose second line also calls [f]. *)
Definition lines_two_line_call : list str :=
  map s2l ["int f"; "(int c) { return f(c - 1); }"]%string.

(** A file whose line [n] (1-based) starts a definition of [bar]. *)
Definition file_bar_at (n : nat) (body : string) : str :=
  join_nl (repeat [] (n - 1)
           ++ map s2l ["int bar(int x) {"; body; "}"]%string).

(** Two files defining [bar], at line 10 and at line 40. *)
Definition tree_two_bars : list entry :=
  [File (s2l "a.c") (Ok (file_bar_at 10 "  return x;"));
   File (s2l "b.c") (Ok (file_bar_at 40 "  return x + 1;"))].

(** The matches that the tree-wide scan of [tree_two_bars] collects. *)
Definition matches_two_bars : list (path * result str * str) :=
  [([s2l "a.c"], Ok (file_bar_at 10 "  return x;"),
    join_nl (map s2l ["int bar(int x) {"; "  return x;"; "}"]%string));
   ([s2l "b.c"], Ok (file_bar_at 40 "  return x + 1;"),
    join_nl (map s2l ["int bar(int x) {"; "  return x + 1;"; "}"]%string))].

(** A file in a sub-directory, and a file that cannot be read. *)
Definition tree_nested : list entry :=
  [File (s2l "locked.c") (Raise PermissionError);
   Dir (s2l "lib") [File (s2l "util.c") (Ok (file_bar_at 2 "  return x;"))]].

(** Three definitions and one forward declaration. *)
Definition file_three_definitions : str :=
  join_nl (map s2l
    ["int add(int a, int b);";
     "";
     "static int add(int a, int b) {";
     "  return a + b;";
     "}";
     "";
     "char *name(void)";
     "{";
     "  return 0;";
     "}";
     "";
     "void run(int n) {";
     "  add(n, n);";
     "}"]%string).

(** A file and an unreadable file side by side. *)
Definition tree_locked : list entry :=
  [File (s2l "locked.c") (Raise PermissionError);
   File (s2l "util.c") (Ok (file_bar_at 2 "  return x;"))].

(** A definition whose body holds a closing brace in a block comment. *)
Definition lines_brace_in_comment : list str :=
  map s2l ["void f() {"; "  /* } */"; "  g();"; "}"]%string.

(* ================================================================== *)
(** ** Vocabulary of the properties *)

(** Cumulative brace depth of the first [k] lines of [tail], as the Brace
    Matcher computes it: the sum of the per-line counts. *)
Definition depth (tail : list str) (k : nat) : Z :=
  _count_braces_in_lines (firstn k tail).

(** The last character of a string, if any. *)
Definition last_char (s : str) : option ascii := hd_error (rev s).

(** Induction on trees, with the hypothesis for every child of a
    directory. *)
Section EntryInduction.

Variable P : entry -> Prop.
Hypothesis HFile : forall name data, P (File name data).
Hypothesis HDir :
  forall name children, Forall P children -> P (Dir name children).

Fixpoint entry_ind_nested (e : entry) : P e :=
  match e with
  | File name data => HFile name data
  | Dir name children =>
      HDir name children
        ((fix all (l : list entry) : Forall P l :=
            match l with
            | [] => Forall_nil P
            | x :: l' => Forall_cons x (entry_ind_nested x) (all l')
            end) children)
  end.

End EntryInduction.

(** A file called [name] with data [data] lies somewhere under the
    directory whose entries are [children]. *)
Inductive file_under (name : str) (data : result str)
    : list entry -> Prop :=
| file_here (children : list entry) :
    In (File name data) children -> file_under name data children
| file_below (children : list entry) (d : str) (sub : list entry) :
    In (Dir d sub) children ->
    file_under name data sub ->
    file_under name data children.




(** The text of a match and the data of its file. *)
Definition match_code (m : path * result str * str) : str := snd m.
Definition match_data (m : path * result str * str) : result str :=
  snd (fst m).

(** The file of a match holds a Boundary Detector hit for [name] on a
    1-based line between [lo] and [hi]. *)
Definition hit_between (name : str) (lo hi : Z)
    (m : path * result str * str) : Prop :=
  exists content i,
    match_data m = Ok content /\
    (i < List.length (split newline content))%nat /\
    _is_function_declaration (split newline content) i name = true /\
    (lo <= Z.of_nat i + 1 <= hi)%Z.

(** [os.walk] from a directory at [parent] whose entries are [children]. *)
Definition walk_dir (parent : path) (children : list entry)
    : list (path * list entry) :=
  (parent, children) :: flat_map (walk_entry parent) children.

(** The source files that one directory of the walk contributes. *)
Definition source_files_of (d : path * list entry)
    : list (path * result str) :=
  let '(dirpath, children) := d in
  flat_map
    (fun '(p, name, data) => if is_source_name name then [(p, data)] else [])
    (files_of dirpath children).



(** Every character class of [r] that consumes text lies within [Q]. *)
Fixpoint classes_sat (Q : ascii -> Prop) (r : regex) : Prop :=
  match r with
  | Eps | Bol | Ahead _ => True
  | Class p => forall c, p c = true -> Q c
  | Cat r1 r2 | Alt r1 r2 => classes_sat Q r1 /\ classes_sat Q r2
  | Star r1 | Group _ r1 => classes_sat Q r1
  end.

(** A lower bound on the number of characters that [r] consumes. *)
Fixpoint min_len (r : regex) : nat :=
  match r with
  | Eps | Bol | Ahead _ | Star _ => 0
  | Class _ => 1
  | Cat r1 r2 => min_len r1 + min_len r2
  | Alt r1 r2 => Nat.min (min_len r1) (min_len r2)
  | Group _ r1 => min_len r1
  end.

Fixpoint no_group (r : regex) : Prop :=
  match r with
  | Eps | Bol | Class _ => True
  | Cat r1 r2 | Alt r1 r2 => no_group r1 /\ no_group r2
  | Star r1 | Ahead r1 => no_group r1
  | Group _ _ => False
  end.

(** The matcher's position at offset [p] of [content]. *)
Definition state_at (content : str) (p : nat) : mstate :=
  MState (last_char (firstn p content)) (skipn p content) [].

(** [m] is the engine's match of [r] at offset [m_start m] of [content]. *)
Definition match_at (r : regex) (content : str) (m : rmatch) : Prop :=
  exists st' others,
    run r (state_at content (m_start m)) = st' :: others /\
    m_end m
    = (m_start m
       + (List.length (skipn (m_start m) content) - List.length (rest st')))%nat
    /\ m_caps m = caps st'.

(** The matches come in the order of the text and do not overlap. *)
Fixpoint ordered (lo : nat) (ms : list rmatch) : Prop :=
  match ms with
  | [] => True
  | m :: ms' =>
      (lo <= m_start m)%nat /\ (m_start m <= m_end m)%nat /\
      ordered (m_end m) ms'
  end.

(** The text that a match spans. *)
Definition span (content : str) (m : rmatch) : str :=
  firstn (m_end m - m_start m) (skipn (m_start m) content).

(** The inside of a string or character literal delimited by [q]: plain
    characters other than [q] and the backslash, and escape pairs. *)
Inductive literal_body (q : ascii) : str -> Prop :=
| body_end : literal_body q []
| body_char (c : ascii) (s : str) :
    c <> q -> c <> backslash -> literal_body q s -> literal_body q (c :: s)
| body_escape (c : ascii) (s : str) :
    literal_body q s -> literal_body q (backslash :: c :: s).

(** The variables of the loop of [_count_braces_in_text] once it has
    consumed exactly the prefix [pre]: [None] when the loop does not stand
    at the end of [pre] (a line comment ended it, or an escape pair or the
    two characters opening a comment straddle the cut), or when the last
    character is a slash in code, whose effect depends on what follows. *)
Fixpoint prefix_state (pre : str) (in_string in_char : bool)
    (string_char : option ascii) (count : Z) {struct pre}
    : option (bool * bool * option ascii * Z) :=
  match pre with
  | [] => Some (in_string, in_char, string_char, count)
  | char :: rest =>
      if (in_string || in_char) && Ascii.eqb char backslash then
        match rest with
        | [] => None
        | _ :: rest' => prefix_state rest' in_string in_char string_char count
        end
      else if is_quote char && negb in_char && negb in_string then
        prefix_state rest true in_char (Some char) count
      else if opt_eqb char string_char && in_string then
        prefix_state rest false in_char None count
      else if Ascii.eqb char squote && negb in_string && negb in_char then
        prefix_state rest in_string true string_char count
      else if Ascii.eqb char squote && in_char then
        prefix_state rest in_string false string_char count
      else if negb in_string && negb in_char then
        if Ascii.eqb char slash then
          match rest with
          | [] => None
          | next_char :: rest' =>
              if Ascii.eqb next_char slash then None
              else if Ascii.eqb next_char star then
                prefix_state rest' in_string in_char string_char count
              else
                prefix_state rest in_string in_char string_char
                  (bump char count)
          end
        else
          prefix_state rest in_string in_char string_char (bump char count)
      else
        prefix_state rest in_string in_char string_char count
  end.


(** Three definitions and one forward declaration; the second branch of
    [sign] opens with [else if]. *)
Definition file_else_if : str :=
  join_nl (map s2l
    ["int sign(int n);";
     "";
     "int sign(int n) {";
     "  if (n > 0) {";
     "    return 1;";
     "  }";
     "  else if (n < 0) {";
     "    return -1;";
     "  }";
     "  return 0;";
     "}";
     "";
     "int twice(int n) {";
     "  return 2 * n;";
     "}";
     "";
     "void run(void) {";
     "  sign(twice(1));";
     "}"]%string).

(** Three definitions and one forward declaration; two of the
    definitions have a return type of two words. *)
Definition file_two_word_types : str :=
  join_nl (map s2l
    ["unsigned int size(void);";
     "";
     "unsigned int size(void) {";
     "  return 0;";
     "}";
     "";
     "const char *name(void) {";
     "  return 0;";
     "}";
     "";
     "void run(void) {";
     "  size();";
     "}"]%string).




(* ================================================================== *)
(** ** Vocabulary of the further properties *)

(** Number of occurrences of a character in a text. *)
Definition count_char (c : ascii) (s : str) : Z :=
  Z.of_nat (List.length (filter (Ascii.eqb c) s)).

(** Text in which no quote and no slash occurs: no literal and no comment
    can start in it. *)
Definition plain (s : str) : bool :=
  negb (has_char dquote s || has_char squote s || has_char slash s).

(** An assignment of a string that holds both comment openers. *)
Definition text_url : str :=
  s2l "url = " ++ quoted "http://host/*path*/" ++ s2l "; n++;".

(** A statement, a block comment over two lines, a statement. *)
Definition text_block_comment : str :=
  s2l "a = 1; /* one" ++ newline :: s2l "two */ b = 2;".

(** A list of indices in strictly increasing order. *)
Fixpoint increasing (l : list nat) : Prop :=
  match l with
  | [] => True
  | x :: l' => (forall y, In y l' -> (x < y)%nat) /\ increasing l'
  end.

(** Two definitions of [f] on lines 1 and 5: line 3 is as close to one as
    to the other. *)
Definition text_tie : str :=
  join_nl (map s2l ["int f(int x) {"; "  return x;"; "}"; "";
                    "int f(long x) {"; "  return 0;"; "}"]%string).

(** The directory reached from [children] by the relative path [q] has
    the entries [ch]. *)
Inductive dir_at : path -> list entry -> list entry -> Prop :=
| dir_here (children : list entry) : dir_at [] children children
| dir_below (children : list entry) (d : str) (sub : list entry)
    (q : path) (ch : list entry) :
    In (Dir d sub) children ->
    dir_at q ch sub ->
    dir_at (d :: q) ch children.

(** The file of path [p] under the root, called [name], has data [data]. *)
Definition file_at (p : path) (name : str) (data : result str)
    (tree : list entry) : Prop :=
  exists q ch,
    dir_at q ch tree /\ In (File name data) ch /\ p = q ++ [name].

(** A tree with sources and other files on two levels. *)
Definition tree_mixed : list entry :=
  [File (s2l "README.md") (Ok (s2l "notes"));
   File (s2l "MAIN.C") (Ok (s2l "int main() {"));
   Dir (s2l "inc") [File (s2l "api.hpp") (Ok (s2l "int api();"));
                    File (s2l "Makefile") (Ok (s2l "all:"))]].

(** The stripped line of index [i], empty beyond the last line: all that
    the Boundary Detector reads of the lines. *)
Definition sline (lines : list str) (i : nat) : str :=
  if (i <? List.length lines)%nat then strip (nth i lines []) else [].

(** The lines of [split] as [readlines] gives them: each with its
    newline, the last one without, and dropped when empty. *)
Fixpoint with_newlines (ls : list str) : list str :=
  match ls with
  | [] => []
  | [l] => match l with [] => [] | _ :: _ => [l] end
  | l :: ls' => (l ++ [newline]) :: with_newlines ls'
  end.

Definition prepend_line (p : str) (ls : list str) : list str :=
  match ls with
  | [] => [p]
  | l :: ls' => (p ++ l) :: ls'
  end.

(** A file of the same name at the root and in a sub-directory. *)
Definition tree_same_name : list entry :=
  [Dir (s2l "old") [File (s2l "util.c") (Ok (s2l "int bar(int x) { return 0; }"))];
   File (s2l "util.c") (Ok (s2l "int bar(int x) { return 1; }"))].



(* ================================================================== *)
(** * Properties *)

(** ** Characters and strings *)

Lemma ascii_eqb_refl (c : ascii) : Ascii.eqb c c = true.
Proof. apply Ascii.eqb_eq. reflexivity. Qed.

Lemma str_eqb_eq (a b : str) : str_eqb a b = true <-> a = b.
Proof.
  revert b. induction a as [|x a IH]; intros [|y b]; simpl; split;
    try congruence; try reflexivity.
  - intros H. apply andb_true_iff in H as [Hx Hab].
    apply Ascii.eqb_eq in Hx. apply IH in Hab. congruence.
  - intros H. injection H as -> ->. rewrite ascii_eqb_refl. simpl.
    apply IH. reflexivity.
Qed.

Lemma lstrip_suffix (s : str) : exists w, s = w ++ lstrip s.
Proof.
  induction s as [|c s [w Hw]]; simpl.
  - exists []. reflexivity.
  - destruct (isspace c).
    + exists (c :: w). simpl. congruence.
    + exists []. reflexivity.
Qed.

Lemma lstrip_In (c : ascii) (s : str) : In c (lstrip s) -> In c s.
Proof.
  destruct (lstrip_suffix s) as [w Hw]. intros H. rewrite Hw.
  apply in_or_app. right. exact H.
Qed.

Lemma strip_In (c : ascii) (s : str) : In c (strip s) -> In c s.
Proof.
  unfold strip, rstrip. intros H.
  apply lstrip_In. apply in_rev. apply lstrip_In. apply in_rev in H. exact H.
Qed.

Lemma lstrip_nonspace (c : ascii) (s : str) :
  isspace c = false -> lstrip (c :: s) = c :: s.
Proof. intros H. simpl. rewrite H. reflexivity. Qed.

Lemma lstrip_snoc_nonspace (s : str) (c : ascii) :
  isspace c = false -> exists w, lstrip (s ++ [c]) = w ++ [c].
Proof.
  intros Hc. induction s as [|x s [w Hw]]; simpl.
  - rewrite Hc. exists []. reflexivity.
  - destruct (isspace x).
    + exists w. exact Hw.
    + exists (x :: s). reflexivity.
Qed.

(** Stripping keeps a leading character that is not a space. *)
Lemma strip_keeps_head (c : ascii) (s : str) :
  isspace c = false -> exists s', strip (c :: s) = c :: s'.
Proof.
  intros Hc. unfold strip, rstrip. rewrite (lstrip_nonspace c s Hc).
  simpl rev.
  destruct (lstrip_snoc_nonspace (rev s) c Hc) as [w Hw].
  rewrite Hw, rev_app_distr. simpl. exists (rev w). reflexivity.
Qed.

Lemma has_char_In (c : ascii) (s : str) : has_char c s = true <-> In c s.
Proof.
  unfold has_char. rewrite existsb_exists. split.
  - intros (x & Hx & E). apply Ascii.eqb_eq in E. subst. exact Hx.
  - intros H. exists c. split; [exact H | apply ascii_eqb_refl].
Qed.

Lemma has_char_strip (c : ascii) (s : str) :
  has_char c s = false -> has_char c (strip s) = false.
Proof.
  intros H. destruct (has_char c (strip s)) eqn:E; [|reflexivity].
  apply has_char_In, strip_In, has_char_In in E. congruence.
Qed.

(** ** Brace counting and comment stripping *)

(** C1 (the code departs from it): braces inside a block comment are
    meant to be ignored by [_count_braces_in_text], but the [/*] branch
    only steps over the two opening characters and scans the comment's
    body as code.  With the comment present the depth of the line is 1,
    with the comment absent it is 0. *)
Theorem count_braces_block_comment_brace :
  _count_braces_in_text (s2l "int x; /* { */") = 1%Z /\
  _count_braces_in_text (s2l "int x; ") = 0%Z.
Proof. split; reflexivity. Qed.

(** The closing brace in the comment ends the extraction of [f] two
    lines early. *)
Example extract_cut_short_by_comment :
  _extract_complete_function lines_brace_in_comment 0 (s2l "f")
  = s2l "void f() {" ++ newline :: s2l "  /* } */".
Proof. reflexivity. Qed.

Lemma ascii_eqb_neq (c d : ascii) : c <> d -> Ascii.eqb c d = false.
Proof.
  intros H. destruct (Ascii.eqb c d) eqn:E; [|reflexivity].
  apply Ascii.eqb_eq in E. contradiction.
Qed.

Lemma is_quote_cases (q : ascii) :
  is_quote q = true -> q = dquote \/ q = squote.
Proof.
  unfold is_quote. intros H. apply orb_true_iff in H as [H | H];
    apply Ascii.eqb_eq in H; [left | right]; exact H.
Qed.

(** The parts of C1 that hold.  Inside a literal opened by [q] nothing is
    counted, up to and including the closing [q]. *)
Lemma count_braces_inside_literal (q : ascii) (body post : str) (count : Z) :
  is_quote q = true ->
  literal_body q body ->
  count_braces_loop (body ++ q :: post) true false (Some q) count
  = count_braces_loop post false false None count.
Proof.
  intros Hq Hbody. induction Hbody as [|c s Hc Hb _ IH|c s _ IH].
  - cbn [app count_braces_loop orb negb andb opt_eqb].
    destruct (is_quote_cases q Hq) as [-> | ->]; reflexivity.
  - cbn [app count_braces_loop orb negb andb opt_eqb].
    rewrite (ascii_eqb_neq c backslash Hb), (ascii_eqb_neq c q Hc).
    rewrite !andb_false_r. cbn [andb]. exact IH.
  - cbn [app count_braces_loop orb andb]. rewrite ascii_eqb_refl. exact IH.
Qed.

(** A whole string or character literal met in code changes nothing:
    the count goes on after it as if the literal were absent. *)
Lemma count_braces_literal_skipped (q : ascii) (body post : str) (count : Z) :
  is_quote q = true ->
  literal_body q body ->
  count_braces_loop (q :: body ++ q :: post) false false None count
  = count_braces_loop post false false None count.
Proof.
  intros Hq Hbody. cbn [count_braces_loop orb andb negb]. rewrite Hq.
  apply (count_braces_inside_literal q body post count Hq Hbody).
Qed.

(** A line comment met in code ends the count, whatever follows. *)
Lemma count_braces_line_comment_skipped (tail : str) (count : Z) :
  count_braces_loop (slash :: slash :: tail) false false None count = count.
Proof. reflexivity. Qed.

(** String literals, character literals and line comments are ignored on
    the same line. *)
Example count_braces_literals_ignored :
  _count_braces_in_text (s2l "c = '{'; s = " ++ quoted "}}" ++ s2l "; // {")
  = 0%Z.
Proof. reflexivity. Qed.

(** C2 (the code departs from it): [_remove_comments] is meant to keep the
    number of newlines, but after a line comment it appends the newline
    that ends the comment and then resumes the scan at that same newline,
    which is appended a second time.  A text with one newline comes out
    with two. *)
Theorem remove_comments_line_comment_doubles_newline :
  count_newlines text_line_comment = 1%nat /\
  _remove_comments text_line_comment
    = s2l "x = 1; " ++ [newline; newline] ++ s2l "y = 2;" /\
  count_newlines (_remove_comments text_line_comment) = 2%nat.
Proof. repeat split; reflexivity. Qed.

(** The count of a text that starts with [pre] continues, after [pre],
    from the state in which the loop leaves [pre]. *)
Lemma prefix_state_app (n : nat) :
  forall pre in_string in_char string_char count st post,
    (List.length pre <= n)%nat ->
    prefix_state pre in_string in_char string_char count = Some st ->
    count_braces_loop (pre ++ post) in_string in_char string_char count
    = let '(s, c, sc, k) := st in count_braces_loop post s c sc k.
Proof.
  induction n as [|n IH];
    intros pre in_string in_char string_char count st post Hn Hst.
  - destruct pre; [|cbn in Hn; lia].
    cbn in Hst. injection Hst as <-. reflexivity.
  - destruct pre as [|char rest].
    { cbn in Hst. injection Hst as <-. reflexivity. }
    cbn [List.length] in Hn.
    assert (Hrest : forall s c sc k,
              prefix_state rest s c sc k = Some st ->
              count_braces_loop (rest ++ post) s c sc k
              = let '(s', c', sc', k') := st in
                count_braces_loop post s' c' sc' k')
      by (intros; apply IH; [lia | assumption]).
    cbn [prefix_state] in Hst. cbn [app count_braces_loop].
    destruct ((in_string || in_char) && Ascii.eqb char backslash).
    { destruct rest as [|c1 rest']; [discriminate|].
      cbn [app]. apply IH; [cbn [List.length] in Hn; lia | exact Hst]. }
    destruct (is_quote char && negb in_char && negb in_string);
      [apply Hrest, Hst|].
    destruct (opt_eqb char string_char && in_string); [apply Hrest, Hst|].
    destruct (Ascii.eqb char squote && negb in_string && negb in_char);
      [apply Hrest, Hst|].
    destruct (Ascii.eqb char squote && in_char); [apply Hrest, Hst|].
    destruct (negb in_string && negb in_char); [|apply Hrest, Hst].
    destruct (Ascii.eqb char slash).
    + destruct rest as [|next_char rest']; [discriminate|].
      cbn [app].
      destruct (Ascii.eqb next_char slash); [discriminate|].
      destruct (Ascii.eqb next_char star).
      * apply IH; [cbn [List.length] in Hn; lia | exact Hst].
      * apply (Hrest _ _ _ _ Hst).
    + destruct (rest ++ post); apply Hrest, Hst.
Qed.

(** The parts of C1 that hold, as C1 words them: where the loop stands
    in code after [pre], the count of the text is the same with a string
    or character literal present after [pre] and with it absent. *)
Lemma count_braces_same_without_literal
    (pre body post : str) (q : ascii) (count : Z) :
  prefix_state pre false false None 0 = Some (false, false, None, count) ->
  is_quote q = true ->
  literal_body q body ->
  _count_braces_in_text (pre ++ q :: body ++ q :: post)
  = _count_braces_in_text (pre ++ post).
Proof.
  intros Hpre Hq Hbody. unfold _count_braces_in_text.
  rewrite !(prefix_state_app (List.length pre) pre _ _ _ _ _ _
              (Nat.le_refl _) Hpre).
  apply count_braces_literal_skipped; assumption.
Qed.

(** Likewise for a line comment, which runs to the end of the line. *)
Lemma count_braces_same_without_line_comment
    (pre comment : str) (count : Z) :
  prefix_state pre false false None 0 = Some (false, false, None, count) ->
  _count_braces_in_text (pre ++ slash :: slash :: comment)
  = _count_braces_in_text pre.
Proof.
  intros Hpre. unfold _count_braces_in_text. transitivity count.
  - rewrite (prefix_state_app (List.length pre) pre _ _ _ _ _
               (slash :: slash :: comment) (Nat.le_refl _) Hpre).
    reflexivity.
  - rewrite <- (app_nil_r pre).
    rewrite (prefix_state_app (List.length pre) pre _ _ _ _ _ []
               (Nat.le_refl _) Hpre).
    reflexivity.
Qed.

Example count_braces_same_without_literal_example :
  _count_braces_in_text (s2l "if (x) { puts(" ++ quoted "}{{" ++ s2l "); }")
  = _count_braces_in_text (s2l "if (x) { puts(" ++ s2l "); }").
Proof.
  apply (count_braces_same_without_literal (s2l "if (x) { puts(")
           (s2l "}{{") (s2l "); }") dquote 1%Z); [reflexivity..|].
  repeat (apply body_char; [discriminate | discriminate |]).
  apply body_end.
Qed.

(** How C1 fails in general: after the two characters that open a block
    comment the count goes on in the code state, so the body of the
    comment is scanned as code. *)
Lemma count_braces_block_comment_scanned (rest : str) (count : Z) :
  count_braces_loop (slash :: star :: rest) false false None count
  = count_braces_loop rest false false None count.
Proof. reflexivity. Qed.

Lemma count_newlines_cons (c : ascii) (s : str) :
  count_newlines (c :: s)
  = ((if Ascii.eqb newline c then 1 else 0) + count_newlines s)%nat.
Proof.
  unfold count_newlines. cbn [filter].
  destruct (Ascii.eqb newline c); reflexivity.
Qed.

Lemma count_newlines_app (a b : str) :
  count_newlines (a ++ b) = (count_newlines a + count_newlines b)%nat.
Proof. unfold count_newlines. rewrite filter_app, length_app. reflexivity. Qed.

Lemma remove_comments_enters_line_comment (rest : str)
    (string_char : option ascii) :
  remove_comments_loop (slash :: slash :: rest) false false string_char
  = skip_line_comment
      (fun l => remove_comments_loop l false false string_char) rest.
Proof.
  cbn [remove_comments_loop].
  rewrite (andb_false_r (opt_eqb slash string_char)). reflexivity.
Qed.

Lemma remove_comments_enters_block_comment (rest : str)
    (string_char : option ascii) :
  remove_comments_loop (slash :: star :: rest) false false string_char
  = skip_block_comment
      (fun l => remove_comments_loop l false false string_char) rest.
Proof.
  cbn [remove_comments_loop].
  rewrite (andb_false_r (opt_eqb slash string_char)). reflexivity.
Qed.

(** How C2 fails in general: a line comment closed by a newline leaves
    two newlines where there was one. *)
Lemma remove_comments_line_comment (body post : str)
    (string_char : option ascii) :
  has_char newline body = false ->
  remove_comments_loop (slash :: slash :: body ++ newline :: post)
    false false string_char
  = newline :: newline :: remove_comments_loop post false false string_char.
Proof.
  intros Hbody.
  rewrite remove_comments_enters_line_comment.
  induction body as [|c body IH].
  - cbn [app skip_line_comment]. rewrite ascii_eqb_refl.
    cbn [remove_comments_loop orb andb negb].
    rewrite andb_false_r. reflexivity.
  - cbn [has_char existsb] in Hbody. apply orb_false_iff in Hbody as [Hc Hb].
    cbn [app skip_line_comment]. rewrite Ascii.eqb_sym, Hc.
    apply IH, Hb.
Qed.

(** The part of C2 that holds: a closed block comment is replaced by the
    newlines it contains, so the line count is kept across it. *)
Lemma remove_comments_block_comment (body post : str)
    (string_char : option ascii) :
  contains (body ++ [star]) [star; slash] = false ->
  remove_comments_loop (slash :: star :: body ++ star :: slash :: post)
    false false string_char
  = filter (Ascii.eqb newline) body
    ++ remove_comments_loop post false false string_char.
Proof.
  intros Hbody.
  rewrite remove_comments_enters_block_comment.
  induction body as [|c body IH].
  - reflexivity.
  - cbn [app contains] in Hbody. apply orb_false_iff in Hbody as [Hhere Hb].
    specialize (IH Hb). cbn [app skip_block_comment filter].
    destruct body as [|d body].
    + cbn [app] in IH |- *.
      replace (Ascii.eqb c star && Ascii.eqb star slash) with false
        by (rewrite andb_false_r; reflexivity).
      rewrite (Ascii.eqb_sym c newline).
      destruct (Ascii.eqb newline c) eqn:E;
        [apply Ascii.eqb_eq in E; subst c|];
        cbn [app]; rewrite IH; reflexivity.
    + cbn [app] in IH |- *. cbn [startswith app] in Hhere.
      rewrite andb_true_r in Hhere.
      rewrite (Ascii.eqb_sym c star), (Ascii.eqb_sym d slash), Hhere.
      rewrite (Ascii.eqb_sym c newline).
      destruct (Ascii.eqb newline c) eqn:E;
        [apply Ascii.eqb_eq in E; subst c|];
        cbn [app]; rewrite IH; reflexivity.
Qed.

Lemma remove_comments_last_char (c : ascii) (string_char : option ascii) :
  remove_comments_loop [c] false false string_char = [c].
Proof.
  cbn [remove_comments_loop orb andb negb]. rewrite !andb_true_r.
  rewrite andb_false_r.
  destruct (is_quote c); [reflexivity|].
  destruct (Ascii.eqb c squote); [reflexivity|].
  destruct (Ascii.eqb c slash); reflexivity.
Qed.

(** The other part of C2 that holds: a block comment that is never closed
    keeps its newlines too (its last character is copied to the output). *)
Lemma remove_comments_open_block_comment (body : str)
    (string_char : option ascii) :
  contains body [star; slash] = false ->
  count_newlines
    (remove_comments_loop (slash :: star :: body) false false string_char)
  = count_newlines body.
Proof.
  intros Hbody.
  rewrite remove_comments_enters_block_comment.
  induction body as [|c body IH]; [reflexivity|].
  cbn [contains] in Hbody. apply orb_false_iff in Hbody as [Hhere Hb].
  specialize (IH Hb). cbn [skip_block_comment].
  destruct body as [|d body].
  - rewrite remove_comments_last_char. reflexivity.
  - cbn [startswith] in Hhere. rewrite andb_true_r in Hhere.
    rewrite (Ascii.eqb_sym c star), (Ascii.eqb_sym d slash), Hhere.
    rewrite (count_newlines_cons c (d :: body)), (Ascii.eqb_sym c newline).
    destruct (Ascii.eqb newline c) eqn:E.
    + rewrite count_newlines_cons, ascii_eqb_refl, IH. reflexivity.
    + rewrite IH. reflexivity.
Qed.

Lemma skip_line_comment_newlines (resume : str -> str) (l : str) :
  (forall l', (List.length l' <= List.length l)%nat ->
              (count_newlines l' <= count_newlines (resume l'))%nat) ->
  (count_newlines l <= count_newlines (skip_line_comment resume l))%nat.
Proof.
  induction l as [|c l IH]; intros Hres; [cbn; lia|].
  cbn [skip_line_comment]. destruct (Ascii.eqb c newline) eqn:E.
  - rewrite (count_newlines_cons newline), ascii_eqb_refl. cbv iota.
    specialize (Hres (c :: l) (Nat.le_refl _)). lia.
  - rewrite count_newlines_cons, Ascii.eqb_sym, E. cbn [Nat.add].
    apply IH. intros l' Hl'. apply Hres. cbn [List.length]. lia.
Qed.

Lemma skip_block_comment_step (resume : str -> str) (c d : ascii)
    (l : str) :
  skip_block_comment resume (c :: d :: l)
  = if Ascii.eqb c star && Ascii.eqb d slash then resume l
    else if Ascii.eqb c newline
         then newline :: skip_block_comment resume (d :: l)
         else skip_block_comment resume (d :: l).
Proof. reflexivity. Qed.

Lemma skip_block_comment_newlines (resume : str -> str) (n : nat) :
  forall l,
    (List.length l <= n)%nat ->
    (forall l', (List.length l' <= List.length l)%nat ->
                (count_newlines l' <= count_newlines (resume l'))%nat) ->
    (count_newlines l <= count_newlines (skip_block_comment resume l))%nat.
Proof.
  induction n as [|n IH]; intros l Hn Hres.
  - destruct l; [|cbn in Hn; lia]. cbn [skip_block_comment]. apply Hres. lia.
  - destruct l as [|c [|d l]];
      [apply Hres; lia | apply Hres; lia|].
    rewrite skip_block_comment_step.
    destruct (Ascii.eqb c star && Ascii.eqb d slash) eqn:E.
    + apply andb_true_iff in E as [Ec Ed].
      apply Ascii.eqb_eq in Ec, Ed. subst c d.
      rewrite !count_newlines_cons.
      change (Ascii.eqb newline star) with false.
      change (Ascii.eqb newline slash) with false.
      cbn [Nat.add]. apply Hres. cbn [List.length]. lia.
    + assert (Hrec : (count_newlines (d :: l)
                      <= count_newlines (skip_block_comment resume (d :: l)))
                     %nat).
      { apply IH; [cbn [List.length] in Hn |- *; lia|].
        intros l' Hl'. apply Hres. cbn [List.length] in Hl' |- *. lia. }
      rewrite (count_newlines_cons c), (Ascii.eqb_sym newline c).
      destruct (Ascii.eqb c newline).
      * rewrite (count_newlines_cons newline), ascii_eqb_refl. cbv iota.
        lia.
      * cbn [Nat.add]. exact Hrec.
Qed.

(** Whatever the text, no newline is lost by [_remove_comments]: its
    output has at least as many as its input. *)
Lemma remove_comments_loop_newlines (n : nat) :
  forall content in_string in_char string_char,
    (List.length content <= n)%nat ->
    (count_newlines content
     <= count_newlines
          (remove_comments_loop content in_string in_char string_char))%nat.
Proof.
  induction n as [|n IH]; intros content in_string in_char string_char Hn.
  - destruct content; [cbn; lia | cbn in Hn; lia].
  - destruct content as [|char rest]; [cbn; lia|].
    cbn [List.length] in Hn.
    assert (Hrest : forall s c sc,
              (count_newlines rest
               <= count_newlines (remove_comments_loop rest s c sc))%nat)
      by (intros; apply IH; lia).
    assert (Hcons : forall s c sc,
              (count_newlines (char :: rest)
               <= count_newlines
                    (char :: remove_comments_loop rest s c sc))%nat).
    { intros s c sc. rewrite !count_newlines_cons. specialize (Hrest s c sc).
      lia. }
    cbn [remove_comments_loop].
    destruct ((in_string || in_char) && Ascii.eqb char backslash).
    { destruct rest as [|c1 rest']; [lia|].
      rewrite !(count_newlines_cons char), !(count_newlines_cons c1).
      cbn [List.length] in Hn.
      specialize (IH rest' in_string in_char string_char ltac:(lia)). lia. }
    destruct (is_quote char && negb in_char && negb in_string);
      [apply Hcons|].
    destruct (opt_eqb char string_char && in_string); [apply Hcons|].
    destruct (Ascii.eqb char squote && negb in_string && negb in_char);
      [apply Hcons|].
    destruct (Ascii.eqb char squote && in_char); [apply Hcons|].
    destruct (negb in_string && negb in_char); [|apply Hcons].
    destruct (Ascii.eqb char slash) eqn:Ec; [|apply Hcons].
    destruct rest as [|next_char rest']; [apply Hcons|].
    cbn [List.length] in Hn.
    assert (Hres : forall l',
              (List.length l' <= List.length rest')%nat ->
              (count_newlines l'
               <= count_newlines
                    (remove_comments_loop l' in_string in_char string_char))
              %nat)
      by (intros l' Hl'; apply IH; lia).
    apply Ascii.eqb_eq in Ec. subst char.
    destruct (Ascii.eqb next_char slash) eqn:E1.
    { apply Ascii.eqb_eq in E1. subst next_char.
      rewrite !count_newlines_cons.
      change (Ascii.eqb newline slash) with false. cbn [Nat.add].
      apply skip_line_comment_newlines. exact Hres. }
    destruct (Ascii.eqb next_char star) eqn:E2; [|apply Hcons].
    apply Ascii.eqb_eq in E2. subst next_char.
    rewrite !count_newlines_cons.
    change (Ascii.eqb newline slash) with false.
    change (Ascii.eqb newline star) with false. cbn [Nat.add].
    apply (skip_block_comment_newlines _ (List.length rest')); [lia|].
    exact Hres.
Qed.

Lemma remove_comments_keeps_newlines (content : str) :
  (count_newlines content <= count_newlines (_remove_comments content))%nat.
Proof.
  apply (remove_comments_loop_newlines (List.length content)). lia.
Qed.

(** ** Function Boundary Detector *)

(** C4 (the code departs from it): a name that occurs only inside a string
    literal must be rejected wherever it stands in the string, but
    [_is_inside_string_or_macro] only looks for the name directly after a
    quote character.  On the line [if (log("see foo(x)")) {] the name
    [foo] is found by the pattern, is not seen as inside a string, and the
    line is accepted as the start of a definition of [foo]. *)
Theorem is_function_declaration_accepts_name_in_string :
  re_search_call (s2l "foo") line_name_in_string = true /\
  _is_inside_string_or_macro line_name_in_string (s2l "foo") = false /\
  _is_function_declaration [line_name_in_string] 0 (s2l "foo") = true.
Proof. repeat split; reflexivity. Qed.

Lemma inside_directive (line function_name : str) :
  startswith (strip line) [hash] = true ->
  _is_inside_string_or_macro line function_name = true.
Proof.
  intros H. unfold _is_inside_string_or_macro. rewrite H.
  destruct (_ || _); reflexivity.
Qed.

Lemma startswith_hash (s : str) :
  startswith s [hash] = true -> exists s', s = hash :: s'.
Proof.
  destruct s as [|c s]; [discriminate|].
  cbn [startswith]. intros H. apply andb_true_iff in H as [H _].
  apply Ascii.eqb_eq in H. subst. exists s. reflexivity.
Qed.

(** The part of C4 that holds: a preprocessor directive is never accepted,
    whatever the name and whatever the next line. *)
Lemma directive_line_rejected (lines : list str) (i : nat) (name : str) :
  startswith (strip (nth i lines [])) [hash] = true ->
  _is_function_declaration lines i name = false.
Proof.
  intros H. unfold _is_function_declaration.
  destruct (i <? List.length lines)%nat eqn:Hi.
  2:{ reflexivity. }
  destruct (startswith_hash _ H) as [s' Hs]. rewrite Hs.
  assert (Hin : forall l, _is_inside_string_or_macro (hash :: l) name = true).
  { intros l. apply inside_directive.
    destruct (strip_keeps_head hash l eq_refl) as [l' ->].
    simpl. reflexivity. }
  rewrite (Hin s'). simpl negb. rewrite andb_false_r.
  destruct (str_eqb _ _ || _); [reflexivity|].
  change ((hash :: s') ++ space :: ?n) with (hash :: (s' ++ space :: n)).
  rewrite Hin. simpl negb. rewrite andb_false_r. simpl.
  destruct (_ && _); reflexivity.
Qed.

Lemma startswith_app (a b : str) : startswith (a ++ b) a = true.
Proof.
  induction a as [|x a IH]; cbn [startswith app]; [reflexivity|].
  rewrite ascii_eqb_refl. exact IH.
Qed.

Lemma contains_here (s sub : str) :
  startswith s sub = true -> contains s sub = true.
Proof. intros H. destruct s; cbn [contains]; rewrite H; reflexivity. Qed.

Lemma contains_skip (pre s sub : str) :
  contains s sub = true -> contains (pre ++ s) sub = true.
Proof.
  intros H. induction pre as [|c pre IH]; [exact H|].
  cbn [contains app]. rewrite IH. apply orb_true_r.
Qed.

(** The other part of C4 that holds: a name directly after a quote is
    seen as inside a string. *)
Lemma inside_string_after_quote (pre post name : str) :
  _is_inside_string_or_macro (pre ++ dquote :: name ++ post) name = true.
Proof.
  unfold _is_inside_string_or_macro.
  rewrite contains_skip; [reflexivity|].
  apply contains_here.
  change (dquote :: name ++ post) with ((dquote :: name) ++ post).
  apply startswith_app.
Qed.

(** ** Closest candidate within one file *)

Lemma declaration_indices_In (lines : list str) (name : str) (n i x : nat) :
  In x (declaration_indices lines name i n) <->
  (i <= x < i + n)%nat /\ _is_function_declaration lines x name = true.
Proof.
  revert i. induction n as [|n IH]; intros i; simpl.
  - split; [tauto | lia].
  - destruct (_is_function_declaration lines i name) eqn:E; simpl;
      rewrite IH; split.
    + intros [<- | [Hr Hd]]; split; try lia; assumption.
    + intros [Hr Hd]. destruct (Nat.eq_dec i x) as [->|Hne]; [left|right].
      * reflexivity.
      * split; [lia | exact Hd].
    + intros [Hr Hd]. split; [lia | exact Hd].
    + intros [Hr Hd]. split; [|exact Hd].
      destruct (Nat.eq_dec i x) as [->|Hne]; [congruence | lia].
Qed.

Lemma min_by_In (key : nat -> Z) (l : list nat) (b : nat) :
  In (min_by key b l) (b :: l).
Proof.
  revert b. induction l as [|x l IH]; intros b; simpl.
  - left. reflexivity.
  - destruct (key x <? key b)%Z.
    + right. apply IH.
    + destruct (IH b) as [H | H]; [left | right; right]; assumption.
Qed.

Lemma min_by_least (key : nat -> Z) (l : list nat) (b x : nat) :
  In x (b :: l) -> (key (min_by key b l) <= key x)%Z.
Proof.
  revert b x. induction l as [|y l IH]; intros b x; simpl.
  - intros [<- | []]. lia.
  - destruct (key y <? key b)%Z eqn:E.
    + apply Z.ltb_lt in E. intros [<- | [<- | H]].
      * specialize (IH y y (or_introl eq_refl)). lia.
      * apply IH. left. reflexivity.
      * apply IH. right. exact H.
    + apply Z.ltb_ge in E. intros [<- | [<- | H]].
      * apply IH. left. reflexivity.
      * specialize (IH b b (or_introl eq_refl)). lia.
      * apply IH. right. exact H.
Qed.

(** C10: with a line number and at least one candidate start among the
    lines that [_parse_function] parses (the lines of the content, or of
    the content without its comments when their removal is asked), the
    function extracts from a candidate [best] whose 1-based line
    [best + 1] is at the least absolute distance from the given line
    number among all candidates, however large that distance is; it
    never answers "not found".  Without comment removal the lines are
    those of the content itself. *)
Theorem parse_function_closest_candidate
    (content function_name : str) (line_number : Z) (remove_comments : bool) :
  let lines :=
    split newline
      (if remove_comments then _remove_comments content else content) in
  (exists i, (i < List.length lines)%nat /\
             _is_function_declaration lines i function_name = true) ->
  exists best,
    (best < List.length lines)%nat /\
    _is_function_declaration lines best function_name = true /\
    (forall m, (m < List.length lines)%nat ->
               _is_function_declaration lines m function_name = true ->
               (Z.abs (Z.of_nat best + 1 - line_number)
                <= Z.abs (Z.of_nat m + 1 - line_number))%Z) /\
    _parse_function content function_name (Some line_number) remove_comments
    = Some (_extract_complete_function lines best function_name) /\
    (remove_comments = false -> lines = split newline content).
Proof.
  intros lines [i [Hi Hd]].
  unfold _parse_function. fold lines.
  pose proof (declaration_indices_In lines function_name
                (List.length lines) 0) as HIn.
  destruct (declaration_indices lines function_name 0 (List.length lines))
    as [|first others] eqn:E.
  - exfalso. apply (proj2 (HIn i)). split; [lia | exact Hd].
  - exists (min_by (line_distance line_number) first others).
    pose proof (min_by_In (line_distance line_number) others first) as Hb.
    apply HIn in Hb. destruct Hb as [Hr Hbd].
    split; [lia|]. split; [exact Hbd|]. split; [|split].
    + intros m Hm Hmd.
      assert (Hin : In m (first :: others))
        by (apply HIn; split; [lia | exact Hmd]).
      pose proof (min_by_least (line_distance line_number) others first m
                    Hin) as Hleast.
      unfold line_distance in Hleast at 1 3. exact Hleast.
    + reflexivity.
    + intros ->. reflexivity.
Qed.

(** On [text_two_candidates], whose candidates are on lines 1 and 4, the
    line number 1000 selects the definition of line 4, 996 lines away. *)
Lemma parse_function_closest_candidate_witness :
  _parse_function text_two_candidates (s2l "f") (Some 1000%Z) false
  = Some (join_nl (map s2l ["int f(long x) {"; "  return 0;"; "}"]%string)).
Proof.
  destruct (parse_function_closest_candidate text_two_candidates (s2l "f")
              1000%Z false) as (best & Hlt & Hd & Hmin & Hres & _).
  - exists 0%nat. split; [vm_compute; lia | reflexivity].
  - rewrite Hres.
    assert (H3 : (Z.abs (Z.of_nat best + 1 - 1000)
                  <= Z.abs (Z.of_nat 3 + 1 - 1000))%Z)
      by (apply Hmin; [vm_compute; lia | reflexivity]).
    assert (Hb : (best < 6)%nat) by exact Hlt.
    assert (Hcases : best = 3%nat \/ best = 4%nat \/ best = 5%nat) by lia.
    destruct Hcases as [-> | [-> | ->]];
      [reflexivity | vm_compute in Hd; discriminate ..].
Defined.

(** ** Brace Matcher *)

Lemma count_braces_in_lines_cons (x : str) (l : list str) :
  _count_braces_in_lines (x :: l)
  = (_count_braces_in_text x + _count_braces_in_lines l)%Z.
Proof. reflexivity. Qed.

Lemma count_braces_in_lines_app (l1 l2 : list str) :
  _count_braces_in_lines (l1 ++ l2)
  = (_count_braces_in_lines l1 + _count_braces_in_lines l2)%Z.
Proof.
  induction l1 as [|x l1 IH]; [reflexivity|].
  cbn [app]. rewrite !count_braces_in_lines_cons, IH. lia.
Qed.

Lemma firstn_add {A : Type} (a n : nat) (l : list A) :
  firstn (a + n) l = firstn a l ++ firstn n (skipn a l).
Proof.
  revert l. induction a as [|a IH]; intros l; [reflexivity|].
  destruct l as [|x l]; cbn [Nat.add firstn skipn app].
  - rewrite firstn_nil. reflexivity.
  - rewrite IH. reflexivity.
Qed.

Lemma depth_add (tail : list str) (a n : nat) :
  depth tail (a + n)
  = (depth tail a + _count_braces_in_lines (firstn n (skipn a tail)))%Z.
Proof.
  unfold depth. rewrite firstn_add. apply count_braces_in_lines_app.
Qed.

Lemma find_brace_none (l : list str) :
  (forall j, (j < List.length l)%nat -> has_char lbrace (nth j l []) = false) ->
  find_brace l = (l, [], false).
Proof.
  induction l as [|x l IH]; intros H; [reflexivity|].
  cbn [find_brace]. pose proof (H 0%nat ltac:(simpl; lia)) as H0.
  cbn [nth] in H0. rewrite H0.
  rewrite IH; [reflexivity|].
  intros j Hj. apply (H (S j)). simpl. lia.
Qed.

Lemma find_brace_at (l : list str) (b : nat) :
  (b < List.length l)%nat ->
  has_char lbrace (nth b l []) = true ->
  (forall j, (j < b)%nat -> has_char lbrace (nth j l []) = false) ->
  find_brace l = (firstn (S b) l, skipn (S b) l, true).
Proof.
  revert b. induction l as [|x l IH]; intros b Hb Hx Hpre.
  - simpl in Hb. lia.
  - cbn [find_brace]. destruct b as [|b].
    + simpl in Hx. rewrite Hx. reflexivity.
    + pose proof (Hpre 0%nat ltac:(lia)) as H0. cbn [nth] in H0.
      rewrite H0.
      rewrite (IH b); [reflexivity | simpl in Hb; lia | exact Hx |].
      intros j Hj. apply (Hpre (S j)). lia.
Qed.

Lemma match_braces_nonpos (rest : list str) (c : Z) :
  (c <= 0)%Z -> match_braces rest c = [].
Proof.
  intros Hc. destruct rest as [|y rest]; [reflexivity|].
  cbn [match_braces]. destruct (0 <? c)%Z eqn:E; [|reflexivity].
  apply Z.ltb_lt in E. lia.
Qed.

Lemma count_lines_firstn_S (y : str) (rest : list str) (j : nat) :
  _count_braces_in_lines (firstn (S j) (y :: rest))
  = (_count_braces_in_text y + _count_braces_in_lines (firstn j rest))%Z.
Proof. reflexivity. Qed.

Lemma count_lines_firstn_0 (rest : list str) :
  _count_braces_in_lines (firstn 0 rest) = 0%Z.
Proof. reflexivity. Qed.

Lemma match_braces_stop (rest : list str) (c : Z) (k : nat) :
  (0 < c)%Z ->
  (k < List.length rest)%nat ->
  (forall j, (j < k)%nat ->
             (0 < c + _count_braces_in_lines (firstn (S j) rest))%Z) ->
  (c + _count_braces_in_lines (firstn (S k) rest) <= 0)%Z ->
  match_braces rest c = firstn (S k) rest.
Proof.
  revert c k. induction rest as [|y rest IH]; intros c k Hc Hk Hpos Hstop.
  - simpl in Hk. lia.
  - cbn [match_braces]. apply Z.ltb_lt in Hc as Hc'. rewrite Hc'.
    rewrite count_lines_firstn_S in Hstop.
    destruct k as [|k].
    + rewrite count_lines_firstn_0 in Hstop.
      destruct (_ =? 0)%Z eqn:E; [reflexivity|].
      rewrite match_braces_nonpos by lia. reflexivity.
    + pose proof (Hpos 0%nat ltac:(lia)) as H0.
      rewrite count_lines_firstn_S, count_lines_firstn_0 in H0.
      destruct (_ =? 0)%Z eqn:E; [apply Z.eqb_eq in E; lia|].
      change (firstn (S (S k)) (y :: rest)) with (y :: firstn (S k) rest).
      f_equal.
      apply IH.
      * lia.
      * simpl in Hk. lia.
      * intros j Hj. specialize (Hpos (S j) ltac:(lia)).
        rewrite count_lines_firstn_S in Hpos. lia.
      * lia.
Qed.

Lemma match_braces_all (rest : list str) (c : Z) :
  (0 < c)%Z ->
  (forall j, (j < List.length rest)%nat ->
             (0 < c + _count_braces_in_lines (firstn (S j) rest))%Z) ->
  match_braces rest c = rest.
Proof.
  revert c. induction rest as [|y rest IH]; intros c Hc Hpos;
    [reflexivity|].
  cbn [match_braces]. apply Z.ltb_lt in Hc as Hc'. rewrite Hc'.
  pose proof (Hpos 0%nat ltac:(simpl; lia)) as H0.
  rewrite count_lines_firstn_S, count_lines_firstn_0 in H0.
  destruct (_ =? 0)%Z eqn:E; [apply Z.eqb_eq in E; lia|].
  f_equal. apply IH; [lia|].
  intros j Hj. specialize (Hpos (S j) ltac:(simpl; lia)).
  rewrite count_lines_firstn_S in Hpos. lia.
Qed.

(** C5, as the code has it: let [tail] be the lines from the start index
    on.  If no line of [tail] contains a [{] character, the whole of
    [tail] is returned.  Otherwise let [b] be the first line containing
    one: the result runs through the first line [e >= b] at which the
    cumulative depth is zero OR NEGATIVE (the loop guard is
    [brace_count > 0]), and through the last line when the depth stays
    positive to the end.  The function is total: no input raises. *)
Theorem extract_complete_function_spec
    (lines : list str) (start_idx : nat) (function_name : str) :
  let tail := skipn start_idx lines in
  let result := _extract_complete_function lines start_idx function_name in
  ((forall j, (j < List.length tail)%nat ->
              has_char lbrace (nth j tail []) = false) ->
   result = join_nl tail)
  /\
  (forall b,
     (b < List.length tail)%nat ->
     has_char lbrace (nth b tail []) = true ->
     (forall j, (j < b)%nat -> has_char lbrace (nth j tail []) = false) ->
     (forall e,
        (b <= e < List.length tail)%nat ->
        (depth tail (S e) <= 0)%Z ->
        (forall j, (b <= j < e)%nat -> (0 < depth tail (S j))%Z) ->
        result = join_nl (firstn (S e) tail))
     /\
     ((forall j, (b <= j < List.length tail)%nat ->
                 (0 < depth tail (S j))%Z) ->
      result = join_nl tail)).
Proof.
  intros tail result. subst result. unfold _extract_complete_function.
  fold tail. split.
  - intros Hnone. rewrite (find_brace_none tail Hnone). reflexivity.
  - intros b Hb Hx Hpre. rewrite (find_brace_at tail b Hb Hx Hpre).
    cbn [negb]. fold (depth tail (S b)).
    assert (Hlen : List.length (skipn (S b) tail)
                   = (List.length tail - S b)%nat) by apply length_skipn.
    assert (Hd : forall n, (depth tail (S b)
                   + _count_braces_in_lines (firstn n (skipn (S b) tail)))%Z
                 = depth tail (S b + n)).
    { intros n. symmetry. apply depth_add. }
    split.
    + intros e He Hstop Hpos.
      destruct (Nat.eq_dec e b) as [->|Hne].
      * rewrite match_braces_nonpos by exact Hstop.
        rewrite app_nil_r. reflexivity.
      * rewrite (match_braces_stop _ _ (e - S b)).
        -- rewrite <- firstn_add. do 2 f_equal. lia.
        -- apply (Hpos b). lia.
        -- lia.
        -- intros j Hj. rewrite Hd.
           replace (S b + S j)%nat with (S (S b + j)) by lia.
           apply Hpos. lia.
        -- rewrite Hd. replace (S b + S (e - S b))%nat with (S e) by lia.
           exact Hstop.
    + intros Hpos. rewrite match_braces_all.
      * rewrite firstn_skipn. reflexivity.
      * apply (Hpos b). lia.
      * intros j Hj. rewrite Hd.
        replace (S b + S j)%nat with (S (S b + j)) by lia.
        apply Hpos. lia.
Qed.

Lemma extract_complete_function_spec_witness :
  _extract_complete_function lines_overclosed 0 (s2l "f")
  = join_nl (firstn 2 lines_overclosed).
Proof.
  destruct (extract_complete_function_spec lines_overclosed 0 (s2l "f"))
    as [_ H].
  destruct (H 0%nat) as [Hstop _].
  - simpl. lia.
  - reflexivity.
  - intros j Hj. lia.
  - apply (Hstop 1%nat).
    + simpl. lia.
    + vm_compute. discriminate.
    + intros j Hj. assert (j = 0%nat) by lia. subst j. reflexivity.
Defined.

(** C5 as stated fails: in [lines_overclosed] the depth is 1 after the
    first line and -1 after the second and the third, so it never returns
    to exactly zero; yet the result stops at the second line instead of
    running through the last one. *)
Lemma extract_complete_function_stops_below_zero :
  (forall k, (1 <= k <= 3)%nat -> depth lines_overclosed k <> 0%Z) /\
  _extract_complete_function lines_overclosed 0 (s2l "f")
  = s2l "void f() {" ++ newline :: s2l "}}" /\
  _extract_complete_function lines_overclosed 0 (s2l "f")
  <> join_nl lines_overclosed.
Proof.
  split; [|split].
  - intros k Hk.
    assert (k = 1 \/ k = 2 \/ k = 3)%nat as [-> | [-> | ->]] by lia;
      vm_compute; discriminate.
  - reflexivity.
  - vm_compute. discriminate.
Qed.

(** ** Two-line signatures *)

Lemma spaces_then_lparen_In (s : str) :
  spaces_then_lparen s = true -> In lparen s.
Proof.
  induction s as [|c s IH]; cbn [spaces_then_lparen]; [discriminate|].
  destruct (isspace c).
  - intros H. right. apply IH, H.
  - intros H. apply Ascii.eqb_eq in H. left. exact H.
Qed.

Lemma drop_prefix_Some (p s r : str) : drop_prefix p s = Some r -> s = p ++ r.
Proof.
  revert s. induction p as [|x p IH]; intros s; cbn [drop_prefix].
  - intros H. injection H as ->. reflexivity.
  - destruct s as [|y s]; [discriminate|].
    destruct (Ascii.eqb x y) eqn:E; [|discriminate].
    apply Ascii.eqb_eq in E. subst y. intros H. apply IH in H. subst s.
    reflexivity.
Qed.

Lemma drop_prefix_app (p r : str) : drop_prefix p (p ++ r) = Some r.
Proof.
  induction p as [|x p IH]; cbn [drop_prefix app]; [reflexivity|].
  rewrite ascii_eqb_refl. exact IH.
Qed.

Lemma match_here_In (name : str) (p : option ascii) (s : str) :
  match_here name p s = true -> In lparen s.
Proof.
  unfold match_here. intros H. apply andb_true_iff in H as [_ H].
  destruct (drop_prefix name s) as [r|] eqn:E; [|discriminate].
  apply drop_prefix_Some in E. subst s.
  apply in_or_app. right. apply spaces_then_lparen_In, H.
Qed.

(** The pattern cannot match in a text without an opening parenthesis. *)
Lemma search_needs_lparen (name : str) (s : str) (p : option ascii) :
  has_char lparen s = false -> search_from name p s = false.
Proof.
  intros Hno. destruct (search_from name p s) eqn:E; [|reflexivity].
  exfalso. assert (Hin : In lparen s).
  { clear Hno. revert p E. induction s as [|c s IH]; intros p;
      cbn [search_from]; intros E; apply orb_true_iff in E as [E | E].
    - apply match_here_In in E. exact E.
    - discriminate.
    - apply match_here_In in E. exact E.
    - right. apply (IH (Some c)), E. }
  apply has_char_In in Hin. congruence.
Qed.

Lemma search_from_here (name : str) (p : option ascii) (s : str) :
  match_here name p s = true -> search_from name p s = true.
Proof. intros H. destruct s; cbn [search_from]; rewrite H; reflexivity. Qed.

(** A match after a prefix [pre] is found from the start of [pre]. *)
Lemma search_from_skip (name pre s : str) (p : option ascii) :
  match_here name (match last_char pre with Some c => Some c | None => p end)
    s = true ->
  search_from name p (pre ++ s) = true.
Proof.
  revert p. induction pre as [|c pre IH]; intros p H.
  - apply search_from_here. exact H.
  - cbn [app search_from]. rewrite (IH (Some c)); [apply orb_true_r|].
    unfold last_char in *. cbn [rev] in H.
    destruct (rev pre) as [|d r]; exact H.
Qed.

(** C6, as the code has it: let the stripped line [N] consist of some
    text [rt] followed by the function name, the name beginning a word
    there; let line [N] hold no parenthesis and not end with a semicolon,
    and let the stripped line [N+1] begin with the opening parenthesis.
    Then line [N] is accepted provided the guard
    [_is_inside_string_or_macro] does not fire on the two stripped lines
    joined by a space, whatever else line [N+1] holds; and line [N+1] is
    rejected provided the pattern does not match inside line [N+1]
    itself, whatever the guard says. *)
Theorem two_line_signature_detected
    (lines : list str) (N : nat) (function_name rt next : str)
    (c0 : ascii) (name' : str) :
  (S N < List.length lines)%nat ->
  strip (nth N lines []) = rt ++ function_name ->
  function_name = c0 :: name' ->
  isword c0 = true ->
  isword_opt (last_char rt) = false ->
  has_char lparen (nth N lines []) = false ->
  endswith (strip (nth N lines [])) [semicolon] = false ->
  strip (nth (S N) lines []) = lparen :: next ->
  (_is_inside_string_or_macro
     (strip (nth N lines []) ++ space :: strip (nth (S N) lines []))
     function_name = false ->
   _is_function_declaration lines N function_name = true)
  /\
  (re_search_call function_name (strip (nth (S N) lines [])) = false ->
   _is_function_declaration lines (S N) function_name = false).
Proof.
  intros Hlen Hcur Hname Hw Hrt Hno Hsemi Hnext. split.
  - intros Hguard. unfold _is_function_declaration.
    assert (HN : (N <? List.length lines)%nat = true)
      by (apply Nat.ltb_lt; lia).
    rewrite HN. rewrite Hsemi.
    assert (Hne : str_eqb (strip (nth N lines [])) [] = false).
    { rewrite Hcur, Hname. destruct rt; reflexivity. }
    rewrite Hne. cbn [orb].
    unfold re_search_call at 1.
    rewrite (search_needs_lparen _ _ _ (has_char_strip _ _ Hno)).
    cbn [andb].
    assert (HN1 : (N + 1 <? List.length lines)%nat = true)
      by (apply Nat.ltb_lt; lia).
    rewrite HN1, (has_char_strip _ _ Hno). cbn [negb andb].
    replace (N + 1)%nat with (S N) by lia.
    rewrite Hguard. cbn [negb]. rewrite !andb_true_r.
    assert (Hfound : re_search_call function_name
                       (strip (nth N lines []) ++ space
                          :: strip (nth (S N) lines [])) = true).
    { unfold re_search_call. rewrite Hcur, Hnext, <- app_assoc.
      apply search_from_skip. unfold match_here.
      rewrite drop_prefix_app. cbn [spaces_then_lparen].
      change (isspace space) with true. cbn iota.
      rewrite ascii_eqb_refl, andb_true_r.
      unfold word_boundary. rewrite Hname. cbn [app hd_error isword_opt].
      rewrite Hw.
      destruct (last_char rt) as [c|]; cbn [isword_opt] in Hrt |- *.
      - rewrite Hrt. reflexivity.
      - reflexivity. }
    rewrite Hfound. reflexivity.
  - intros Hsearch. unfold _is_function_declaration.
    assert (HN : (S N <? List.length lines)%nat = true)
      by (apply Nat.ltb_lt; lia).
    rewrite HN, Hsearch. cbn [andb].
    rewrite Hnext at 3. cbn [has_char existsb]. rewrite ascii_eqb_refl.
    cbn [orb negb]. rewrite andb_false_r.
    destruct (_ || _); reflexivity.
Qed.

(** In [lines_two_line_signature] line 1 is accepted and line 2 rejected;
    in [lines_two_line_call], whose second line calls [f], line 1 is
    accepted all the same. *)
Lemma two_line_signature_detected_witness :
  (_is_function_declaration lines_two_line_signature 0 (s2l "foo") = true /\
   _is_function_declaration lines_two_line_signature 1 (s2l "foo") = false)
  /\
  _is_function_declaration lines_two_line_call 0 (s2l "f") = true.
Proof.
  split.
  - destruct (two_line_signature_detected lines_two_line_signature 0
                (s2l "foo") (s2l "static int ") (s2l "int c)") "f"%char
                (s2l "oo") ltac:(simpl; lia) eq_refl eq_refl eq_refl eq_refl
                eq_refl eq_refl eq_refl) as [Hacc Hrej].
    split; [apply Hacc | apply Hrej]; reflexivity.
  - destruct (two_line_signature_detected lines_two_line_call 0
                (s2l "f") (s2l "int ") (s2l "int c) { return f(c - 1); }")
                "f"%char [] ltac:(simpl; lia) eq_refl eq_refl eq_refl eq_refl
                eq_refl eq_refl eq_refl) as [Hacc _].
    apply Hacc. reflexivity.
Defined.

(** C6 as stated fails.  In [lines_two_line_char] the first line holds the
    return type and the name [f], has no parenthesis, is not blank and
    does not end with a semicolon, and the second line opens the parameter
    list; but the second line contains ['f'], the guard against names in
    strings fires on the joined text, and line 1 is rejected.  In
    [lines_two_line_call] the second line calls [f]: both lines are
    accepted, so line 1 is not the single start. *)
Lemma two_line_signature_not_always_single_start :
  (has_char lparen (nth 0 lines_two_line_char []) = false /\
   strip (nth 0 lines_two_line_char []) = s2l "int f" /\
   endswith (strip (nth 0 lines_two_line_char [])) [semicolon] = false /\
   startswith (strip (nth 1 lines_two_line_char [])) [lparen] = true /\
   _is_function_declaration lines_two_line_char 0 (s2l "f") = false)
  /\
  (has_char lparen (nth 0 lines_two_line_call []) = false /\
   strip (nth 0 lines_two_line_call []) = s2l "int f" /\
   endswith (strip (nth 0 lines_two_line_call [])) [semicolon] = false /\
   startswith (strip (nth 1 lines_two_line_call [])) [lparen] = true /\
   _is_function_declaration lines_two_line_call 0 (s2l "f") = true /\
   _is_function_declaration lines_two_line_call 1 (s2l "f") = true).
Proof. repeat split; reflexivity. Qed.

(** ** Disambiguation by line number *)

Lemma zrange_In (a b : Z) (i : nat) :
  (0 <= a)%Z -> In i (zrange a b) <-> (a <= Z.of_nat i < b)%Z.
Proof.
  intros Ha. unfold zrange. rewrite in_map_iff. split.
  - intros (k & <- & Hk). apply in_seq in Hk. lia.
  - intros H. exists (i - Z.to_nat a)%nat. split; [lia|].
    apply in_seq. lia.
Qed.

Lemma is_function_declaration_in_range (lines : list str) (i : nat)
    (name : str) :
  _is_function_declaration lines i name = true -> (i < List.length lines)%nat.
Proof.
  unfold _is_function_declaration.
  destruct (i <? List.length lines)%nat eqn:E.
  - intros _. apply Nat.ltb_lt, E.
  - cbn. discriminate.
Qed.

(** A successful verification found a hit on one of the lines
    [line_number - 2 .. line_number + 3]. *)
Lemma verify_line_number_sound (content name : str) (ln : Z) :
  _verify_line_number (Ok content) name ln = Ok true ->
  exists i,
    (i < List.length (split newline content))%nat /\
    _is_function_declaration (split newline content) i name = true /\
    (ln - 2 <= Z.of_nat i + 1 <= ln + 3)%Z.
Proof.
  unfold _verify_line_number, bind. intros H. injection H as H.
  apply existsb_exists in H as (i & Hi & Hd).
  apply zrange_In in Hi; [|lia].
  exists i. split; [|split; [exact Hd | lia]].
  apply (is_function_declaration_in_range _ _ _ Hd).
Qed.

Lemma verify_line_number_complete (content name : str) (ln : Z) (i : nat) :
  _is_function_declaration (split newline content) i name = true ->
  (ln - 2 <= Z.of_nat i + 1 <= ln + 3)%Z ->
  _verify_line_number (Ok content) name ln = Ok true.
Proof.
  intros Hd Hi. unfold _verify_line_number, bind. f_equal.
  apply existsb_exists. exists i. split; [|exact Hd].
  apply zrange_In; [lia|].
  pose proof (is_function_declaration_in_range _ _ _ Hd). lia.
Qed.

Lemma verify_line_number_total (content name : str) (ln : Z) :
  _verify_line_number (Ok content) name ln = Ok true \/
  _verify_line_number (Ok content) name ln = Ok false.
Proof.
  unfold _verify_line_number, bind.
  destruct (existsb _ _); [left | right]; reflexivity.
Qed.

(** Every collected match comes from a file that was read. *)
Lemma collect_matches_read (files : list (path * result str))
    (name : str) (ln : option Z) (rc : bool)
    (ms : list (path * result str * str)) :
  collect_matches files name ln rc = Ok ms ->
  Forall (fun m => exists content,
            match_data m = Ok content /\
            In (fst m) files /\
            _parse_function content name ln rc = Some (match_code m)) ms.
Proof.
  revert ms. induction files as [|[fp data] files IH]; intros ms;
    cbn [collect_matches].
  - intros H. injection H as <-. constructor.
  - assert (Hweak : forall l,
              Forall (fun m => exists content,
                        match_data m = Ok content /\
                        In (fst m) files /\
                        _parse_function content name ln rc
                        = Some (match_code m)) l ->
              Forall (fun m => exists content,
                        match_data m = Ok content /\
                        In (fst m) ((fp, data) :: files) /\
                        _parse_function content name ln rc
                        = Some (match_code m)) l).
    { intros l Hl. eapply Forall_impl; [|exact Hl].
      intros m (c & H1 & H2 & H3). exists c. repeat split; try assumption.
      right. exact H2. }
    destruct data as [content|e]; cbn [_extract_from_file bind].
    + destruct (collect_matches files name ln rc) as [ms'|e'] eqn:E;
        cbn [bind]; [|discriminate].
      specialize (IH ms' eq_refl). apply Hweak in IH.
      destruct (_parse_function content name ln rc) as [[|c code]|] eqn:Ep;
        intros H; injection H as <-; try exact IH.
      constructor; [|exact IH].
      exists content. repeat split; [left; reflexivity | exact Ep].
    + destruct (caught e); [|discriminate].
      intros H. apply Hweak, IH, H.
Qed.

(** The loop over the matches returns the first one that verifies. *)
Lemma first_verified_spec (ms : list (path * result str * str))
    (name : str) (ln : Z) :
  Forall (fun m => exists content, match_data m = Ok content) ms ->
  (exists before m after,
      ms = before ++ m :: after /\
      _verify_line_number (match_data m) name ln = Ok true /\
      (forall m', In m' before ->
                  _verify_line_number (match_data m') name ln = Ok false) /\
      first_verified ms name ln = Ok (Some (match_code m)))
  \/
  ((forall m, In m ms ->
              _verify_line_number (match_data m) name ln = Ok false) /\
   first_verified ms name ln = Ok None).
Proof.
  induction 1 as [|[[fp data] code] ms [content Hc] Hall IH].
  - right. split; [intros m [] | reflexivity].
  - cbn [match_data fst snd] in Hc. subst data. cbn [first_verified].
    destruct (verify_line_number_total content name ln) as [Hv | Hv];
      rewrite Hv; cbn [bind].
    + left. exists [], (fp, Ok content, code), ms.
      repeat split; [exact Hv | intros m' []].
    + destruct IH as [(before & m & after & -> & Hm & Hbefore & Hres)
                     | [Hnone Hres]].
      * left. exists ((fp, Ok content, code) :: before), m, after.
        repeat split; [exact Hm | | exact Hres].
        intros m' [<- | Hin]; [exact Hv | apply Hbefore, Hin].
      * right. split; [|exact Hres].
        intros m [<- | Hin]; [exact Hv | apply Hnone, Hin].
Qed.

(** C3, as the code has it: when a tree-wide extraction with a non-zero
    line number collects matches in two files or more, the files are
    verified in traversal order and the text of the first one that
    verifies is returned; a file verifies only on a Boundary Detector hit
    within 3 lines of the given 1-based line number, and every hit on the
    lines [line_number - 2 .. line_number + 3] verifies.  When no file
    verifies, the first match in traversal order is returned. *)
Theorem extract_from_directory_disambiguation
    (tree : list entry) (function_name : str) (line_number : Z)
    (remove_comments : bool) (matches : list (path * result str * str)) :
  line_number <> 0%Z ->
  collect_matches (_get_all_source_files tree) function_name
    (Some line_number) remove_comments = Ok matches ->
  (2 <= List.length matches)%nat ->
  let verified m :=
    _verify_line_number (match_data m) function_name line_number in
  let returned :=
    extract_function tree function_name None (Some line_number)
      remove_comments in
  (forall m, In m matches -> verified m = Ok true ->
     hit_between function_name (line_number - 3) (line_number + 3) m)
  /\
  (forall m, In m matches ->
     hit_between function_name (line_number - 2) (line_number + 3) m ->
     verified m = Ok true)
  /\
  ((exists before m after,
       matches = before ++ m :: after /\
       verified m = Ok true /\
       (forall m', In m' before -> verified m' = Ok false) /\
       returned = Ok (Some (match_code m)))
   \/
   ((forall m, In m matches -> verified m = Ok false) /\
    exists m0 others,
      matches = m0 :: others /\ returned = Ok (Some (match_code m0)))).
Proof.
  intros Hln Hcollect Hlen verified returned.
  pose proof (collect_matches_read _ _ _ _ _ Hcollect) as Hread.
  assert (Hdata : Forall (fun m => exists content, match_data m = Ok content)
                    matches).
  { eapply Forall_impl; [|exact Hread].
    intros m (c & Hc & _). exists c. exact Hc. }
  split; [|split].
  - intros m Hin Hv.
    rewrite Forall_forall in Hdata. destruct (Hdata m Hin) as [content Hc].
    subst verified. cbn beta in Hv. rewrite Hc in Hv.
    destruct (verify_line_number_sound _ _ _ Hv) as (i & Hi & Hd & Hr).
    exists content, i. repeat split; try assumption; lia.
  - intros m Hin (content & i & Hc & Hi & Hd & Hr).
    subst verified. cbn beta. rewrite Hc.
    apply (verify_line_number_complete content function_name line_number i);
      assumption.
  - subst returned. unfold extract_function. cbn [truthy_name].
    unfold _extract_from_directory, extract_from_files.
    rewrite Hcollect. cbn [bind].
    destruct matches as [|m0 [|m1 others]]; cbn [List.length] in Hlen;
      try lia.
    unfold disambiguate. destruct m0 as [[fp0 d0] c0].
    destruct m1 as [[fp1 d1] c1]. unfold truthy_line.
    destruct (line_number =? 0)%Z eqn:E; [apply Z.eqb_eq in E; lia|].
    destruct (first_verified_spec _ function_name line_number Hdata)
      as [(before & m & after & Heq & Hm & Hbefore & Hres) | [Hnone Hres]];
      rewrite Hres; cbn [bind].
    + left. exists before, m, after. repeat split; assumption.
    + right. split; [exact Hnone|].
      exists (fp0, d0, c0), ((fp1, d1, c1) :: others).
      split; reflexivity.
Qed.

Lemma extract_from_directory_disambiguation_witness :
  _verify_line_number (Ok (file_bar_at 40 "  return x + 1;")) (s2l "bar") 42
  = Ok true.
Proof.
  destruct (extract_from_directory_disambiguation tree_two_bars (s2l "bar")
              42%Z false matches_two_bars) as (_ & Hhit & _).
  - lia.
  - vm_compute. reflexivity.
  - simpl. lia.
  - apply (Hhit ([s2l "b.c"], Ok (file_bar_at 40 "  return x + 1;"),
                 join_nl (map s2l ["int bar(int x) {"; "  return x + 1;";
                                   "}"]%string))).
    + right. left. reflexivity.
    + exists (file_bar_at 40 "  return x + 1;"), 39%nat.
      split; [reflexivity|]. split; [vm_compute; lia|].
      split; [vm_compute; reflexivity | lia].
Defined.

(** With line 42 given, the match in the file that defines [bar] on line
    40 is returned, although the other file comes first. *)
Example extract_near_line_42 :
  extract_function tree_two_bars (s2l "bar") None (Some 42%Z) false
  = Ok (Some (join_nl (map s2l ["int bar(int x) {"; "  return x + 1;"; "}"]
                         %string))).
Proof. vm_compute. reflexivity. Qed.

Lemma no_declaration_beyond (content name : str) (i : nat) :
  (List.length (split newline content) <= i)%nat ->
  _is_function_declaration (split newline content) i name = false.
Proof.
  intros H.
  destruct (_is_function_declaration (split newline content) i name) eqn:E;
    [|reflexivity].
  apply is_function_declaration_in_range in E. lia.
Qed.

(** C3 as stated fails: with line 100 given, no file of [tree_two_bars]
    holds a hit for [bar] within 3 lines of line 100, and the match of the
    first file is returned all the same. *)
Lemma extract_falls_back_to_first_match :
  extract_function tree_two_bars (s2l "bar") None (Some 100%Z) false
  = Ok (Some (join_nl (map s2l ["int bar(int x) {"; "  return x;"; "}"]
                         %string)))
  /\
  (forall m, In m matches_two_bars ->
             ~ hit_between (s2l "bar") (100 - 3) (100 + 3) m).
Proof.
  split; [vm_compute; reflexivity|].
  intros m Hin (content & i & Hc & Hi & Hd & Hr).
  assert (Hlen : (List.length (split newline content) <= 42)%nat).
  { destruct Hin as [<- | [<- | []]]; cbn [match_data fst snd] in Hc;
      injection Hc as <-; vm_compute; lia. }
  lia.
Qed.

(** The window of [_verify_line_number] starts at [line_number - 2]: a
    definition on line 40 is verified for the line numbers 37 to 42, not
    for 43, although 40 is within 3 lines of 43. *)
Example verify_window_bounds :
  map (fun ln => _verify_line_number
                   (Ok (file_bar_at 40 "  return x + 1;")) (s2l "bar") ln)
      [36; 37; 42; 43; 44]%Z
  = [Ok false; Ok true; Ok true; Ok false; Ok false].
Proof. vm_compute. reflexivity. Qed.

(** ** Locating a file by name *)

Lemma find_in_dir_Some (n : str) (ch : list entry) (d : result str) :
  find_in_dir n ch = Some d -> In (File n d) ch.
Proof.
  induction ch as [|[m d'|m sub] ch IH]; cbn [find_in_dir]; [discriminate| |].
  - destruct (str_eqb m n) eqn:E.
    + apply str_eqb_eq in E. subst m. intros H. injection H as ->.
      left. reflexivity.
    + intros H. right. apply IH, H.
  - intros H. right. apply IH, H.
Qed.

Lemma find_in_dir_complete (n : str) (ch : list entry) (d : result str) :
  In (File n d) ch -> exists d', find_in_dir n ch = Some d'.
Proof.
  induction ch as [|[m d'|m sub] ch IH]; cbn [find_in_dir]; intros H.
  - destruct H.
  - destruct (str_eqb m n) eqn:E; [exists d'; reflexivity|].
    destruct H as [H | H]; [|apply IH, H].
    injection H as -> _. 
    assert (str_eqb n n = true) by (apply str_eqb_eq; reflexivity).
    congruence.
  - destruct H as [H | H]; [discriminate | apply IH, H].
Qed.

Lemma find_by_name_Some (n : str) (dirs : list (path * list entry))
    (p : path) (d : result str) :
  find_by_name n dirs = Some (p, d) ->
  exists p' ch, In (p', ch) dirs /\ In (File n d) ch.
Proof.
  induction dirs as [|[p' ch] dirs IH]; cbn [find_by_name]; [discriminate|].
  destruct (find_in_dir n ch) as [d'|] eqn:E.
  - intros H. injection H as _ ->. exists p', ch. split.
    + left. reflexivity.
    + apply find_in_dir_Some, E.
  - intros H. destruct (IH H) as (q & ch' & Hin & Hf).
    exists q, ch'. split; [right; exact Hin | exact Hf].
Qed.

Lemma find_by_name_complete (n : str) (dirs : list (path * list entry))
    (p : path) (ch : list entry) (d : result str) :
  In (p, ch) dirs -> In (File n d) ch ->
  exists q d', find_by_name n dirs = Some (q, d').
Proof.
  induction dirs as [|[p' ch'] dirs IH]; cbn [find_by_name]; intros Hin Hf.
  - destruct Hin.
  - destruct (find_in_dir n ch') as [d'|] eqn:E.
    + exists (p' ++ [n]), d'. reflexivity.
    + destruct Hin as [Heq | Hin]; [|apply IH; assumption].
      injection Heq as -> ->.
      destruct (find_in_dir_complete n ch d Hf) as [d'' Hd]. congruence.
Qed.


Lemma walk_entry_file_under (n : str) (d : result str) (e : entry) :
  forall parent p ch,
    In (p, ch) (walk_entry parent e) -> In (File n d) ch ->
    exists dn sub, e = Dir dn sub /\ file_under n d sub.
Proof.
  induction e as [m d'|dn sub IH] using entry_ind_nested;
    intros parent p ch Hin Hf; cbn [walk_entry] in Hin.
  - destruct Hin.
  - exists dn, sub. split; [reflexivity|].
    destruct Hin as [Heq | Hin].
    + injection Heq as _ <-. apply file_here, Hf.
    + apply in_flat_map in Hin as (e' & He' & Hin).
      rewrite Forall_forall in IH.
      destruct (IH e' He' _ _ _ Hin Hf) as (dn' & sub' & -> & Hu).
      apply (file_below n d sub dn' sub' He' Hu).
Qed.

Lemma walk_dir_file_under (n : str) (d : result str) (tree : list entry)
    (parent p : path) (ch : list entry) :
  In (p, ch) (walk_dir parent tree) -> In (File n d) ch ->
  file_under n d tree.
Proof.
  intros [Heq | Hin] Hf.
  - injection Heq as _ <-. apply file_here, Hf.
  - apply in_flat_map in Hin as (e & He & Hin).
    destruct (walk_entry_file_under n d e _ _ _ Hin Hf)
      as (dn & sub & -> & Hu).
    apply (file_below n d tree dn sub He Hu).
Qed.

Lemma file_under_walk_dir (n : str) (d : result str) (tree : list entry) :
  file_under n d tree ->
  forall parent, exists p ch,
    In (p, ch) (walk_dir parent tree) /\ In (File n d) ch.
Proof.
  induction 1 as [ch Hf | ch dn sub Hd Hu IH]; intros parent.
  - exists parent, ch. split; [left; reflexivity | exact Hf].
  - destruct (IH (parent ++ [dn])) as (p & ch' & Hin & Hf).
    exists p, ch'. split; [|exact Hf].
    right. apply in_flat_map. exists (Dir dn sub). split; [exact Hd|].
    exact Hin.
Qed.

Lemma split_no_sep (sep : ascii) (s : str) :
  has_char sep s = false -> split sep s = [s].
Proof.
  induction s as [|c s IH]; [reflexivity|].
  cbn [has_char existsb split]. intros H.
  apply orb_false_iff in H as [Hc Hs].
  rewrite Ascii.eqb_sym, Hc. fold (has_char sep s) in Hs.
  rewrite (IH Hs). reflexivity.
Qed.

Lemma truthy_name_nonempty (file_name : str) :
  file_name <> [] -> truthy_name (Some file_name) = Some file_name.
Proof. destruct file_name; [congruence | reflexivity]. Qed.

(** A file of the given name under the root is located and read. *)
Lemma extract_function_located
    (tree : list entry) (function_name file_name : str)
    (line_number : option Z) (remove_comments : bool) :
  file_name <> [] ->
  (exists data, file_under file_name data tree) ->
  exists data,
    file_under file_name data tree /\
    extract_function tree function_name (Some file_name) line_number
      remove_comments
    = _extract_from_file data function_name line_number remove_comments.
Proof.
  intros Hne [data Hu]. unfold extract_function.
  rewrite (truthy_name_nonempty _ Hne).
  destruct (file_under_walk_dir _ _ _ Hu []) as (p & ch & Hin & Hf).
  destruct (find_by_name_complete file_name (os_walk tree) p ch data Hin Hf)
    as (q & d' & E).
  rewrite E. exists d'. split; [|reflexivity].
  apply find_by_name_Some in E as (p' & ch' & Hin' & Hf').
  apply (walk_dir_file_under _ _ _ _ _ _ Hin' Hf').
Qed.







(** ** Unreadable files *)

Lemma get_all_source_files_walk (tree : list entry) :
  _get_all_source_files tree = flat_map source_files_of (os_walk tree).
Proof. reflexivity. Qed.











Lemma locked_file_only_unreadable (data : result str) :
  file_under (s2l "locked.c") data tree_locked -> data = Raise PermissionError.
Proof.
  intros H.
  destruct (file_under_walk_dir _ _ _ H []) as (p & ch & Hin & Hf).
  cbn in Hin. destruct Hin as [Heq | []]. injection Heq as _ <-.
  destruct Hf as [Heq | [Heq | []]].
  - injection Heq as <-. reflexivity.
  - discriminate.
Qed.

(** The match in the readable file is returned although the scan meets
    the unreadable file first. *)
Example scan_passes_unreadable_file :
  extract_function tree_locked (s2l "bar") None None false
  = Ok (Some (join_nl (map s2l ["int bar(int x) {"; "  return x;"; "}"]
                         %string))).
Proof. vm_compute. reflexivity. Qed.

(** ** The matcher *)

Lemma iterate_consumed (Q : ascii -> Prop) (step : mstate -> list mstate) :
  (forall st st', In st' (step st) ->
                  exists w, rest st = w ++ rest st' /\ Forall Q w) ->
  forall fuel st st',
    In st' (iterate step fuel st) ->
    exists w, rest st = w ++ rest st' /\ Forall Q w.
Proof.
  intros Hstep. induction fuel as [|fuel IH]; intros st st';
    cbn [iterate]; intros Hin.
  - destruct Hin as [<- | []]. exists []. split; [reflexivity | constructor].
  - apply in_app_or in Hin as [Hin | [<- | []]].
    + apply in_flat_map in Hin as (mid & Hmid & Hin).
      destruct (_ <? _)%nat; [|destruct Hin].
      destruct (Hstep _ _ Hmid) as (w1 & E1 & Q1).
      destruct (IH _ _ Hin) as (w2 & E2 & Q2).
      exists (w1 ++ w2). split.
      * rewrite E1, E2, app_assoc. reflexivity.
      * apply Forall_app. split; assumption.
    + exists []. split; [reflexivity | constructor].
Qed.

(** What a match consumes is a prefix of the text, made of characters of
    the pattern's classes, at least [min_len] of them. *)
Lemma run_consumed (Q : ascii -> Prop) (r : regex) :
  classes_sat Q r ->
  forall st st',
    In st' (run r st) ->
    exists w, rest st = w ++ rest st' /\ Forall Q w /\
              (min_len r <= List.length w)%nat.
Proof.
  induction r as [|p| |r1 IH1 r2 IH2|r1 IH1 r2 IH2|r1 IH1|n r1 IH1|r1 IH1];
    cbn [classes_sat min_len run]; intros Hsat st st' Hin.
  - destruct Hin as [<- | []]. exists []. repeat split; [constructor | lia].
  - destruct (rest st) as [|c s'] eqn:E; [destruct Hin|].
    destruct (p c) eqn:Ep; [|destruct Hin].
    destruct Hin as [<- | []]. exists [c]. cbn [rest app List.length].
    repeat split; [|lia]. constructor; [apply Hsat, Ep | constructor].
  - destruct (at_line_start st); [|destruct Hin].
    destruct Hin as [<- | []]. exists []. repeat split; [constructor | lia].
  - destruct Hsat as [S1 S2].
    apply in_flat_map in Hin as (mid & Hmid & Hin).
    destruct (IH1 S1 _ _ Hmid) as (w1 & E1 & Q1 & L1).
    destruct (IH2 S2 _ _ Hin) as (w2 & E2 & Q2 & L2).
    exists (w1 ++ w2). repeat split.
    + rewrite E1, E2, app_assoc. reflexivity.
    + apply Forall_app. split; assumption.
    + rewrite length_app. lia.
  - destruct Hsat as [S1 S2]. apply in_app_or in Hin as [Hin | Hin].
    + destruct (IH1 S1 _ _ Hin) as (w & E & Qw & L).
      exists w. repeat split; try assumption. lia.
    + destruct (IH2 S2 _ _ Hin) as (w & E & Qw & L).
      exists w. repeat split; try assumption. lia.
  - destruct (iterate_consumed Q (run r1)) with (fuel := List.length (rest st))
      (st := st) (st' := st') as (w & E & Qw).
    + intros s s' Hs. destruct (IH1 Hsat _ _ Hs) as (w & E & Qw & _).
      exists w. split; assumption.
    + exact Hin.
    + exists w. repeat split; try assumption. lia.
  - apply in_map_iff in Hin as (st0 & <- & Hin).
    destruct (IH1 Hsat _ _ Hin) as (w & E & Qw & L).
    exists w. repeat split; assumption.
  - destruct (run r1 st); [destruct Hin|]. destruct Hin as [<- | []].
    exists []. repeat split; [constructor | lia].
Qed.

Lemma iterate_caps (step : mstate -> list mstate) :
  (forall st st', In st' (step st) -> caps st' = caps st) ->
  forall fuel st st', In st' (iterate step fuel st) -> caps st' = caps st.
Proof.
  intros Hstep. induction fuel as [|fuel IH]; intros st st';
    cbn [iterate]; intros Hin.
  - destruct Hin as [<- | []]. reflexivity.
  - apply in_app_or in Hin as [Hin | [<- | []]]; [|reflexivity].
    apply in_flat_map in Hin as (mid & Hmid & Hin).
    destruct (_ <? _)%nat; [|destruct Hin].
    rewrite (IH _ _ Hin). apply Hstep, Hmid.
Qed.

(** A pattern without groups leaves the captures as they are. *)
Lemma run_no_group_caps (r : regex) :
  no_group r ->
  forall st st', In st' (run r st) -> caps st' = caps st.
Proof.
  induction r as [|p| |r1 IH1 r2 IH2|r1 IH1 r2 IH2|r1 IH1|n r1 IH1|r1 IH1];
    cbn [no_group run]; intros Hng st st' Hin.
  - destruct Hin as [<- | []]. reflexivity.
  - destruct (rest st) as [|c s']; [destruct Hin|].
    destruct (p c); [|destruct Hin]. destruct Hin as [<- | []]. reflexivity.
  - destruct (at_line_start st); [|destruct Hin].
    destruct Hin as [<- | []]. reflexivity.
  - destruct Hng as [N1 N2].
    apply in_flat_map in Hin as (mid & Hmid & Hin).
    rewrite (IH2 N2 _ _ Hin). apply (IH1 N1 _ _ Hmid).
  - destruct Hng as [N1 N2]. apply in_app_or in Hin as [Hin | Hin].
    + apply (IH1 N1 _ _ Hin).
    + apply (IH2 N2 _ _ Hin).
  - apply (iterate_caps (run r1) (IH1 Hng) _ _ _ Hin).
  - destruct Hng.
  - destruct (run r1 st); [destruct Hin|]. destruct Hin as [<- | []].
    reflexivity.
Qed.

Lemma captured_prefix (st st' : mstate) (w : str) :
  rest st = w ++ rest st' -> captured st st' = w.
Proof.
  intros E. unfold captured. rewrite E, length_app.
  replace (List.length w + List.length (rest st') - List.length (rest st'))%nat
    with (List.length w + 0)%nat by lia.
  rewrite firstn_app_2. cbn [firstn]. apply app_nil_r.
Qed.

Lemma flat_map_ext_in {A B : Type} (f g : A -> list B) (l : list A) :
  (forall x, In x l -> f x = g x) -> flat_map f l = flat_map g l.
Proof.
  induction l as [|x l IH]; intros H; [reflexivity|].
  cbn [flat_map]. rewrite (H x (or_introl eq_refl)), IH; [reflexivity|].
  intros y Hy. apply H. right. exact Hy.
Qed.

(** The fuel that [run] gives the star is never exhausted: any fuel from
    the length of the remaining text on gives the same matches. *)
Lemma iterate_fuel (step : mstate -> list mstate) (fuel1 : nat) :
  forall fuel2 st,
    (List.length (rest st) <= fuel1)%nat ->
    (List.length (rest st) <= fuel2)%nat ->
    iterate step fuel1 st = iterate step fuel2 st.
Proof.
  induction fuel1 as [|fuel1 IH]; intros fuel2 st H1 H2.
  - destruct fuel2 as [|fuel2]; [reflexivity|]. cbn [iterate].
    rewrite (flat_map_ext_in _ (fun _ => [])).
    + induction (step st) as [|x l IHl]; [reflexivity | exact IHl].
    + intros st' _. destruct (_ <? _)%nat eqn:E; [|reflexivity].
      apply Nat.ltb_lt in E. lia.
  - destruct fuel2 as [|fuel2]; cbn [iterate].
    + rewrite (flat_map_ext_in _ (fun _ => [])).
      * induction (step st) as [|x l IHl]; [reflexivity | exact IHl].
      * intros st' _. destruct (_ <? _)%nat eqn:E; [|reflexivity].
        apply Nat.ltb_lt in E. lia.
    + f_equal. apply flat_map_ext_in. intros st' _.
      destruct (_ <? _)%nat eqn:E; [|reflexivity].
      apply Nat.ltb_lt in E. apply IH; lia.
Qed.

Lemma in_run_Cat (r1 r2 : regex) (st st' : mstate) :
  In st' (run (Cat r1 r2) st) ->
  exists mid, In mid (run r1 st) /\ In st' (run r2 mid).
Proof. cbn [run]. intros H. apply in_flat_map in H. exact H. Qed.

Lemma not_brace_semi_spec (c : ascii) :
  not_brace_semi c = true <-> c <> lbrace /\ c <> semicolon.
Proof.
  unfold not_brace_semi. rewrite negb_true_iff, orb_false_iff.
  split; intros [H1 H2]; split.
  - intros ->. rewrite ascii_eqb_refl in H1. discriminate.
  - intros ->. rewrite ascii_eqb_refl in H2. discriminate.
  - destruct (Ascii.eqb c lbrace) eqn:E; [|reflexivity].
    apply Ascii.eqb_eq in E. contradiction.
  - destruct (Ascii.eqb c semicolon) eqn:E; [|reflexivity].
    apply Ascii.eqb_eq in E. contradiction.
Qed.

Ltac by_all_chars c :=
  destruct c as [[] [] [] [] [] [] [] []];
  vm_compute; intros; try reflexivity; try discriminate.

Lemma isspace_not_brace_semi (c : ascii) :
  isspace c = true -> not_brace_semi c = true.
Proof. by_all_chars c. Qed.

Lemma isword_not_brace_semi (c : ascii) :
  isword c = true -> not_brace_semi c = true.
Proof. by_all_chars c. Qed.

Lemma chr_not_brace_semi (x c : ascii) :
  not_brace_semi x = true -> Ascii.eqb x c = true -> not_brace_semi c = true.
Proof. intros Hx E. apply Ascii.eqb_eq in E. subst. exact Hx. Qed.

(** No piece of the pattern consumes a brace or a semicolon. *)
Lemma signature_pattern_classes :
  classes_sat (fun c => not_brace_semi c = true) signature_pattern.
Proof.
  cbv [signature_pattern pat_line_start pat_storage pat_return_type pat_name
       pat_params pat_close Plus Lit Chr sp wd s2l list_ascii_of_string
       fold_right classes_sat].
  repeat split;
    first [ exact isspace_not_brace_semi
          | exact isword_not_brace_semi
          | (intros c; apply chr_not_brace_semi; reflexivity)
          | (intros c H; exact H) ].
Qed.

Lemma pat_close_no_group : no_group pat_close.
Proof. cbv [pat_close no_group Chr sp]. tauto. Qed.

Lemma pat_close_brace (st st' : mstate) :
  In st' (run pat_close st) -> exists s', rest st' = lbrace :: s'.
Proof.
  unfold pat_close. intros H.
  apply in_run_Cat in H as (st1 & _ & H).
  apply in_run_Cat in H as (st2 & _ & H).
  cbn [run Chr] in H. destruct (rest st2) as [|c s'] eqn:E; [destruct H|].
  destruct (Ascii.eqb lbrace c) eqn:Ec; [|destruct H].
  destruct H as [<- | []]. apply Ascii.eqb_eq in Ec. subst c.
  exists s'. exact E.
Qed.

(** The shape of every match of the pattern: at least five characters,
    none of them a brace or a semicolon, an opening brace next in the
    text, and a third group without brace or semicolon. *)
Lemma signature_match_shape (st st' : mstate) :
  In st' (run signature_pattern st) ->
  (exists w, rest st = w ++ rest st' /\
             Forall (fun c => not_brace_semi c = true) w /\
             (5 <= List.length w)%nat) /\
  (exists s', rest st' = lbrace :: s') /\
  Forall (fun c => not_brace_semi c = true) (get_cap 3 (caps st')).
Proof.
  intros Hin. split; [|split].
  - apply (run_consumed _ _ signature_pattern_classes _ _ Hin).
  - unfold signature_pattern in Hin.
    do 8 (apply in_run_Cat in Hin as (? & _ & Hin)).
    apply (pat_close_brace _ _ Hin).
  - unfold signature_pattern in Hin.
    do 7 (apply in_run_Cat in Hin as (? & _ & Hin)).
    apply in_run_Cat in Hin as (st3 & Hp & Hin).
    rewrite (run_no_group_caps _ pat_close_no_group _ _ Hin).
    unfold pat_params in Hp. cbn [run] in Hp.
    apply in_map_iff in Hp as (st0 & <- & Hp).
    cbn [set_cap caps get_cap Nat.eqb].
    match type of Hp with
    | In _ (iterate _ _ ?s) =>
        destruct (run_consumed (fun c => not_brace_semi c = true)
                    (Star (Class not_brace_semi))
                    (fun c H => H) s st0 Hp) as (w & E & Qw & _)
    end.
    rewrite (captured_prefix _ _ _ E). exact Qw.
Qed.

(** ** The scan for successive matches *)

Lemma last_char_snoc (pre : str) (c : ascii) :
  last_char (pre ++ [c]) = Some c.
Proof. unfold last_char. rewrite rev_app_distr. reflexivity. Qed.

Lemma state_at_split (pre s : str) :
  state_at (pre ++ s) (List.length pre) = MState (last_char pre) s [].
Proof.
  unfold state_at. rewrite firstn_app, skipn_app, Nat.sub_diag.
  rewrite firstn_all, skipn_all. cbn [firstn skipn app].
  rewrite app_nil_r. reflexivity.
Qed.

Lemma snoc_app (pre : str) (c : ascii) (s : str) :
  (pre ++ [c]) ++ s = pre ++ c :: s.
Proof. rewrite <- app_assoc. reflexivity. Qed.

Lemma match_at_here (r : regex) (pre s : str) (st' : mstate)
    (others : list mstate) :
  run r (MState (last_char pre) s []) = st' :: others ->
  match_at r (pre ++ s)
    (RMatch (List.length pre)
       (List.length pre + (List.length s - List.length (rest st')))
       (caps st')).
Proof.
  intros E. exists st', others. cbn [m_start m_end m_caps].
  rewrite state_at_split. split; [exact E|]. split; [|reflexivity].
  rewrite skipn_app, Nat.sub_diag, skipn_all. reflexivity.
Qed.

Lemma scan_sound (r : regex) (s : str) :
  forall pre skip,
    Forall (match_at r (pre ++ s))
      (scan r (List.length pre) (last_char pre) s skip).
Proof.
  induction s as [|c s IH]; intros pre skip.
  - destruct skip as [|k]; cbn [scan]; [|constructor].
    destruct (run r (MState (last_char pre) [] [])) as [|st' others] eqn:E;
      [constructor|].
    constructor; [|constructor]. apply (match_at_here r pre [] st' others E).
  - assert (Hnext : forall k,
              Forall (match_at r (pre ++ c :: s))
                (scan r (S (List.length pre)) (Some c) s k)).
    { intros k. specialize (IH (pre ++ [c]) k).
      rewrite snoc_app, last_char_snoc, length_app in IH.
      cbn [List.length] in IH. rewrite Nat.add_1_r in IH. exact IH. }
    destruct skip as [|k]; cbn [scan]; [|apply Hnext].
    destruct (run r (MState (last_char pre) (c :: s) [])) as [|st' others]
      eqn:E; [apply Hnext|].
    constructor; [|apply Hnext].
    apply (match_at_here r pre (c :: s) st' others E).
Qed.

Lemma ordered_weaken (lo lo' : nat) (ms : list rmatch) :
  (lo' <= lo)%nat -> ordered lo ms -> ordered lo' ms.
Proof.
  destruct ms as [|m ms]; [trivial|]. cbn [ordered].
  intros Hle (H1 & H2 & H3). repeat split; try assumption. lia.
Qed.

Lemma scan_ordered (r : regex) (s : str) :
  forall pos before skip,
    ordered (pos + skip) (scan r pos before s skip).
Proof.
  induction s as [|c s IH]; intros pos before skip.
  - destruct skip as [|k]; cbn [scan]; [|exact I].
    destruct (run r (MState before [] [])); cbn [ordered m_start m_end];
      [exact I|].
    repeat split; lia.
  - destruct skip as [|k]; cbn [scan].
    + destruct (run r (MState before (c :: s) [])) as [|st' others].
      * apply (ordered_weaken (S pos + 0)); [lia | apply IH].
      * cbn [ordered m_start m_end]. repeat split; try lia.
        eapply ordered_weaken; [|apply IH]. lia.
    + apply (ordered_weaken (S pos + k)); [lia | apply IH].
Qed.

(** Where the pattern matches, the scan reports a match that starts there
    or an earlier match that runs over the place. *)
Lemma scan_complete (r : regex) (s : str) :
  forall pre skip p,
    (List.length pre + skip <= p <= List.length (pre ++ s))%nat ->
    run r (state_at (pre ++ s) p) <> [] ->
    exists m,
      In m (scan r (List.length pre) (last_char pre) s skip) /\
      (m_start m <= p)%nat /\ (p = m_start m \/ p < m_end m)%nat.
Proof.
  induction s as [|c s IH]; intros pre skip p Hp Hrun.
  - rewrite app_nil_r in Hp.
    assert (p = List.length pre /\ skip = 0%nat) as [-> ->] by lia.
    rewrite state_at_split in Hrun. cbn [scan].
    destruct (run r (MState (last_char pre) [] [])) as [|st' others];
      [congruence|].
    eexists. split; [left; reflexivity|]. cbn [m_start m_end].
    split; [lia | left; reflexivity].
  - assert (Hnext : forall k,
              (S (List.length pre) + k <= p)%nat ->
              exists m,
                In m (scan r (S (List.length pre)) (Some c) s k) /\
                (m_start m <= p)%nat /\ (p = m_start m \/ p < m_end m)%nat).
    { intros k Hk. specialize (IH (pre ++ [c]) k p).
      rewrite snoc_app, last_char_snoc, length_app in IH.
      cbn [List.length] in IH. rewrite Nat.add_1_r in IH.
      apply IH; [lia | exact Hrun]. }
    destruct skip as [|k]; cbn [scan]; [|apply Hnext; lia].
    destruct (Nat.eq_dec p (List.length pre)) as [-> | Hne].
    + rewrite state_at_split in Hrun.
      destruct (run r (MState (last_char pre) (c :: s) []))
        as [|st' others]; [congruence|].
      eexists. split; [left; reflexivity|]. cbn [m_start m_end].
      split; [lia | left; reflexivity].
    + destruct (run r (MState (last_char pre) (c :: s) []))
        as [|st' others].
      * apply Hnext. lia.
      * set (n := (List.length (c :: s) - List.length (rest st'))%nat).
        destruct (Nat.lt_ge_cases p (List.length pre + n)) as [Hlt | Hge].
        -- eexists. split; [left; reflexivity|]. cbn [m_start m_end].
           split; [lia | right; exact Hlt].
        -- destruct (Hnext (pred n)) as (m & Hin & Hm); [lia|].
           exists m. split; [right; exact Hin | exact Hm].
Qed.

(** ** Signature Lister *)

Lemma signature_match_properties (text : str) (m : rmatch) :
  match_at signature_pattern text m ->
  (m_start m < m_end m <= List.length text)%nat /\
  Forall (fun c => not_brace_semi c = true) (span text m) /\
  nth_error text (m_end m) = Some lbrace /\
  Forall (fun c => not_brace_semi c = true) (get_cap 3 (m_caps m)).
Proof.
  intros (st' & others & Hrun & Hend & Hcaps).
  assert (Hin : In st' (run signature_pattern (state_at text (m_start m))))
    by (rewrite Hrun; left; reflexivity).
  apply signature_match_shape in Hin
    as ((w & E & Qw & L) & (s' & Hs') & Q3).
  cbn [state_at rest] in E.
  pose proof (length_skipn (m_start m) text) as Hlen.
  rewrite E, length_app in Hlen.
  rewrite E, length_app in Hend.
  assert (Hend' : m_end m = (m_start m + List.length w)%nat) by lia.
  split; [lia|]. split; [|split].
  - unfold span. rewrite E, Hend'.
    replace (m_start m + List.length w - m_start m)%nat
      with (List.length w + 0)%nat by lia.
    rewrite firstn_app_2. cbn [firstn]. rewrite app_nil_r. exact Qw.
  - rewrite Hend', <- nth_error_skipn, E, Hs'.
    rewrite nth_error_app2 by lia. rewrite Nat.sub_diag. reflexivity.
  - rewrite Hcaps. exact Q3.
Qed.

Lemma signature_entry_text (m : rmatch) :
  signature_entry m
  = (strip (get_cap 2 (m_caps m)),
     strip (get_cap 2 (m_caps m))
       ++ lparen :: strip (get_cap 3 (m_caps m)) ++ [rparen]).
Proof.
  unfold signature_entry.
  destruct (strip (get_cap 3 (m_caps m))); reflexivity.
Qed.

(** C7, as the code has it: for every file content, the entries listed
    are those of the successive matches of the signature pattern, in the
    order of the text and without overlap.  Each match spans text without
    brace or semicolon, so no declaration closed by [;] lies in it; the
    character right after the match is the opening brace, which the match
    does not consume; the parameters listed hold no brace and no
    semicolon.  No place where the pattern matches is passed over: it
    starts a listed match or lies inside an earlier one.  The entries are
    the matches of a pattern, not the definitions of the file. *)
Theorem list_functions_in_file_spec
    (content : str) (remove_comments : bool) :
  let text :=
    if remove_comments then _remove_comments content else content in
  let ms := finditer signature_pattern text in
  _list_functions_in_file (Ok content) remove_comments
  = Ok (map signature_entry ms)
  /\
  ordered 0 ms
  /\
  Forall
    (fun m =>
       match_at signature_pattern text m /\
       (m_start m < m_end m <= List.length text)%nat /\
       (forall c, In c (span text m) -> c <> lbrace /\ c <> semicolon) /\
       nth_error text (m_end m) = Some lbrace /\
       (forall c, In c (strip (get_cap 3 (m_caps m))) ->
                  c <> lbrace /\ c <> semicolon) /\
       signature_entry m
       = (strip (get_cap 2 (m_caps m)),
          strip (get_cap 2 (m_caps m))
            ++ lparen :: strip (get_cap 3 (m_caps m)) ++ [rparen]))
    ms
  /\
  (forall p,
     (p <= List.length text)%nat ->
     run signature_pattern (state_at text p) <> [] ->
     exists m, In m ms /\ (m_start m <= p)%nat /\
               (p = m_start m \/ p < m_end m)%nat).
Proof.
  intros text ms. split; [reflexivity|].
  split; [apply (scan_ordered signature_pattern text 0 None 0)|].
  split.
  - pose proof (scan_sound signature_pattern text [] 0) as Hs.
    eapply Forall_impl; [|exact Hs].
    intros m Hm. cbn [app] in Hm.
    destruct (signature_match_properties text m Hm) as (H1 & H2 & H3 & H4).
    rewrite Forall_forall in H2, H4.
    split; [exact Hm|]. split; [exact H1|]. split; [|split; [exact H3|split]].
    + intros c Hc. apply not_brace_semi_spec, H2, Hc.
    + intros c Hc. apply not_brace_semi_spec, H4. apply strip_In, Hc.
    + apply signature_entry_text.
  - intros p Hp Hrun.
    apply (scan_complete signature_pattern text [] 0 p).
    + cbn [app List.length]. lia.
    + exact Hrun.
Qed.

Lemma list_functions_in_file_spec_witness :
  exists m,
    In m (finditer signature_pattern file_three_definitions) /\
    (m_start m <= 72)%nat /\ (72 = m_start m \/ 72 < m_end m)%nat.
Proof.
  destruct (list_functions_in_file_spec file_three_definitions false)
    as (_ & _ & _ & Hcomplete).
  apply Hcomplete.
  - vm_compute. lia.
  - vm_compute. discriminate.
Defined.

(** On [file_three_definitions], three definitions and one forward
    declaration, the three definitions are listed. *)
Example list_functions_three_definitions :
  _list_functions_in_file (Ok file_three_definitions) false
  = Ok [(s2l "add", s2l "add(int a, int b)");
        (s2l "name", s2l "name(void)");
        (s2l "run", s2l "run(int n)")].
Proof. vm_compute. reflexivity. Qed.

(** C7 as stated fails: three definitions and one forward declaration do
    not always give three entries.  In [file_else_if] the line
    [else if (n < 0) {] has the shape of the pattern and is listed as a
    function [if], which makes four entries; in [file_two_word_types] the
    definitions whose return type has two words, [unsigned int] and
    [const char *], do not have that shape, and one entry is left. *)
Lemma list_functions_not_the_definitions :
  _list_functions_in_file (Ok file_else_if) false
  = Ok [(s2l "sign", s2l "sign(int n)");
        (s2l "if", s2l "if(n < 0)");
        (s2l "twice", s2l "twice(int n)");
        (s2l "run", s2l "run(void)")]
  /\
  _list_functions_in_file (Ok file_two_word_types) false
  = Ok [(s2l "run", s2l "run(void)")].
Proof. split; vm_compute; reflexivity. Qed.

(* ================================================================== *)
(** * Further properties of the extractor *)

(** ** Brace counting on plain text, and its bounds *)

Lemma count_char_cons (x c : ascii) (s : str) :
  count_char x (c :: s)
  = ((if Ascii.eqb x c then 1 else 0) + count_char x s)%Z.
Proof.
  unfold count_char. cbn [filter].
  destruct (Ascii.eqb x c); cbn [List.length]; lia.
Qed.

Lemma count_char_nonneg (x : ascii) (s : str) : (0 <= count_char x s)%Z.
Proof. unfold count_char. lia. Qed.

Lemma plain_cons (c : ascii) (s : str) :
  plain (c :: s) = true ->
  is_quote c = false /\ Ascii.eqb c squote = false /\
  Ascii.eqb c slash = false /\ plain s = true.
Proof.
  unfold plain, is_quote. cbn [has_char existsb].
  fold (has_char dquote s) (has_char squote s) (has_char slash s).
  rewrite (Ascii.eqb_sym dquote c), (Ascii.eqb_sym squote c),
    (Ascii.eqb_sym slash c).
  intros H. apply negb_true_iff in H.
  apply orb_false_iff in H as [H Hsl]. apply orb_false_iff in H as [Hd Hs].
  apply orb_false_iff in Hsl as [Hsl1 Hsl2].
  apply orb_false_iff in Hd as [Hd1 Hd2].
  apply orb_false_iff in Hs as [Hs1 Hs2].
  rewrite Hd1, Hs1, Hd2, Hs2, Hsl2. repeat split; try reflexivity.
  exact Hsl1.
Qed.

Lemma bump_value (char : ascii) (count : Z) :
  bump char count
  = (count + (if Ascii.eqb lbrace char then 1 else 0)
     - (if Ascii.eqb rbrace char then 1 else 0))%Z.
Proof.
  unfold bump. rewrite (Ascii.eqb_sym lbrace char), (Ascii.eqb_sym rbrace char).
  destruct (Ascii.eqb char lbrace) eqn:E1.
  - apply Ascii.eqb_eq in E1. subst char.
    change (Ascii.eqb lbrace rbrace) with false. cbv iota. lia.
  - destruct (Ascii.eqb char rbrace); cbv iota; lia.
Qed.

Lemma count_braces_loop_plain (text : str) :
  forall string_char count,
    plain text = true ->
    count_braces_loop text false false string_char count
    = (count + count_char lbrace text - count_char rbrace text)%Z.
Proof.
  induction text as [|char rest IH]; intros string_char count Hp.
  - unfold count_char. cbn. lia.
  - apply plain_cons in Hp as (Hq & Hs & Hsl & Hrest).
    cbn [count_braces_loop orb andb negb].
    rewrite Hq, Hs, Hsl, (andb_false_r (opt_eqb char string_char)).
    cbn [andb].
    rewrite (IH _ _ Hrest), bump_value, !count_char_cons. lia.
Qed.

(** On text without quote and without slash, hence without literal and
    without comment, [_count_braces_in_text] is the number of opening
    braces minus the number of closing braces. *)
Theorem count_braces_plain_text (text : str) :
  plain text = true ->
  _count_braces_in_text text
  = (count_char lbrace text - count_char rbrace text)%Z.
Proof.
  intros Hp. unfold _count_braces_in_text.
  rewrite (count_braces_loop_plain text None 0%Z Hp). lia.
Qed.

Lemma count_braces_plain_text_witness :
  _count_braces_in_text (s2l "if (x) { y = {1, 2}; ")
  = (count_char lbrace (s2l "if (x) { y = {1, 2}; ")
     - count_char rbrace (s2l "if (x) { y = {1, 2}; "))%Z.
Proof. apply count_braces_plain_text. reflexivity. Defined.

Lemma count_braces_loop_bounds (n : nat) :
  forall text in_string in_char string_char count,
    (List.length text <= n)%nat ->
    (count - count_char rbrace text
     <= count_braces_loop text in_string in_char string_char count
     <= count + count_char lbrace text)%Z.
Proof.
  induction n as [|n IH];
    intros text in_string in_char string_char count Hn.
  - destruct text; [|cbn in Hn; lia]. unfold count_char. cbn. lia.
  - destruct text as [|char rest]; [unfold count_char; cbn; lia|].
    cbn [List.length] in Hn.
    pose proof (count_char_nonneg lbrace rest) as Hl.
    pose proof (count_char_nonneg rbrace rest) as Hr.
    assert (Hrest : forall s c sc k,
              (k - count_char rbrace rest
               <= count_braces_loop rest s c sc k
               <= k + count_char lbrace rest)%Z)
      by (intros; apply IH; lia).
    assert (Hsame : forall s c sc,
              (count - count_char rbrace (char :: rest)
               <= count_braces_loop rest s c sc count
               <= count + count_char lbrace (char :: rest))%Z).
    { intros s c sc. specialize (Hrest s c sc count).
      rewrite !count_char_cons.
      destruct (Ascii.eqb rbrace char), (Ascii.eqb lbrace char); cbv iota; lia. }
    assert (Hbump : forall s c sc,
              (count - count_char rbrace (char :: rest)
               <= count_braces_loop rest s c sc (bump char count)
               <= count + count_char lbrace (char :: rest))%Z).
    { intros s c sc. specialize (Hrest s c sc (bump char count)).
      pose proof (bump_value char count) as Hb. rewrite !count_char_cons.
      destruct (Ascii.eqb rbrace char), (Ascii.eqb lbrace char);
        cbv iota in Hb |- *; lia. }
    assert (Hskip : forall d rest',
              rest = d :: rest' ->
              (count - count_char rbrace (char :: rest)
               <= count_braces_loop rest' in_string in_char string_char
                    count
               <= count + count_char lbrace (char :: rest))%Z).
    { intros d rest' ->. cbn [List.length] in Hn.
      pose proof (IH rest' in_string in_char string_char count ltac:(lia))
        as H.
      pose proof (count_char_nonneg lbrace rest').
      pose proof (count_char_nonneg rbrace rest').
      rewrite !count_char_cons.
      destruct (Ascii.eqb rbrace char), (Ascii.eqb lbrace char),
        (Ascii.eqb rbrace d), (Ascii.eqb lbrace d); cbv iota; lia. }
    assert (Hstop : (count - count_char rbrace (char :: rest) <= count
                     <= count + count_char lbrace (char :: rest))%Z).
    { rewrite !count_char_cons.
      destruct (Ascii.eqb rbrace char), (Ascii.eqb lbrace char); cbv iota; lia. }
    cbn [count_braces_loop].
    destruct ((in_string || in_char) && Ascii.eqb char backslash).
    { destruct rest as [|d rest']; [exact Hstop|].
      apply (Hskip d rest' eq_refl). }
    destruct (is_quote char && negb in_char && negb in_string);
      [apply Hsame|].
    destruct (opt_eqb char string_char && in_string); [apply Hsame|].
    destruct (Ascii.eqb char squote && negb in_string && negb in_char);
      [apply Hsame|].
    destruct (Ascii.eqb char squote && in_char); [apply Hsame|].
    destruct (negb in_string && negb in_char); [|apply Hsame].
    destruct (Ascii.eqb char slash); [|destruct rest; apply Hbump].
    destruct rest as [|next_char rest']; [apply Hbump|].
    destruct (Ascii.eqb next_char slash); [exact Hstop|].
    destruct (Ascii.eqb next_char star); [|apply Hbump].
    apply (Hskip next_char rest' eq_refl).
Qed.

(** Whatever the text, the count of [_count_braces_in_text] lies between
    minus the number of closing braces and the number of opening braces
    of the text: literals and comments can only hide braces, and a text
    without braces counts 0. *)
Theorem count_braces_bounds (text : str) :
  (- count_char rbrace text <= _count_braces_in_text text
   <= count_char lbrace text)%Z.
Proof.
  pose proof (count_braces_loop_bounds (List.length text) text false false
                None 0%Z (Nat.le_refl _)).
  unfold _count_braces_in_text. lia.
Qed.

(** ** Comment stripping: what is kept *)

Lemma remove_comments_loop_no_slash (n : nat) :
  forall content in_string in_char string_char,
    (List.length content <= n)%nat ->
    has_char slash content = false ->
    remove_comments_loop content in_string in_char string_char = content.
Proof.
  induction n as [|n IH]; intros content in_string in_char string_char Hn Hs.
  - destruct content; [reflexivity | cbn in Hn; lia].
  - destruct content as [|char rest]; [reflexivity|].
    cbn [List.length] in Hn. cbn [has_char existsb] in Hs.
    apply orb_false_iff in Hs as [Hc Hrest]. fold (has_char slash rest) in Hrest.
    rewrite Ascii.eqb_sym in Hc.
    assert (Hcons : forall s c sc,
              char :: remove_comments_loop rest s c sc = char :: rest)
      by (intros; f_equal; apply IH; [lia | exact Hrest]).
    cbn [remove_comments_loop]. rewrite Hc.
    destruct ((in_string || in_char) && Ascii.eqb char backslash).
    { destruct rest as [|c1 rest']; [reflexivity|].
      do 2 f_equal. cbn [List.length] in Hn.
      cbn [has_char existsb] in Hrest.
      apply orb_false_iff in Hrest as [_ Hrest'].
      apply IH; [lia | exact Hrest']. }
    destruct (is_quote char && negb in_char && negb in_string);
      [apply Hcons|].
    destruct (opt_eqb char string_char && in_string); [apply Hcons|].
    destruct (Ascii.eqb char squote && negb in_string && negb in_char);
      [apply Hcons|].
    destruct (Ascii.eqb char squote && in_char); [apply Hcons|].
    destruct (negb in_string && negb in_char); apply Hcons.
Qed.

(** A text without any slash has no comment: [_remove_comments] returns
    it unchanged, whatever its quotes and backslashes. *)
Theorem remove_comments_no_slash_unchanged (content : str) :
  has_char slash content = false -> _remove_comments content = content.
Proof.
  intros H. apply (remove_comments_loop_no_slash (List.length content));
    [lia | exact H].
Qed.

Lemma remove_comments_no_slash_unchanged_witness :
  _remove_comments (s2l "char c = '\''; s = " ++ quoted "a\\b" ++ s2l ";")
  = s2l "char c = '\''; s = " ++ quoted "a\\b" ++ s2l ";".
Proof. apply remove_comments_no_slash_unchanged. reflexivity. Defined.

Lemma remove_comments_inside_literal (q : ascii) (body post : str) :
  is_quote q = true ->
  literal_body q body ->
  remove_comments_loop (body ++ q :: post) true false (Some q)
  = body ++ q :: remove_comments_loop post false false None.
Proof.
  intros Hq Hbody. induction Hbody as [|c s Hc Hb _ IH|c s _ IH].
  - cbn [app remove_comments_loop orb negb andb opt_eqb].
    destruct (is_quote_cases q Hq) as [-> | ->]; reflexivity.
  - cbn [app remove_comments_loop orb negb andb opt_eqb].
    rewrite (ascii_eqb_neq c backslash Hb), (ascii_eqb_neq c q Hc).
    rewrite !andb_false_r. cbn [andb]. rewrite IH. reflexivity.
  - cbn [app remove_comments_loop orb andb]. rewrite ascii_eqb_refl.
    rewrite IH. reflexivity.
Qed.

Lemma remove_comments_plain_prefix (pre rest : str) :
  forall string_char,
    plain pre = true ->
    remove_comments_loop (pre ++ rest) false false string_char
    = pre ++ remove_comments_loop rest false false string_char.
Proof.
  induction pre as [|char pre IH]; intros string_char Hp; [reflexivity|].
  apply plain_cons in Hp as (Hq & Hs & Hsl & Hpre).
  cbn [app remove_comments_loop orb andb negb].
  rewrite Hq, Hs, Hsl, (andb_false_r (opt_eqb char string_char)).
  cbn [andb]. rewrite (IH _ Hpre). destruct (pre ++ rest); reflexivity.
Qed.

(** A string or character literal met in plain code is copied verbatim,
    comment openers and all, and the stripping goes on after it. *)
Theorem remove_comments_keeps_literal (pre body post : str) (q : ascii) :
  plain pre = true ->
  is_quote q = true ->
  literal_body q body ->
  _remove_comments (pre ++ q :: body ++ q :: post)
  = pre ++ q :: body ++ q :: _remove_comments post.
Proof.
  intros Hp Hq Hbody. unfold _remove_comments.
  rewrite (remove_comments_plain_prefix _ _ _ Hp). f_equal.
  cbn [remove_comments_loop orb andb negb]. rewrite Hq. cbn [andb].
  f_equal. apply remove_comments_inside_literal; assumption.
Qed.

Lemma remove_comments_keeps_literal_witness :
  _remove_comments text_url = text_url.
Proof.
  change text_url
    with (s2l "url = " ++ dquote :: s2l "http://host/*path*/"
            ++ dquote :: s2l "; n++;").
  rewrite (remove_comments_keeps_literal (s2l "url = ")
             (s2l "http://host/*path*/") (s2l "; n++;") dquote).
  - reflexivity.
  - reflexivity.
  - reflexivity.
  - repeat (apply body_char; [discriminate | discriminate |]).
    apply body_end.
Defined.

(** A closed block comment met in plain code leaves exactly the newlines
    it contains, so the lines after it keep their numbers. *)
Theorem remove_comments_block_comment_in_code (pre body post : str) :
  plain pre = true ->
  contains (body ++ [star]) [star; slash] = false ->
  _remove_comments (pre ++ slash :: star :: body ++ star :: slash :: post)
  = pre ++ filter (Ascii.eqb newline) body ++ _remove_comments post.
Proof.
  intros Hp Hbody. unfold _remove_comments.
  rewrite (remove_comments_plain_prefix _ _ _ Hp). f_equal.
  apply remove_comments_block_comment. exact Hbody.
Qed.

Lemma remove_comments_block_comment_in_code_witness :
  _remove_comments text_block_comment
  = s2l "a = 1; " ++ newline :: s2l " b = 2;".
Proof.
  apply (remove_comments_block_comment_in_code (s2l "a = 1; ")
           (s2l " one" ++ newline :: s2l "two ") (s2l " b = 2;"));
    reflexivity.
Defined.

(** ** Boundary Detector: what an accepted line looks like *)

Lemma drop_prefix_startswith (p s r : str) :
  drop_prefix p s = Some r -> startswith s p = true.
Proof.
  intros H. apply drop_prefix_Some in H. subst s. apply startswith_app.
Qed.

Lemma search_from_contains (name s : str) :
  forall p, search_from name p s = true -> contains s name = true.
Proof.
  induction s as [|c s IH]; intros p; cbn [search_from]; intros H;
    apply orb_true_iff in H as [H | H].
  - unfold match_here in H. apply andb_true_iff in H as [_ H].
    destruct (drop_prefix name []) as [r|] eqn:E; [|discriminate].
    apply contains_here. apply (drop_prefix_startswith _ _ _ E).
  - discriminate.
  - unfold match_here in H. apply andb_true_iff in H as [_ H].
    destruct (drop_prefix name (c :: s)) as [r|] eqn:E; [|discriminate].
    apply contains_here. apply (drop_prefix_startswith _ _ _ E).
  - cbn [contains]. rewrite (IH _ H). apply orb_true_r.
Qed.

Lemma search_has_lparen (name s : str) (p : option ascii) :
  search_from name p s = true -> has_char lparen s = true.
Proof.
  intros H. destruct (has_char lparen s) eqn:E; [reflexivity|].
  rewrite (search_needs_lparen name s p E) in H. discriminate.
Qed.

Lemma has_char_app (c : ascii) (a b : str) :
  has_char c (a ++ b) = has_char c a || has_char c b.
Proof. unfold has_char. apply existsb_app. Qed.

(** A line is accepted as the start of a definition only if it is a line
    of the text, is not blank, does not end with a semicolon and is not a
    preprocessor directive, and the function name and an opening
    parenthesis occur in it, or, when it holds no parenthesis, the name
    occurs in it joined with the next line and the parenthesis in the
    next line. *)
Theorem is_function_declaration_sound
    (lines : list str) (i : nat) (function_name : str) :
  _is_function_declaration lines i function_name = true ->
  (i < List.length lines)%nat /\
  strip (nth i lines []) <> [] /\
  endswith (strip (nth i lines [])) [semicolon] = false /\
  startswith (strip (nth i lines [])) [hash] = false /\
  ((contains (strip (nth i lines [])) function_name = true /\
    has_char lparen (strip (nth i lines [])) = true)
   \/
   ((S i < List.length lines)%nat /\
    has_char lparen (strip (nth i lines [])) = false /\
    contains (strip (nth i lines []) ++ space :: strip (nth (S i) lines []))
      function_name = true /\
    has_char lparen (strip (nth (S i) lines [])) = true)).
Proof.
  intros Hacc.
  pose proof (is_function_declaration_in_range _ _ _ Hacc) as Hi.
  split; [exact Hi|].
  assert (Hdir : startswith (strip (nth i lines [])) [hash] = false).
  { destruct (startswith (strip (nth i lines [])) [hash]) eqn:E;
      [|reflexivity].
    rewrite (directive_line_rejected lines i function_name E) in Hacc.
    discriminate. }
  unfold _is_function_declaration in Hacc.
  apply Nat.ltb_lt in Hi as Hi'. rewrite Hi' in Hacc.
  destruct (str_eqb (strip (nth i lines [])) []) eqn:Ee;
    [discriminate|].
  destruct (endswith (strip (nth i lines [])) [semicolon]) eqn:Es;
    [discriminate|].
  cbn [orb] in Hacc.
  split.
  { intros E. rewrite E in Ee. discriminate. }
  split; [reflexivity|]. split; [exact Hdir|].
  destruct (re_search_call function_name (strip (nth i lines []))
            && negb (_is_inside_string_or_macro (strip (nth i lines []))
                       function_name)) eqn:E1.
  - left. apply andb_true_iff in E1 as [E1 _]. unfold re_search_call in E1.
    split; [apply (search_from_contains _ _ _ E1)
           | apply (search_has_lparen _ _ _ E1)].
  - right.
    destruct ((i + 1 <? List.length lines)%nat
              && negb (has_char lparen (strip (nth i lines [])))) eqn:E2;
      [|discriminate].
    apply andb_true_iff in E2 as [E2 E3]. apply Nat.ltb_lt in E2.
    apply negb_true_iff in E3.
    replace (i + 1)%nat with (S i) in Hacc by lia.
    destruct (re_search_call function_name
                (strip (nth i lines []) ++ space
                   :: strip (nth (S i) lines []))) eqn:E4;
      [|discriminate].
    unfold re_search_call in E4.
    split; [lia|]. split; [exact E3|].
    split; [apply (search_from_contains _ _ _ E4)|].
    apply search_has_lparen in E4.
    rewrite has_char_app, E3 in E4. cbn [orb has_char existsb] in E4.
    change (Ascii.eqb lparen space) with false in E4. exact E4.
Qed.

Lemma is_function_declaration_sound_witness :
  contains (strip (nth 0 lines_two_line_signature [])
              ++ space :: strip (nth 1 lines_two_line_signature []))
    (s2l "foo") = true.
Proof.
  destruct (is_function_declaration_sound lines_two_line_signature 0
              (s2l "foo")) as (_ & _ & _ & _ & [[_ H] | (_ & _ & H & _)]).
  - reflexivity.
  - discriminate H.
  - exact H.
Defined.

(** ** Parsing one file: no candidate, first candidate, ties *)

Lemma declaration_indices_first (lines : list str) (name : str) (n : nat) :
  forall i first,
    (i <= first < i + n)%nat ->
    _is_function_declaration lines first name = true ->
    (forall j, (i <= j < first)%nat ->
               _is_function_declaration lines j name = false) ->
    exists others,
      declaration_indices lines name i n = first :: others.
Proof.
  induction n as [|n IH]; intros i first Hr Hf Hbefore; [lia|].
  cbn [declaration_indices].
  destruct (Nat.eq_dec i first) as [-> | Hne].
  - rewrite Hf. eexists. reflexivity.
  - rewrite (Hbefore i) by lia.
    apply IH; [lia | exact Hf|]. intros j Hj. apply Hbefore. lia.
Qed.

(** [_parse_function] answers "not found" exactly when the Boundary
    Detector accepts no line of the text, with or without a line number
    and whether or not the comments are stripped first. *)
Theorem parse_function_none_iff
    (content function_name : str) (line_number : option Z)
    (remove_comments : bool) :
  let lines :=
    split newline
      (if remove_comments then _remove_comments content else content) in
  _parse_function content function_name line_number remove_comments = None
  <->
  (forall i, (i < List.length lines)%nat ->
             _is_function_declaration lines i function_name = false).
Proof.
  intros lines. unfold _parse_function. fold lines.
  pose proof (declaration_indices_In lines function_name
                (List.length lines) 0) as HIn.
  destruct (declaration_indices lines function_name 0 (List.length lines))
    as [|first others] eqn:E.
  - split; [|reflexivity]. intros _ i Hi.
    destruct (_is_function_declaration lines i function_name) eqn:Ed;
      [|reflexivity].
    exfalso. apply (proj2 (HIn i)). split; [lia | exact Ed].
  - split.
    + destruct line_number; discriminate.
    + intros Hnone. exfalso.
      destruct (proj1 (HIn first) (or_introl eq_refl)) as [Hr Hd].
      rewrite Hnone in Hd by lia. discriminate.
Qed.

(** Without a line number, [_parse_function] extracts from the first
    line that the Boundary Detector accepts. *)
Theorem parse_function_first_candidate
    (content function_name : str) (remove_comments : bool) (first : nat) :
  let lines :=
    split newline
      (if remove_comments then _remove_comments content else content) in
  (first < List.length lines)%nat ->
  _is_function_declaration lines first function_name = true ->
  (forall j, (j < first)%nat ->
             _is_function_declaration lines j function_name = false) ->
  _parse_function content function_name None remove_comments
  = Some (_extract_complete_function lines first function_name).
Proof.
  intros lines Hlt Hf Hbefore. unfold _parse_function. fold lines.
  destruct (declaration_indices_first lines function_name (List.length lines)
              0 first) as [others ->].
  - lia.
  - exact Hf.
  - intros j Hj. apply Hbefore. lia.
  - reflexivity.
Qed.

Lemma parse_function_first_candidate_witness :
  _parse_function text_two_candidates (s2l "f") None false
  = Some (_extract_complete_function (split newline text_two_candidates) 0
            (s2l "f")).
Proof.
  apply (parse_function_first_candidate text_two_candidates (s2l "f") false 0).
  - vm_compute. lia.
  - reflexivity.
  - intros j Hj. lia.
Defined.

Lemma declaration_indices_sorted (lines : list str) (name : str) (n : nat) :
  forall i x, In x (declaration_indices lines name i n) -> (i <= x)%nat.
Proof.
  intros i x H. apply declaration_indices_In in H. lia.
Qed.

Lemma declaration_indices_cons (lines : list str) (name : str) (n : nat) :
  forall i first others,
    declaration_indices lines name i n = first :: others ->
    forall x, In x others -> (first < x)%nat.
Proof.
  induction n as [|n IH]; intros i first others; cbn [declaration_indices];
    [discriminate|].
  destruct (_is_function_declaration lines i name).
  - intros H. injection H as <- <-. intros x Hx.
    apply declaration_indices_sorted in Hx. lia.
  - apply IH.
Qed.

Lemma min_by_stays (key : nat -> Z) (l : list nat) (b : nat) :
  (forall x, In x l -> (key b <= key x)%Z) -> min_by key b l = b.
Proof.
  revert b. induction l as [|x l IH]; intros b H; [reflexivity|].
  cbn [min_by]. destruct (key x <? key b)%Z eqn:E.
  - apply Z.ltb_lt in E. specialize (H x (or_introl eq_refl)). lia.
  - apply IH. intros y Hy. apply H. right. exact Hy.
Qed.

(** With the line number 0 the closest candidate is the first one. *)
Lemma parse_function_line_zero
    (content function_name : str) (remove_comments : bool) :
  _parse_function content function_name (Some 0%Z) remove_comments
  = _parse_function content function_name None remove_comments.
Proof.
  unfold _parse_function.
  destruct (declaration_indices _ function_name 0 _) as [|first others] eqn:E;
    [reflexivity|].
  rewrite min_by_stays; [reflexivity|].
  intros x Hx. apply (declaration_indices_cons _ _ _ _ _ _ E) in Hx.
  unfold line_distance. lia.
Qed.

Lemma declaration_indices_increasing (lines : list str) (name : str)
    (n : nat) :
  forall i, increasing (declaration_indices lines name i n).
Proof.
  induction n as [|n IH]; intros i; cbn [declaration_indices]; [exact I|].
  destruct (_is_function_declaration lines i name); [|apply IH].
  cbn [increasing]. split; [|apply IH].
  intros y Hy. apply declaration_indices_sorted in Hy. lia.
Qed.

Lemma min_by_earliest (key : nat -> Z) (l : list nat) :
  forall b,
    increasing (b :: l) ->
    forall x, In x (b :: l) -> key x = key (min_by key b l) ->
              (min_by key b l <= x)%nat.
Proof.
  induction l as [|y l IH]; intros b Hinc x Hx Hk.
  - destruct Hx as [<- | []]. cbn. lia.
  - cbn [min_by] in Hk |- *. cbn [increasing] in Hinc.
    destruct Hinc as (Hb & Hy & Hl).
    destruct (key y <? key b)%Z eqn:E.
    + apply Z.ltb_lt in E.
      pose proof (min_by_least key l y y (or_introl eq_refl)) as Hmin.
      destruct Hx as [<- | Hx]; [lia|].
      apply IH; [split; assumption | exact Hx | exact Hk].
    + apply Z.ltb_ge in E.
      assert (Hinc' : increasing (b :: l)).
      { split; [|exact Hl]. intros z Hz. apply Hb. right. exact Hz. }
      destruct Hx as [<- | [<- | Hx]].
      * apply IH; [exact Hinc' | left; reflexivity | exact Hk].
      * pose proof (min_by_least key l b b (or_introl eq_refl)) as Hmin.
        assert (Hkb : key b = key (min_by key b l)) by lia.
        pose proof (IH b Hinc' b (or_introl eq_refl) Hkb) as Hle.
        specialize (Hb y (or_introl eq_refl)). lia.
      * apply IH; [exact Hinc' | right; exact Hx | exact Hk].
Qed.

(** With a line number, when several candidates are at the least
    distance from it, [_parse_function] extracts from the earliest of
    them. *)
Theorem parse_function_tie_earliest
    (content function_name : str) (line_number : Z) (remove_comments : bool) :
  let lines :=
    split newline
      (if remove_comments then _remove_comments content else content) in
  (exists i, (i < List.length lines)%nat /\
             _is_function_declaration lines i function_name = true) ->
  exists best,
    _parse_function content function_name (Some line_number) remove_comments
    = Some (_extract_complete_function lines best function_name) /\
    _is_function_declaration lines best function_name = true /\
    (forall m, _is_function_declaration lines m function_name = true ->
               line_distance line_number m = line_distance line_number best ->
               (best <= m)%nat).
Proof.
  intros lines [i [Hi Hd]]. unfold _parse_function. fold lines.
  pose proof (declaration_indices_In lines function_name
                (List.length lines) 0) as HIn.
  pose proof (declaration_indices_increasing lines function_name
                (List.length lines) 0) as Hinc.
  destruct (declaration_indices lines function_name 0 (List.length lines))
    as [|first others] eqn:E.
  - exfalso. apply (proj2 (HIn i)). split; [lia | exact Hd].
  - exists (min_by (line_distance line_number) first others).
    split; [reflexivity|].
    pose proof (min_by_In (line_distance line_number) others first) as Hb.
    apply HIn in Hb. split; [apply Hb|].
    intros m Hm Hdist. apply min_by_earliest; [exact Hinc | | exact Hdist].
    apply HIn. split; [|exact Hm].
    apply is_function_declaration_in_range in Hm. lia.
Qed.

Lemma parse_function_tie_earliest_witness :
  _parse_function text_tie (s2l "f") (Some 3%Z) false
  = Some (join_nl (map s2l ["int f(int x) {"; "  return x;"; "}"]%string)).
Proof.
  destruct (parse_function_tie_earliest text_tie (s2l "f") 3%Z false)
    as (best & Hres & Hd & Hties).
  - exists 0%nat. split; [vm_compute; lia | reflexivity].
  - rewrite Hres. specialize (Hties 0%nat eq_refl).
    pose proof (is_function_declaration_in_range _ _ _ Hd) as Hr.
    vm_compute in Hr.
    destruct best as [|[|[|[|[|[|[|b]]]]]]];
      try reflexivity; try (vm_compute in Hd; discriminate).
Defined.

(** ** Brace Matcher: the shape of every result *)

Lemma find_brace_split (l : list str) :
  exists k,
    (k <= List.length l)%nat /\ (l <> [] -> 1 <= k)%nat /\
    fst (fst (find_brace l)) = firstn k l /\
    snd (fst (find_brace l)) = skipn k l.
Proof.
  induction l as [|x l (k & Hk & Hpos & Hacc & Hrem)].
  - exists 0%nat. cbn. repeat split; try lia. congruence.
  - cbn [find_brace]. destruct (has_char lbrace x).
    + exists 1%nat. cbn. repeat split; lia.
    + destruct (find_brace l) as [[acc rem] found].
      cbn [fst snd] in *. exists (S k). cbn [List.length firstn skipn].
      repeat split; try lia; congruence.
Qed.

Lemma match_braces_prefix (rest : list str) :
  forall c, exists k,
    (k <= List.length rest)%nat /\ match_braces rest c = firstn k rest.
Proof.
  induction rest as [|y rest IH]; intros c.
  - exists 0%nat. split; [cbn; lia | reflexivity].
  - cbn [match_braces]. destruct (0 <? c)%Z.
    + destruct (_ =? 0)%Z.
      * exists 1%nat. split; [cbn; lia | reflexivity].
      * destruct (IH (c + _count_braces_in_text y)%Z) as (k & Hk & ->).
        exists (S k). split; [cbn; lia | reflexivity].
    + exists 0%nat. split; [cbn; lia | reflexivity].
Qed.

(** Whatever the lines and the braces, the text extracted is a run of
    consecutive whole lines that begins with the start line: the first
    [k] lines from the start index on, joined by newlines, with [k >= 1]
    when the start index is a line of the text. *)
Theorem extract_complete_function_block
    (lines : list str) (start_idx : nat) (function_name : str) :
  exists k,
    (k <= List.length lines - start_idx)%nat /\
    ((start_idx < List.length lines)%nat -> (1 <= k)%nat) /\
    _extract_complete_function lines start_idx function_name
    = join_nl (firstn k (skipn start_idx lines)).
Proof.
  unfold _extract_complete_function.
  pose proof (length_skipn start_idx lines) as Hlen.
  destruct (find_brace_split (skipn start_idx lines))
    as (k & Hk & Hpos & Hacc & Hrem).
  assert (Hne : (start_idx < List.length lines)%nat ->
                skipn start_idx lines <> []).
  { intros Hlt E. rewrite E in Hlen. cbn in Hlen. lia. }
  destruct (find_brace (skipn start_idx lines)) as [[acc rem] found].
  cbn [fst snd] in Hacc, Hrem. subst acc rem.
  destruct found; cbn [negb].
  - destruct (match_braces_prefix (skipn k (skipn start_idx lines))
                (_count_braces_in_lines (firstn k (skipn start_idx lines))))
      as (j & Hj & ->).
    exists (k + j)%nat. rewrite length_skipn in Hj.
    split; [lia|]. split; [intros Hlt; specialize (Hpos (Hne Hlt)); lia|].
    rewrite firstn_add. reflexivity.
  - exists k. split; [lia|]. split; [|reflexivity].
    intros Hlt. apply Hpos, Hne, Hlt.
Qed.

Lemma extract_complete_function_block_witness :
  exists k,
    (1 <= k)%nat /\
    _extract_complete_function lines_overclosed 0 (s2l "f")
    = join_nl (firstn k (skipn 0 lines_overclosed)).
Proof.
  destruct (extract_complete_function_block lines_overclosed 0 (s2l "f"))
    as (k & _ & Hpos & Hres).
  exists k. split; [apply Hpos; simpl; lia | exact Hres].
Defined.

(** ** A text of one line *)

Lemma declaration_indices_single (line name : str) :
  declaration_indices [line] name 0 1
  = if _is_function_declaration [line] 0 name then [0%nat] else [].
Proof.
  cbn [declaration_indices].
  destruct (_is_function_declaration [line] 0 name); reflexivity.
Qed.

Lemma extract_single_line (line name : str) :
  _extract_complete_function [line] 0 name = line.
Proof.
  unfold _extract_complete_function. cbn [skipn find_brace].
  destruct (has_char lbrace line); reflexivity.
Qed.

(** On a text of a single line, [_parse_function] returns the whole line
    when the Boundary Detector accepts it, balanced or not, and nothing
    otherwise: the text [void foo(int x) { return; }] comes back as it
    is. *)
Theorem parse_function_single_line
    (content function_name : str) (line_number : option Z) :
  has_char newline content = false ->
  _parse_function content function_name line_number false
  = if _is_function_declaration [content] 0 function_name
    then Some content else None.
Proof.
  intros Hnl. unfold _parse_function.
  rewrite (split_no_sep newline content Hnl). cbn [List.length].
  rewrite declaration_indices_single.
  destruct (_is_function_declaration [content] 0 function_name);
    [|reflexivity].
  destruct line_number; cbn [min_by]; rewrite extract_single_line;
    reflexivity.
Qed.

Lemma parse_function_single_line_witness :
  _parse_function (s2l "void foo(int x) { return; }") (s2l "foo") None false
  = Some (s2l "void foo(int x) { return; }").
Proof.
  rewrite parse_function_single_line; reflexivity.
Defined.

(** ** The source files of a tree *)

Lemma files_of_In (dirpath : path) (ch : list entry) (p : path) (name : str)
    (data : result str) :
  In (p, name, data) (files_of dirpath ch)
  <-> p = dirpath ++ [name] /\ In (File name data) ch.
Proof.
  induction ch as [|[n d|n sub] ch IH]; cbn [files_of In].
  - tauto.
  - rewrite IH. split.
    + intros [H | [Hp Hin]].
      * injection H as <- <- <-. split; [reflexivity | left; reflexivity].
      * split; [exact Hp | right; exact Hin].
    + intros [Hp [H | Hin]].
      * injection H as -> ->. left. subst p. reflexivity.
      * right. split; assumption.
  - rewrite IH. split.
    + intros [Hp Hin]. split; [exact Hp | right; exact Hin].
    + intros [Hp [H | Hin]]; [discriminate | split; assumption].
Qed.

Lemma walk_entry_dir_at (e : entry) :
  forall parent dp ch,
    In (dp, ch) (walk_entry parent e) ->
    exists dn sub q,
      e = Dir dn sub /\ dp = parent ++ dn :: q /\ dir_at q ch sub.
Proof.
  induction e as [n d|dn sub IH] using entry_ind_nested;
    intros parent dp ch Hin; cbn [walk_entry] in Hin.
  - destruct Hin.
  - exists dn, sub. destruct Hin as [Heq | Hin].
    + injection Heq as <- <-. exists []. repeat split. apply dir_here.
    + apply in_flat_map in Hin as (e' & He' & Hin).
      rewrite Forall_forall in IH.
      destruct (IH e' He' _ _ _ Hin) as (dn' & sub' & q & -> & -> & Hd).
      exists (dn' :: q). split; [reflexivity|]. split.
      * rewrite <- app_assoc. reflexivity.
      * apply (dir_below sub dn' sub' q ch He' Hd).
Qed.

Lemma walk_dir_dir_at (parent : path) (tree : list entry) (dp : path)
    (ch : list entry) :
  In (dp, ch) (walk_dir parent tree) ->
  exists q, dp = parent ++ q /\ dir_at q ch tree.
Proof.
  intros [Heq | Hin].
  - injection Heq as <- <-. exists []. split;
      [rewrite app_nil_r; reflexivity | apply dir_here].
  - apply in_flat_map in Hin as (e & He & Hin).
    destruct (walk_entry_dir_at e _ _ _ Hin) as (dn & sub & q & -> & -> & Hd).
    exists (dn :: q). split; [reflexivity|].
    apply (dir_below tree dn sub q ch He Hd).
Qed.

Lemma dir_at_walk_dir (q : path) (ch tree : list entry) :
  dir_at q ch tree ->
  forall parent, In (parent ++ q, ch) (walk_dir parent tree).
Proof.
  induction 1 as [children | children d sub q ch Hd _ IH]; intros parent.
  - rewrite app_nil_r. left. reflexivity.
  - right. apply in_flat_map. exists (Dir d sub). split; [exact Hd|].
    cbn [walk_entry]. fold (walk_dir (parent ++ [d]) sub).
    specialize (IH (parent ++ [d])). rewrite <- app_assoc in IH. exact IH.
Qed.

(** [_get_all_source_files] lists exactly the files of the tree, at any
    depth, whose name has one of the seven suffixes whatever its case,
    each with its path and data; a directory is never listed. *)
Theorem get_all_source_files_spec
    (tree : list entry) (p : path) (data : result str) :
  In (p, data) (_get_all_source_files tree)
  <-> exists name, file_at p name data tree /\ is_source_name name = true.
Proof.
  rewrite get_all_source_files_walk.
  change (os_walk tree) with (walk_dir [] tree). split.
  - intros Hin. apply in_flat_map in Hin as ([dp ch] & Hdir & Hin).
    unfold source_files_of in Hin.
    apply in_flat_map in Hin as ([[p' name] d'] & Hf & Hin).
    destruct (is_source_name name) eqn:Es; [|destruct Hin].
    destruct Hin as [Heq | []]. injection Heq as -> ->.
    apply files_of_In in Hf as [-> Hf].
    destruct (walk_dir_dir_at _ _ _ _ Hdir) as (q & -> & Hd).
    exists name. split; [|exact Es]. exists q, ch. repeat split; assumption.
  - intros (name & (q & ch & Hd & Hf & ->) & Es).
    apply in_flat_map. exists (q, ch). split.
    + apply (dir_at_walk_dir q ch tree Hd []).
    + unfold source_files_of. apply in_flat_map.
      exists (q ++ [name], name, data). split.
      * apply files_of_In. split; [reflexivity | exact Hf].
      * rewrite Es. left. reflexivity.
Qed.

Lemma get_all_source_files_example :
  map fst (_get_all_source_files tree_mixed)
  = [[s2l "MAIN.C"]; [s2l "inc"; s2l "api.hpp"]].
Proof. reflexivity. Qed.

Lemma get_all_source_files_spec_witness :
  In ([s2l "inc"; s2l "api.hpp"], Ok (s2l "int api();"))
     (_get_all_source_files tree_mixed).
Proof.
  apply (proj2 (get_all_source_files_spec tree_mixed
                  [s2l "inc"; s2l "api.hpp"] (Ok (s2l "int api();")))).
  exists (s2l "api.hpp"). split; [|reflexivity].
  exists [s2l "inc"],
    [File (s2l "api.hpp") (Ok (s2l "int api();"));
     File (s2l "Makefile") (Ok (s2l "all:"))].
  split; [|split; [left; reflexivity | reflexivity]].
  apply (dir_below tree_mixed (s2l "inc")
           [File (s2l "api.hpp") (Ok (s2l "int api();"));
            File (s2l "Makefile") (Ok (s2l "all:"))] []).
  - right. right. left. reflexivity.
  - apply dir_here.
Defined.

Lemma parse_function_none_iff_witness :
  _parse_function (s2l "int x;") (s2l "foo") None false = None.
Proof.
  apply (proj2 (parse_function_none_iff (s2l "int x;") (s2l "foo") None
                  false)).
  intros i Hi. assert (i = 0%nat) by (vm_compute in Hi; lia). subst i.
  reflexivity.
Defined.

(** ** Lines read by [readlines] and lines cut by [split] *)

Lemma isspace_newline : isspace newline = true.
Proof. reflexivity. Qed.

Lemma lstrip_all_space (l : str) :
  forallb isspace l = true -> forall r, lstrip (l ++ r) = lstrip r.
Proof.
  induction l as [|c l IH]; intros H r; [reflexivity|].
  cbn [forallb] in H. apply andb_true_iff in H as [Hc Hl].
  cbn [app lstrip]. rewrite Hc. apply IH, Hl.
Qed.

Lemma lstrip_keeps (l : str) :
  forallb isspace l = false -> forall r, lstrip (l ++ r) = lstrip l ++ r.
Proof.
  induction l as [|c l IH]; intros H r; [discriminate|].
  cbn [forallb] in H. cbn [app lstrip].
  destruct (isspace c); [|reflexivity].
  cbn [andb] in H. apply IH, H.
Qed.

Lemma strip_snoc_space (l : str) (c : ascii) :
  isspace c = true -> strip (l ++ [c]) = strip l.
Proof.
  intros Hc. unfold strip, rstrip.
  destruct (forallb isspace l) eqn:E.
  - rewrite (lstrip_all_space l E [c]).
    assert (Hl : lstrip l = [])
      by (rewrite <- (app_nil_r l); apply (lstrip_all_space l E [])).
    rewrite Hl. cbn [lstrip]. rewrite Hc. reflexivity.
  - rewrite (lstrip_keeps l E [c]), rev_app_distr. cbn [rev app lstrip].
    rewrite Hc. reflexivity.
Qed.

Lemma split_nonempty (sep : ascii) (s : str) : split sep s <> [].
Proof.
  destruct s as [|c s]; cbn [split]; [discriminate|].
  destruct (Ascii.eqb c sep); [discriminate|].
  destruct (split sep s); discriminate.
Qed.

Lemma readlines_aux_split (s : str) :
  forall cur,
    readlines_aux cur s
    = with_newlines (prepend_line (rev cur) (split newline s)).
Proof.
  induction s as [|c s IH]; intros cur.
  - cbn [readlines_aux split prepend_line with_newlines].
    rewrite app_nil_r. destruct cur as [|x cur]; [reflexivity|].
    cbn [rev]. destruct (rev cur); reflexivity.
  - cbn [readlines_aux split]. destruct (Ascii.eqb c newline) eqn:E.
    + apply Ascii.eqb_eq in E. subst c.
      rewrite (IH []). cbn [rev prepend_line app].
      rewrite app_nil_r.
      pose proof (split_nonempty newline s) as Hne.
      destruct (split newline s) as [|l ls]; [congruence|].
      reflexivity.
    + rewrite (IH (c :: cur)).
      pose proof (split_nonempty newline s) as Hne.
      destruct (split newline s) as [|l ls]; [congruence|].
      cbn [prepend_line rev]. rewrite <- app_assoc. reflexivity.
Qed.

Lemma readlines_split (s : str) :
  readlines s = with_newlines (split newline s).
Proof.
  unfold readlines. rewrite readlines_aux_split. cbn [rev].
  destruct (split newline s); reflexivity.
Qed.

Lemma sline_with_newlines (ls : list str) :
  forall i, sline (with_newlines ls) i = sline ls i.
Proof.
  induction ls as [|l ls IH]; intros i; [reflexivity|].
  destruct ls as [|l' ls].
  - cbn [with_newlines]. destruct l as [|c l]; [|reflexivity].
    unfold sline. cbn [List.length]. destruct i as [|i]; reflexivity.
  - change (with_newlines (l :: l' :: ls))
      with ((l ++ [newline]) :: with_newlines (l' :: ls)).
    destruct i as [|i].
    + unfold sline. cbn [List.length Nat.ltb Nat.leb nth].
      apply strip_snoc_space, isspace_newline.
    + specialize (IH i). unfold sline in IH |- *.
      cbn [List.length nth].
      change (S i <? S (List.length (with_newlines (l' :: ls))))%nat
        with (i <? List.length (with_newlines (l' :: ls)))%nat.
      change (S i <? S (List.length (l' :: ls)))%nat
        with (i <? List.length (l' :: ls))%nat.
      exact IH.
Qed.

(** The Boundary Detector reads the lines through [sline] only. *)
Lemma is_function_declaration_sline (l1 l2 : list str) (i : nat)
    (name : str) :
  sline l1 i = sline l2 i ->
  sline l1 (S i) = sline l2 (S i) ->
  _is_function_declaration l1 i name = _is_function_declaration l2 i name.
Proof.
  assert (Hform : forall l,
            _is_function_declaration l i name
            = let cur := sline l i in
              if str_eqb cur [] || endswith cur [semicolon] then false
              else if re_search_call name cur
                      && negb (_is_inside_string_or_macro cur name)
              then true
              else if negb (has_char lparen cur)
              then re_search_call name (cur ++ space :: sline l (S i))
                   && negb (_is_inside_string_or_macro
                              (cur ++ space :: sline l (S i)) name)
                   && negb (endswith cur [semicolon])
              else false).
  { intros l. unfold _is_function_declaration, sline.
    replace (i + 1)%nat with (S i) by lia.
    destruct (i <? List.length l)%nat eqn:Ei; [|reflexivity].
    cbv zeta.
    destruct (str_eqb _ [] || endswith _ [semicolon]); [reflexivity|].
    destruct (re_search_call name (strip (nth i l []))
              && negb (_is_inside_string_or_macro (strip (nth i l [])) name));
      [reflexivity|].
    destruct (S i <? List.length l)%nat eqn:Es; cbn [andb].
    - destruct (negb (has_char lparen (strip (nth i l [])))); [|reflexivity].
      destruct (_ && _ && _); reflexivity.
    - destruct (has_char lparen (strip (nth i l []))) eqn:Ep;
        cbn [negb]; [reflexivity|].
      unfold re_search_call at 1.
      rewrite search_needs_lparen; [reflexivity|].
      rewrite has_char_app, Ep. reflexivity. }
  intros H0 H1. rewrite (Hform l1), (Hform l2), H0, H1. reflexivity.
Qed.

(** The Boundary Detector accepts the same indices on the lines that
    [find_function_locations] reads with [readlines] and on the lines
    that [_parse_function] cuts with [split]: the locations found are the
    candidates of the extraction. *)
Theorem detector_same_on_readlines_and_split
    (content function_name : str) (i : nat) :
  _is_function_declaration (readlines content) i function_name
  = _is_function_declaration (split newline content) i function_name.
Proof.
  apply is_function_declaration_sline; rewrite readlines_split;
    apply sline_with_newlines.
Qed.

(** ** What the tree-wide operations return *)

Lemma locations_in_In (fp : path) (content name : str) (p : path) (n : nat) :
  In (p, n) (locations_in fp content name)
  <-> p = fp /\
      exists i, n = S i /\
                _is_function_declaration (readlines content) i name = true.
Proof.
  unfold locations_in. rewrite in_map_iff. split.
  - intros (i & Heq & Hin). injection Heq as <- <-.
    apply declaration_indices_In in Hin as [_ Hd].
    split; [reflexivity|]. exists i. split; [lia | exact Hd].
  - intros (-> & i & -> & Hd). exists i. split; [f_equal; lia|].
    apply declaration_indices_In. split; [|exact Hd].
    apply is_function_declaration_in_range in Hd. lia.
Qed.

Lemma locations_over_In (files : list (path * result str)) (name : str) :
  forall locs,
    locations_over files name = Ok locs ->
    forall p n,
      In (p, n) locs
      <-> exists content,
            In (p, Ok content) files /\
            In (p, n) (locations_in p content name).
Proof.
  induction files as [|[fp data] files IH]; intros locs;
    cbn [locations_over].
  - intros H. injection H as <-. intros p n. split; [intros [] |].
    intros (c & [] & _).
  - destruct data as [content|e].
    + destruct (locations_over files name) as [locs'|e'] eqn:E;
        cbn [bind]; [|discriminate].
      intros H. injection H as <-. intros p n.
      rewrite in_app_iff, (IH locs' eq_refl p n). split.
      * intros [Hin | (c & Hf & Hin)].
        -- pose proof (proj1 (locations_in_In _ _ _ _ _) Hin) as [-> _].
           exists content. split; [left; reflexivity | exact Hin].
        -- exists c. split; [right; exact Hf | exact Hin].
      * intros (c & [Heq | Hf] & Hin).
        -- injection Heq as -> ->. left. exact Hin.
        -- right. exists c. split; assumption.
    + destruct (caught e); [|discriminate].
      intros H p n. rewrite (IH locs H p n). split.
      * intros (c & Hf & Hin). exists c. split; [right; exact Hf | exact Hin].
      * intros (c & [Heq | Hf] & Hin); [discriminate|].
        exists c. split; assumption.
Qed.

(** When [find_function_locations] returns, it reports exactly the pairs
    of a readable source file and the 1-based number of a line of that
    file, as [readlines] reads it, that the Boundary Detector accepts. *)
Theorem find_function_locations_spec
    (tree : list entry) (function_name : str) (locs : list (path * nat))
    (p : path) (n : nat) :
  find_function_locations tree function_name = Ok locs ->
  (In (p, n) locs
   <-> exists content i,
         In (p, Ok content) (_get_all_source_files tree) /\
         n = S i /\
         _is_function_declaration (readlines content) i function_name
         = true).
Proof.
  unfold find_function_locations. intros H.
  rewrite (locations_over_In _ _ _ H p n). split.
  - intros (c & Hf & Hin).
    apply locations_in_In in Hin as (_ & i & -> & Hd).
    exists c, i. repeat split; assumption.
  - intros (c & i & Hf & -> & Hd). exists c. split; [exact Hf|].
    apply locations_in_In. split; [reflexivity|].
    exists i. split; [reflexivity | exact Hd].
Qed.

Lemma find_function_locations_spec_witness :
  In ([s2l "b.c"], 40%nat)
     [([s2l "a.c"], 10%nat); ([s2l "b.c"], 40%nat)].
Proof.
  apply (proj2 (find_function_locations_spec tree_two_bars (s2l "bar")
                  [([s2l "a.c"], 10%nat); ([s2l "b.c"], 40%nat)]
                  [s2l "b.c"] 40%nat ltac:(vm_compute; reflexivity))).
  exists (file_bar_at 40 "  return x + 1;"), 39%nat.
  split; [right; left; reflexivity|]. split; [reflexivity|].
  vm_compute. reflexivity.
Defined.

Lemma list_over_In (files : list (path * result str)) (rc : bool) :
  forall l,
    list_over files rc = Ok l ->
    forall name signature p,
      In (name, signature, p) l
      <-> exists content,
            In (p, Ok content) files /\
            In (name, signature) (list_functions_in_content content rc).
Proof.
  induction files as [|[fp data] files IH]; intros l; cbn [list_over].
  - intros H. injection H as <-. intros name sg p. split; [intros [] |].
    intros (c & [] & _).
  - destruct data as [content|e]; cbn [_list_functions_in_file bind].
    + destruct (list_over files rc) as [l'|e'] eqn:E; cbn [bind];
        [|discriminate].
      intros H. injection H as <-. intros name sg p.
      rewrite in_app_iff, (IH l' eq_refl name sg p). unfold tag.
      rewrite in_map_iff. split.
      * intros [([n' s'] & Heq & Hin) | (c & Hf & Hin)].
        -- injection Heq as -> -> ->. exists content.
           split; [left; reflexivity | exact Hin].
        -- exists c. split; [right; exact Hf | exact Hin].
      * intros (c & [Heq | Hf] & Hin).
        -- injection Heq as -> ->. left. exists (name, sg).
           split; [reflexivity | exact Hin].
        -- right. exists c. split; assumption.
    + destruct (caught e); [|discriminate].
      intros H name sg p. rewrite (IH l H name sg p). split.
      * intros (c & Hf & Hin). exists c. split; [right; exact Hf | exact Hin].
      * intros (c & [Heq | Hf] & Hin); [discriminate|].
        exists c. split; assumption.
Qed.

(** When the tree-wide [list_all_functions] returns, its entries are
    exactly the signatures listed in the readable source files, each one
    tagged with the path of its file. *)
Theorem list_all_functions_tree_spec
    (tree : list entry) (remove_comments : bool)
    (l : list (str * str * path)) (name signature : str) (p : path) :
  list_all_functions tree None remove_comments = Ok l ->
  (In (name, signature, p) l
   <-> exists content,
         In (p, Ok content) (_get_all_source_files tree) /\
         In (name, signature)
            (list_functions_in_content content remove_comments)).
Proof.
  unfold list_all_functions. cbn [truthy_name]. intros H.
  apply (list_over_In _ _ _ H).
Qed.

Lemma list_all_functions_tree_spec_witness :
  In (s2l "bar", s2l "bar(int x)", [s2l "lib"; s2l "util.c"])
     [(s2l "bar", s2l "bar(int x)", [s2l "lib"; s2l "util.c"])].
Proof.
  apply (proj2 (list_all_functions_tree_spec tree_nested false
                  [(s2l "bar", s2l "bar(int x)", [s2l "lib"; s2l "util.c"])]
                  (s2l "bar") (s2l "bar(int x)") [s2l "lib"; s2l "util.c"]
                  ltac:(vm_compute; reflexivity))).
  exists (file_bar_at 2 "  return x;").
  split; [right; left; reflexivity|].
  vm_compute. left. reflexivity.
Defined.

Lemma disambiguate_member (ms : list (path * result str * str))
    (name : str) (ln : option Z) (code : str) :
  Forall (fun m => exists content, match_data m = Ok content) ms ->
  disambiguate ms name ln = Ok (Some code) ->
  exists m, In m ms /\ match_code m = code.
Proof.
  intros Hdata. unfold disambiguate.
  destruct ms as [|[[fp0 d0] c0] [|m1 others]].
  - discriminate.
  - intros H. injection H as <-. eexists. split; [left; reflexivity|].
    reflexivity.
  - assert (Hfirst : Ok (Some c0) = Ok (Some code) ->
              exists m, In m ((fp0, d0, c0) :: m1 :: others) /\
                        match_code m = code).
    { intros H. injection H as <-. eexists.
      split; [left; reflexivity | reflexivity]. }
    destruct (truthy_line ln) as [l|]; [|exact Hfirst].
    destruct (first_verified_spec _ name l Hdata)
      as [(before & m & after & Heq & _ & _ & Hres) | [_ Hres]];
      rewrite Hres; cbn [bind]; [|exact Hfirst].
    intros H. injection H as <-. exists m. split; [|reflexivity].
    rewrite Heq. apply in_or_app. right. left. reflexivity.
Qed.

(** What a tree-wide extraction returns is the text that
    [_parse_function] extracts from one of the readable source files of
    the tree. *)
Theorem extract_tree_wide_provenance
    (tree : list entry) (function_name : str) (line_number : option Z)
    (remove_comments : bool) (code : str) :
  extract_function tree function_name None line_number remove_comments
  = Ok (Some code) ->
  exists p content,
    In (p, Ok content) (_get_all_source_files tree) /\
    _parse_function content function_name line_number remove_comments
    = Some code.
Proof.
  unfold extract_function. cbn [truthy_name].
  unfold _extract_from_directory, extract_from_files.
  destruct (collect_matches (_get_all_source_files tree) function_name
              line_number remove_comments) as [ms|e] eqn:E; cbn [bind];
    [|discriminate].
  pose proof (collect_matches_read _ _ _ _ _ E) as Hread.
  intros H. apply disambiguate_member in H as (m & Hin & <-).
  - rewrite Forall_forall in Hread.
    destruct (Hread m Hin) as (content & Hc & Hf & Hp).
    destruct m as [[fp d] c]. cbn [match_data match_code fst snd] in *.
    subst d. exists fp, content. split; assumption.
  - eapply Forall_impl; [|exact Hread].
    intros m (c & Hc & _). exists c. exact Hc.
Qed.

Lemma extract_tree_wide_provenance_witness :
  exists p content,
    In (p, Ok content) (_get_all_source_files tree_two_bars) /\
    _parse_function content (s2l "bar") (Some 42%Z) false
    = Some (join_nl (map s2l ["int bar(int x) {"; "  return x + 1;"; "}"]
                       %string)).
Proof.
  apply (extract_tree_wide_provenance tree_two_bars (s2l "bar") (Some 42%Z)
           false).
  vm_compute. reflexivity.
Defined.









(** On a file that was read, [_verify_line_number] never raises, and it
    answers yes exactly when the Boundary Detector accepts one of the six
    lines numbered [line_number - 2] to [line_number + 3] (1-based) of
    the text. *)
Theorem verify_line_number_window
    (content function_name : str) (line_number : Z) :
  (_verify_line_number (Ok content) function_name line_number = Ok true
   <-> exists i,
         _is_function_declaration (split newline content) i function_name
         = true /\
         (line_number - 2 <= Z.of_nat i + 1 <= line_number + 3)%Z)
  /\
  (_verify_line_number (Ok content) function_name line_number = Ok true \/
   _verify_line_number (Ok content) function_name line_number = Ok false).
Proof.
  split; [|apply verify_line_number_total]. split.
  - intros H. destruct (verify_line_number_sound _ _ _ H) as (i & _ & Hd & Hr).
    exists i. split; assumption.
  - intros (i & Hd & Hr).
    apply (verify_line_number_complete content function_name line_number i);
      assumption.
Qed.

Lemma verify_line_number_window_witness :
  _verify_line_number (Ok (file_bar_at 40 "  return x + 1;")) (s2l "bar") 38
  = Ok true.
Proof.
  apply (proj2 (proj1 (verify_line_number_window
                         (file_bar_at 40 "  return x + 1;") (s2l "bar")
                         38%Z))).
  exists 39%nat. split; [vm_compute; reflexivity | lia].
Defined.

Lemma collect_matches_line_zero (files : list (path * result str))
    (name : str) (rc : bool) :
  collect_matches files name (Some 0%Z) rc = collect_matches files name None rc.
Proof.
  induction files as [|[fp data] files IH]; [reflexivity|].
  cbn [collect_matches]. unfold _extract_from_file.
  destruct data as [content|e]; cbn [bind].
  - rewrite parse_function_line_zero, IH. reflexivity.
  - rewrite IH. reflexivity.
Qed.

(** The line number 0 is the same as no line number, in a single file
    and tree-wide: the first candidate, and the first match, are taken. *)
Theorem extract_function_line_zero
    (tree : list entry) (function_name : str) (file_name : option str)
    (remove_comments : bool) :
  extract_function tree function_name file_name (Some 0%Z) remove_comments
  = extract_function tree function_name file_name None remove_comments.
Proof.
  unfold extract_function. destruct (truthy_name file_name) as [fname|].
  - destruct (find_by_name fname (os_walk tree)) as [[p data]|];
      [|reflexivity].
    unfold _extract_from_file. destruct data; cbn [bind]; [|reflexivity].
    rewrite parse_function_line_zero. reflexivity.
  - unfold _extract_from_directory, extract_from_files.
    rewrite collect_matches_line_zero.
    destruct (collect_matches _ function_name None remove_comments)
      as [ms|e]; cbn [bind]; [|reflexivity].
    destruct ms as [|[[fp0 d0] c0] [|m1 others]]; reflexivity.
Qed.

(** In a text without opening brace, a header of declarations for
    instance, the Signature Lister finds nothing. *)
Theorem list_functions_needs_brace (content : str) (remove_comments : bool) :
  has_char lbrace
    (if remove_comments then _remove_comments content else content) = false ->
  list_functions_in_content content remove_comments = [].
Proof.
  intros Hno. unfold list_functions_in_content.
  set (text := if remove_comments then _remove_comments content
               else content) in *.
  assert (Hs : Forall (match_at signature_pattern text)
                 (finditer signature_pattern text))
    by exact (scan_sound signature_pattern text [] 0).
  destruct (finditer signature_pattern text) as [|m ms]; [reflexivity|].
  exfalso. apply Forall_inv in Hs.
  destruct (signature_match_properties text m Hs) as (_ & _ & Hb & _).
  apply nth_error_In in Hb. apply has_char_In in Hb. congruence.
Qed.

Lemma list_functions_needs_brace_witness :
  list_functions_in_content
    (s2l "int add(int a, int b);" ++ newline :: s2l "char *name(void);")
    false = [].
Proof. apply list_functions_needs_brace. reflexivity. Defined.

(** ** Literals and line comments in the brace count *)

(** Where the loop of [_count_braces_in_text] stands in code after
    [pre], a string or character literal placed there does not change the
    count of the text, and a line comment placed there ends the count:
    the text counts as it does without them. *)
Theorem count_braces_ignores_literal_and_line_comment
    (pre : str) (count : Z) :
  prefix_state pre false false None 0 = Some (false, false, None, count) ->
  (forall q body post,
     is_quote q = true ->
     literal_body q body ->
     _count_braces_in_text (pre ++ q :: body ++ q :: post)
     = _count_braces_in_text (pre ++ post))
  /\
  (forall comment,
     _count_braces_in_text (pre ++ slash :: slash :: comment)
     = _count_braces_in_text pre).
Proof.
  intros Hpre.
  assert (Happ : forall post,
            _count_braces_in_text (pre ++ post)
            = count_braces_loop post false false None count).
  { intros post. unfold _count_braces_in_text.
    apply (prefix_state_app (List.length pre) pre _ _ _ _ _ post
             (Nat.le_refl _) Hpre). }
  split.
  - intros q body post Hq Hbody. rewrite !Happ.
    apply count_braces_literal_skipped; assumption.
  - intros comment. rewrite Happ.
    pose proof (Happ []) as Hnil. rewrite app_nil_r in Hnil.
    rewrite Hnil. reflexivity.
Qed.

Lemma count_braces_ignores_literal_and_line_comment_witness :
  _count_braces_in_text (s2l "if (x) { y(); // }{{")
  = _count_braces_in_text (s2l "if (x) { y(); ").
Proof.
  apply (proj2 (count_braces_ignores_literal_and_line_comment
                  (s2l "if (x) { y(); ") 1%Z eq_refl)).
Defined.

(** ** Which file a name designates *)

(** With an explicit file name, a file of that name listed in the root
    directory is the one that [extract_function] reads, whatever the
    sub-directories hold; and when a single file of the tree bears the
    name, wherever it lies, it is that one. *)
Theorem extract_function_named_file
    (tree : list entry) (function_name file_name : str)
    (line_number : option Z) (remove_comments : bool) (data : result str) :
  file_name <> [] ->
  (In (File file_name data) tree ->
   (forall d, In (File file_name d) tree -> d = data) ->
   extract_function tree function_name (Some file_name) line_number
     remove_comments
   = _extract_from_file data function_name line_number remove_comments)
  /\
  (file_under file_name data tree ->
   (forall d, file_under file_name d tree -> d = data) ->
   extract_function tree function_name (Some file_name) line_number
     remove_comments
   = _extract_from_file data function_name line_number remove_comments).
Proof.
  intros Hne. split.
  - intros Hin Huniq. unfold extract_function.
    rewrite (truthy_name_nonempty _ Hne).
    change (os_walk tree) with (([] : path, tree)
                                  :: flat_map (walk_entry []) tree).
    cbn [find_by_name].
    destruct (find_in_dir_complete file_name tree data Hin) as [d' Hd].
    rewrite Hd. apply find_in_dir_Some in Hd.
    rewrite (Huniq d' Hd). reflexivity.
  - intros Hu Huniq.
    destruct (extract_function_located tree function_name file_name
                line_number remove_comments Hne (ex_intro _ data Hu))
      as (d' & Hu' & ->).
    rewrite (Huniq d' Hu'). reflexivity.
Qed.

Lemma extract_function_named_file_witness :
  extract_function tree_same_name (s2l "bar") (Some (s2l "util.c")) None false
  = Ok (Some (s2l "int bar(int x) { return 1; }")).
Proof.
  rewrite (proj1 (extract_function_named_file tree_same_name (s2l "bar")
                    (s2l "util.c") None false
                    (Ok (s2l "int bar(int x) { return 1; }"))
                    ltac:(discriminate))).
  - reflexivity.
  - right. left. reflexivity.
  - intros d [Heq | [Heq | []]]; [discriminate|].
    injection Heq as <-. reflexivity.
Defined.

(** ** Suffixes whatever their case *)

Lemma lower_char_dot (c : ascii) :
  Ascii.eqb (lower_char c) dot = Ascii.eqb c dot.
Proof. by_all_chars c. Qed.

Lemma rfind_dot_lower (s : str) :
  forall i found, rfind_dot (lower s) i found = rfind_dot s i found.
Proof.
  induction s as [|c s IH]; intros i found; [reflexivity|].
  cbn [lower map rfind_dot]. rewrite lower_char_dot. apply IH.
Qed.

Lemma suffix_lower (name : str) : suffix (lower name) = lower (suffix name).
Proof.
  unfold suffix. rewrite rfind_dot_lower.
  unfold lower at 1. rewrite length_map.
  destruct (rfind_dot name 0 None) as [i|]; [|reflexivity].
  destruct ((0 <? i)%nat && (i <? List.length name - 1)%nat); [|reflexivity].
  unfold lower. apply skipn_map.
Qed.

Lemma lower_char_idem (c : ascii) : lower_char (lower_char c) = lower_char c.
Proof. by_all_chars c. Qed.

Lemma lower_idem (s : str) : lower (lower s) = lower s.
Proof.
  unfold lower. rewrite map_map. apply map_ext. exact lower_char_idem.
Qed.

(** The case of a file name does not matter to [_get_all_source_files]:
    two names that are equal once in lower case are both recognised as
    source files or both passed over. *)
Theorem is_source_name_case_insensitive (n1 n2 : str) :
  lower n1 = lower n2 -> is_source_name n1 = is_source_name n2.
Proof.
  intros H. unfold is_source_name.
  assert (Hs : lower (suffix n1) = lower (suffix n2)).
  { rewrite <- (lower_idem (suffix n1)), <- (lower_idem (suffix n2)).
    rewrite <- !suffix_lower, H. reflexivity. }
  rewrite Hs. reflexivity.
Qed.

Lemma is_source_name_case_insensitive_witness :
  is_source_name (s2l "Parser.CPP") = is_source_name (s2l "parser.cpp").
Proof. apply is_source_name_case_insensitive. reflexivity. Defined.

(** ** The entries of the Signature Lister *)

Lemma isword_not_space (c : ascii) : isword c = true -> isspace c = false.
Proof. by_all_chars c. Qed.

Lemma lstrip_words (w : str) :
  Forall (fun c => isword c = true) w -> lstrip w = w.
Proof.
  intros H. destruct H as [|c w Hc _]; [reflexivity|].
  cbn [lstrip]. rewrite (isword_not_space c Hc). reflexivity.
Qed.

Lemma strip_words (w : str) :
  Forall (fun c => isword c = true) w -> strip w = w.
Proof.
  intros H. unfold strip, rstrip. rewrite (lstrip_words w H).
  rewrite lstrip_words; [apply rev_involutive|].
  apply Forall_rev. exact H.
Qed.

Lemma plus_wd_classes : classes_sat (fun c => isword c = true) (Plus wd).
Proof. cbv [Plus wd classes_sat]. split; intros c H; exact H. Qed.

(** The second group of every match is a non-empty run of word
    characters. *)
Lemma signature_match_name (st st' : mstate) :
  In st' (run signature_pattern st) ->
  get_cap 2 (caps st') <> [] /\
  Forall (fun c => isword c = true) (get_cap 2 (caps st')).
Proof.
  intros Hin. unfold signature_pattern in Hin.
  do 4 (apply in_run_Cat in Hin as (? & _ & Hin)).
  apply in_run_Cat in Hin as (st5 & Hname & Hin).
  apply in_run_Cat in Hin as (st6 & H6 & Hin).
  apply in_run_Cat in Hin as (st7 & H7 & Hin).
  apply in_run_Cat in Hin as (st8 & Hp & Hin).
  rewrite (run_no_group_caps _ pat_close_no_group _ _ Hin).
  unfold pat_params in Hp. cbn [run] in Hp.
  apply in_map_iff in Hp as (st0 & <- & Hp).
  cbn [set_cap caps get_cap Nat.eqb].
  assert (Hc0 : caps st0 = caps st7).
  { apply (run_no_group_caps (Star (Class not_brace_semi)) I _ _ Hp). }
  assert (Hc7 : caps st7 = caps st6).
  { apply (run_no_group_caps (Chr lparen) I _ _ H7). }
  assert (Hc6 : caps st6 = caps st5).
  { apply (run_no_group_caps (Star sp) I _ _ H6). }
  rewrite Hc0, Hc7, Hc6.
  unfold pat_name in Hname. cbn [run] in Hname.
  apply in_map_iff in Hname as (st00 & <- & Hname).
  cbn [set_cap caps get_cap Nat.eqb].
  destruct (run_consumed _ (Plus wd) plus_wd_classes _ _ Hname)
    as (w & E & Qw & L).
  rewrite (captured_prefix _ _ _ E). split; [|exact Qw].
  intros ->. cbn in L. lia.
Qed.

(** Every entry of the Signature Lister has a non-empty name made of
    word characters, and a signature that is this name followed by the
    parameters between parentheses, the parameters holding neither brace
    nor semicolon. *)
Theorem list_functions_entries_shape
    (content : str) (remove_comments : bool) (name signature : str) :
  In (name, signature) (list_functions_in_content content remove_comments) ->
  name <> [] /\
  Forall (fun c => isword c = true) name /\
  exists params,
    signature = name ++ lparen :: params ++ [rparen] /\
    (forall c, In c params -> c <> lbrace /\ c <> semicolon).
Proof.
  unfold list_functions_in_content.
  set (text := if remove_comments then _remove_comments content
               else content).
  intros Hin. apply in_map_iff in Hin as (m & Hentry & Hm).
  assert (Hs : Forall (match_at signature_pattern text)
                 (finditer signature_pattern text))
    by exact (scan_sound signature_pattern text [] 0).
  rewrite Forall_forall in Hs. specialize (Hs m Hm).
  destruct (signature_match_properties text m Hs) as (_ & _ & _ & Hparams).
  destruct Hs as (st' & others & Hrun & _ & Hcaps).
  assert (Hin' : In st' (run signature_pattern (state_at text (m_start m))))
    by (rewrite Hrun; left; reflexivity).
  destruct (signature_match_name _ _ Hin') as [Hne Hw].
  rewrite <- Hcaps in Hne, Hw.
  rewrite signature_entry_text, (strip_words _ Hw) in Hentry.
  injection Hentry as <- <-.
  split; [exact Hne|]. split; [exact Hw|].
  exists (strip (get_cap 3 (m_caps m))). split; [reflexivity|].
  intros c Hc. apply not_brace_semi_spec.
  rewrite Forall_forall in Hparams. apply Hparams, strip_In, Hc.
Qed.

Lemma list_functions_entries_shape_witness :
  s2l "name" <> [] /\
  Forall (fun c => isword c = true) (s2l "name") /\
  exists params,
    s2l "name(void)" = s2l "name" ++ lparen :: params ++ [rparen] /\
    (forall c, In c params -> c <> lbrace /\ c <> semicolon).
Proof.
  apply (list_functions_entries_shape file_three_definitions false).
  vm_compute. right. left. reflexivity.
Defined.

(** ** One file and the whole tree *)

Lemma find_entry_Some (name : str) (children : list entry) (e : entry) :
  find_entry name children = Some e ->
  In e children /\
  match e with File n _ => n | Dir n _ => n end = name.
Proof.
  induction children as [|x children IH]; cbn [find_entry]; [discriminate|].
  destruct (str_eqb (match x with File n _ => n | Dir n _ => n end) name)
    eqn:E.
  - intros H. injection H as <-. apply str_eqb_eq in E.
    split; [left; reflexivity | exact E].
  - intros H. destruct (IH H) as [Hin Hn]. split; [right; exact Hin | exact Hn].
Qed.

Lemma root_file_listed (tree : list entry) (name : str) (data : result str) :
  In (File name data) tree ->
  is_source_name name = true ->
  In ([name], data) (_get_all_source_files tree).
Proof.
  intros Hin Hs. rewrite get_all_source_files_walk.
  apply in_flat_map. exists ([], tree). split; [left; reflexivity|].
  unfold source_files_of. apply in_flat_map.
  exists ([name], name, data). split.
  - apply (files_of_In [] tree [name] name data).
    split; [reflexivity | exact Hin].
  - rewrite Hs. left. reflexivity.
Qed.

(** For a source file of the root directory designated by its plain
    name, whatever [list_all_functions] lists for that file alone it also
    lists, with the same path, in the listing of the whole tree. *)
Theorem list_single_file_within_tree_listing
    (tree : list entry) (file_name : str) (remove_comments : bool)
    (l1 l2 : list (str * str * path)) :
  file_name <> [] ->
  file_name <> [dot] ->
  has_char slash file_name = false ->
  is_source_name file_name = true ->
  list_all_functions tree (Some file_name) remove_comments = Ok l1 ->
  list_all_functions tree None remove_comments = Ok l2 ->
  forall x, In x l1 -> In x l2.
Proof.
  intros Hne Hdot Hslash Hsrc H1 H2 [[name sg] p] Hx.
  unfold list_all_functions in H1, H2.
  rewrite (truthy_name_nonempty _ Hne) in H1. cbn [truthy_name] in H2.
  unfold components in H1.
  rewrite (split_no_sep _ _ Hslash) in H1. cbn [filter] in H1.
  assert (E1 : str_eqb file_name [] = false).
  { destruct (str_eqb file_name []) eqn:E; [|reflexivity].
    apply str_eqb_eq in E. congruence. }
  assert (E2 : str_eqb file_name [dot] = false).
  { destruct (str_eqb file_name [dot]) eqn:E; [|reflexivity].
    apply str_eqb_eq in E. congruence. }
  rewrite E1, E2 in H1. cbn [orb negb resolve] in H1.
  destruct (find_entry file_name tree) as [[n data|n sub]|] eqn:Ef.
  - apply find_entry_Some in Ef as [Hin Hn]. cbn in Hn. subst n.
    destruct data as [content|e]; cbn [_list_functions_in_file bind] in H1;
      [|discriminate].
    injection H1 as <-. unfold tag in Hx.
    apply in_map_iff in Hx as ([n' s'] & Heq & Hx). injection Heq as -> -> <-.
    apply (list_over_In _ _ _ H2). exists content. split; [|exact Hx].
    apply (root_file_listed tree file_name (Ok content) Hin Hsrc).
  - discriminate.
  - injection H1 as <-. destruct Hx.
Qed.

Lemma list_single_file_within_tree_listing_witness :
  In (s2l "bar", s2l "bar(int x)", [s2l "util.c"])
     [(s2l "bar", s2l "bar(int x)", [s2l "util.c"])].
Proof.
  apply (list_single_file_within_tree_listing tree_locked (s2l "util.c")
           false [(s2l "bar", s2l "bar(int x)", [s2l "util.c"])]
           [(s2l "bar", s2l "bar(int x)", [s2l "util.c"])]);
    try discriminate; try reflexivity.
  left. reflexivity.
Defined.

(** ** Lines before and after comment removal *)

Lemma length_split_newline (s : str) :
  List.length (split newline s) = S (count_newlines s).
Proof.
  induction s as [|c s IH]; [reflexivity|].
  rewrite count_newlines_cons. cbn [split].
  rewrite (Ascii.eqb_sym newline c).
  destruct (Ascii.eqb c newline).
  - cbn [List.length]. rewrite IH. reflexivity.
  - destruct (split newline s) as [|l ls] eqn:E.
    + exfalso. exact (split_nonempty newline s E).
    + cbn [List.length] in IH |- *. rewrite IH. reflexivity.
Qed.

(** Removing the comments never removes a line: the text that
    [_parse_function] cuts into lines after [_remove_comments] has at
    least as many lines as the text it was given. *)
Theorem remove_comments_keeps_lines (content : str) :
  (List.length (split newline content)
   <= List.length (split newline (_remove_comments content)))%nat.
Proof.
  rewrite !length_split_newline.
  pose proof (remove_comments_loop_newlines (List.length content)) as H.
  apply le_n_S. apply H. lia.
Qed.

(** ** Unreadable files in the tree-wide scans *)










